(** * MK-312BT firmware: a shallow embedding of the stimulation engine

    The development follows the C sources of the firmware:
    - [pulse_gen.c] / [interrupts.c]: the two biphasic pulse state machines
      and the double-buffered parameter hand-off;
    - [channel_mem.c]: the two 64-byte channel register blocks;
    - [eeprom.c] / [config.c]: the persistent configuration block;
    - [prng.c], [param_engine.c]: the parameter modulation engine;
    - [mode_programs.c], [user_programs.c], [mode_dispatcher.c]: the
      bytecode modules, their interpreter and the mode dispatcher;
    - the output-copy part of [loop()] of the main sketch.

    Unsigned C integers are modelled as [Z] with the wrap-around written
    out ([u8], [u16]); byte arrays are [list Z] read and written by index.
    Definitions come first, statements about them afterwards. *)

From Stdlib Require Import ZArith List Lia Bool.
From stdpp Require Import base list.
Import ListNotations.

Local Open Scope Z_scope.

(** ** Machine integers *)

Definition u8 (x : Z) : Z := x mod 256.
Definition u16 (x : Z) : Z := x mod 65536.

(** C truth value of a byte. *)
Definition nonzero (x : Z) : bool := negb (x =? 0).

(** [x & ~m] on a byte. *)
Definition clear_bits (x m : Z) : Z := Z.land x (Z.lxor 255 m).

(** A test on every value of a byte, by enumeration. *)
Definition all_bytes (P : Z -> bool) : bool :=
  forallb P (map Z.of_nat (seq 0 256)).

(** A test on every value from [start] on, [n] of them, and on every
    value below [n]. *)
Fixpoint all_from (n : nat) (start : Z) (P : Z -> bool) : bool :=
  match n with
  | O => true
  | S n' => P start && all_from n' (start + 1) P
  end.

Definition all_upto (n : Z) (P : Z -> bool) : bool := all_from (Z.to_nat n) 0 P.

(** ** Pulse generator ([pulse_gen.h], [pulse_gen.c], [interrupts.c]) *)

Module Pulse.

Definition PULSE_OFF : Z := 0.
Definition PULSE_ON : Z := 1.
Definition DEAD_TIME_TICKS : Z := 4.

(** Bit positions of the H-bridge pins on PORTB. *)
Definition HBRIDGE_CH_A_POS : Z := 2.
Definition HBRIDGE_CH_A_NEG : Z := 3.
Definition HBRIDGE_CH_B_POS : Z := 0.
Definition HBRIDGE_CH_B_NEG : Z := 1.

Inductive PulsePhase : Set :=
| PH_POSITIVE
| PH_DEADTIME1
| PH_NEGATIVE
| PH_DEADTIME2
| PH_GAP.

Definition phase_eqb (p q : PulsePhase) : bool :=
  match p, q with
  | PH_POSITIVE, PH_POSITIVE
  | PH_DEADTIME1, PH_DEADTIME1
  | PH_NEGATIVE, PH_NEGATIVE
  | PH_DEADTIME2, PH_DEADTIME2
  | PH_GAP, PH_GAP => true
  | _, _ => false
  end.

Record ChannelPulseState : Set := mkChannelPulseState {
  gate : Z;
  width_ticks : Z;
  period_ticks : Z;
  phase : PulsePhase;
  gap_remaining : Z;
  pending_width : Z;
  pending_period : Z;
  params_dirty : Z
}.

(** The pulse generator as the hardware sees it: both channel states,
    the port that carries the four bridge pins, and the compare
    registers of Timer1 (16 bit) and Timer2 (8 bit). *)
Record PulseGen : Set := mkPulseGen {
  pulse_ch_a : ChannelPulseState;
  pulse_ch_b : ChannelPulseState;
  PORTB : Z;
  OCR1A : Z;
  OCR2 : Z
}.

Definition set_ch_a (c : ChannelPulseState) (g : PulseGen) : PulseGen :=
  mkPulseGen c (pulse_ch_b g) (PORTB g) (OCR1A g) (OCR2 g).
Definition set_ch_b (c : ChannelPulseState) (g : PulseGen) : PulseGen :=
  mkPulseGen (pulse_ch_a g) c (PORTB g) (OCR1A g) (OCR2 g).
Definition set_PORTB (p : Z) (g : PulseGen) : PulseGen :=
  mkPulseGen (pulse_ch_a g) (pulse_ch_b g) p (OCR1A g) (OCR2 g).
Definition set_OCR1A (v : Z) (g : PulseGen) : PulseGen :=
  mkPulseGen (pulse_ch_a g) (pulse_ch_b g) (PORTB g) v (OCR2 g).
Definition set_OCR2 (v : Z) (g : PulseGen) : PulseGen :=
  mkPulseGen (pulse_ch_a g) (pulse_ch_b g) (PORTB g) (OCR1A g) v.

Definition with_gate (v : Z) (c : ChannelPulseState) : ChannelPulseState :=
  mkChannelPulseState v (width_ticks c) (period_ticks c) (phase c)
    (gap_remaining c) (pending_width c) (pending_period c) (params_dirty c).
Definition with_phase (p : PulsePhase) (c : ChannelPulseState) : ChannelPulseState :=
  mkChannelPulseState (gate c) (width_ticks c) (period_ticks c) p
    (gap_remaining c) (pending_width c) (pending_period c) (params_dirty c).
Definition with_gap_remaining (v : Z) (c : ChannelPulseState) : ChannelPulseState :=
  mkChannelPulseState (gate c) (width_ticks c) (period_ticks c) (phase c)
    v (pending_width c) (pending_period c) (params_dirty c).
Definition with_pending_width (v : Z) (c : ChannelPulseState) : ChannelPulseState :=
  mkChannelPulseState (gate c) (width_ticks c) (period_ticks c) (phase c)
    (gap_remaining c) v (pending_period c) 1.
Definition with_pending_period (v : Z) (c : ChannelPulseState) : ChannelPulseState :=
  mkChannelPulseState (gate c) (width_ticks c) (period_ticks c) (phase c)
    (gap_remaining c) (pending_width c) v 1.

(** The latch at the head of the GAP case of both ISRs:
    [if (params_dirty) { width_ticks = pending_width;
                         period_ticks = pending_period; params_dirty = 0; }] *)
Definition latch_pending (c : ChannelPulseState) : ChannelPulseState :=
  if nonzero (params_dirty c) then
    mkChannelPulseState (gate c) (pending_width c) (pending_period c) (phase c)
      (gap_remaining c) (pending_width c) (pending_period c) 0
  else c.

(** [pulse_gen_init], without the timer control registers. *)
Definition init_channel : ChannelPulseState :=
  mkChannelPulseState PULSE_OFF 100 5000 PH_GAP 0 100 5000 0.

Definition pulse_gen_init (portb : Z) : PulseGen :=
  mkPulseGen init_channel init_channel (clear_bits portb 15) 250 250.

(** Foreground submission functions. Each body runs between [cli()] and
    the restore of SREG, so it is one atomic step for the ISRs. *)
Definition pulse_set_width_a (width_us : Z) (g : PulseGen) : PulseGen :=
  let width_us := if width_us <? 70 then 70 else width_us in
  set_ch_a (with_pending_width width_us (pulse_ch_a g)) g.

Definition pulse_set_width_b (width_us : Z) (g : PulseGen) : PulseGen :=
  let width_us := if width_us <? 70 then 70 else width_us in
  set_ch_b (with_pending_width width_us (pulse_ch_b g)) g.

Definition pulse_set_gate_a (on : Z) (g : PulseGen) : PulseGen :=
  let g := set_ch_a (with_gate on (pulse_ch_a g)) g in
  if nonzero on then g
  else set_PORTB (clear_bits (PORTB g)
         (Z.lor (Z.shiftl 1 HBRIDGE_CH_A_POS) (Z.shiftl 1 HBRIDGE_CH_A_NEG))) g.

Definition pulse_set_gate_b (on : Z) (g : PulseGen) : PulseGen :=
  let g := set_ch_b (with_gate on (pulse_ch_b g)) g in
  if nonzero on then g
  else set_PORTB (clear_bits (PORTB g)
         (Z.lor (Z.shiftl 1 HBRIDGE_CH_B_POS) (Z.shiftl 1 HBRIDGE_CH_B_NEG))) g.

Definition pulse_set_frequency_a (period_us : Z) (g : PulseGen) : PulseGen :=
  let period_us := if period_us <? 500 then 500 else period_us in
  set_ch_a (with_pending_period period_us (pulse_ch_a g)) g.

Definition pulse_set_frequency_b (period_us : Z) (g : PulseGen) : PulseGen :=
  let period_us := if period_us <? 500 then 500 else period_us in
  set_ch_b (with_pending_period period_us (pulse_ch_b g)) g.

(** Pin helpers of [interrupts.c]. *)
Definition ch_a_all_off (p : Z) : Z :=
  clear_bits p (Z.lor (Z.shiftl 1 HBRIDGE_CH_A_POS) (Z.shiftl 1 HBRIDGE_CH_A_NEG)).
Definition ch_a_positive (p : Z) : Z :=
  Z.lor (clear_bits p (Z.shiftl 1 HBRIDGE_CH_A_NEG)) (Z.shiftl 1 HBRIDGE_CH_A_POS).
Definition ch_a_negative (p : Z) : Z :=
  Z.lor (clear_bits p (Z.shiftl 1 HBRIDGE_CH_A_POS)) (Z.shiftl 1 HBRIDGE_CH_A_NEG).
Definition ch_b_all_off (p : Z) : Z :=
  clear_bits p (Z.lor (Z.shiftl 1 HBRIDGE_CH_B_POS) (Z.shiftl 1 HBRIDGE_CH_B_NEG)).
Definition ch_b_positive (p : Z) : Z :=
  Z.lor (clear_bits p (Z.shiftl 1 HBRIDGE_CH_B_NEG)) (Z.shiftl 1 HBRIDGE_CH_B_POS).
Definition ch_b_negative (p : Z) : Z :=
  Z.lor (clear_bits p (Z.shiftl 1 HBRIDGE_CH_B_POS)) (Z.shiftl 1 HBRIDGE_CH_B_NEG).

(** [set_ocr1a]: high byte then low byte of a 16-bit value. *)
Definition set_ocr1a (val : Z) (g : PulseGen) : PulseGen :=
  set_OCR1A (Z.lor (Z.shiftl (u8 (Z.shiftr val 8)) 8) (Z.land val 255)) g.

(** The gap computed in the PH_DEADTIME2 case of both ISRs:
    [used = (uint16_t)width_ticks * 2 + DEAD_TIME_TICKS * 2;
     gap = period_ticks > used ? period_ticks - used : DEAD_TIME_TICKS]. *)
Definition gap_ticks (width period : Z) : Z :=
  let used := u16 (u16 (width * 2) + DEAD_TIME_TICKS * 2) in
  if period >? used then u16 (period - used) else DEAD_TIME_TICKS.

(** [ISR(TIMER1_COMPA_vect)]: channel A. *)
Definition isr_timer1_compa (g : PulseGen) : PulseGen :=
  let c := pulse_ch_a g in
  match phase c with
  | PH_GAP =>
      let c := latch_pending c in
      let g := set_ch_a c g in
      if negb (nonzero (gate c)) then
        set_ocr1a 250 (set_PORTB (ch_a_all_off (PORTB g)) g)
      else
        let g := set_PORTB (ch_a_positive (PORTB g)) g in
        let g := set_ocr1a (width_ticks c) g in
        set_ch_a (with_phase PH_POSITIVE c) g
  | PH_POSITIVE =>
      let g := set_PORTB (ch_a_all_off (PORTB g)) g in
      let g := set_ocr1a DEAD_TIME_TICKS g in
      set_ch_a (with_phase PH_DEADTIME1 c) g
  | PH_DEADTIME1 =>
      let g := set_PORTB (ch_a_negative (PORTB g)) g in
      let g := set_ocr1a (width_ticks c) g in
      set_ch_a (with_phase PH_NEGATIVE c) g
  | PH_NEGATIVE =>
      let g := set_PORTB (ch_a_all_off (PORTB g)) g in
      let g := set_ocr1a DEAD_TIME_TICKS g in
      set_ch_a (with_phase PH_DEADTIME2 c) g
  | PH_DEADTIME2 =>
      let gap := gap_ticks (width_ticks c) (period_ticks c) in
      let g := set_ocr1a gap g in
      set_ch_a (with_phase PH_GAP c) g
  end.

(** [ISR(TIMER2_COMP_vect)]: channel B, with the gap counted down in
    chunks of at most 250 because OCR2 is eight bits wide. *)
Definition isr_timer2_comp (g : PulseGen) : PulseGen :=
  let c := pulse_ch_b g in
  match phase c with
  | PH_GAP =>
      if gap_remaining c >? 0 then
        let chunk := gap_remaining c in
        let chunk := if chunk >? 250 then 250 else chunk in
        let g := set_OCR2 (u8 chunk) g in
        set_ch_b (with_gap_remaining (u16 (gap_remaining c - chunk)) c) g
      else
        let c := latch_pending c in
        let g := set_ch_b c g in
        if negb (nonzero (gate c)) then
          set_OCR2 250 (set_PORTB (ch_b_all_off (PORTB g)) g)
        else
          let g := set_PORTB (ch_b_positive (PORTB g)) g in
          let g := set_OCR2 (width_ticks c) g in
          set_ch_b (with_phase PH_POSITIVE c) g
  | PH_POSITIVE =>
      let g := set_PORTB (ch_b_all_off (PORTB g)) g in
      let g := set_OCR2 DEAD_TIME_TICKS g in
      set_ch_b (with_phase PH_DEADTIME1 c) g
  | PH_DEADTIME1 =>
      let g := set_PORTB (ch_b_negative (PORTB g)) g in
      let g := set_OCR2 (width_ticks c) g in
      set_ch_b (with_phase PH_NEGATIVE c) g
  | PH_NEGATIVE =>
      let g := set_PORTB (ch_b_all_off (PORTB g)) g in
      let g := set_OCR2 DEAD_TIME_TICKS g in
      set_ch_b (with_phase PH_DEADTIME2 c) g
  | PH_DEADTIME2 =>
      let gap := gap_ticks (width_ticks c) (period_ticks c) in
      if gap <=? 250 then
        let g := set_OCR2 (u8 gap) g in
        set_ch_b (with_phase PH_GAP (with_gap_remaining 0 c)) g
      else
        let g := set_OCR2 250 g in
        set_ch_b (with_phase PH_GAP (with_gap_remaining (u16 (gap - 250)) c)) g
  end.

(** *** Interleavings of the foreground with the two ISRs *)

Inductive event : Set :=
| IsrA
| IsrB
| SetWidthA (w : Z)
| SetWidthB (w : Z)
| SetFrequencyA (p : Z)
| SetFrequencyB (p : Z)
| SetGateA (on : Z)
| SetGateB (on : Z).

Definition step (e : event) (g : PulseGen) : PulseGen :=
  match e with
  | IsrA => isr_timer1_compa g
  | IsrB => isr_timer2_comp g
  | SetWidthA w => pulse_set_width_a w g
  | SetWidthB w => pulse_set_width_b w g
  | SetFrequencyA p => pulse_set_frequency_a p g
  | SetFrequencyB p => pulse_set_frequency_b p g
  | SetGateA on => pulse_set_gate_a on g
  | SetGateB on => pulse_set_gate_b on g
  end.

Definition run (es : list event) (g : PulseGen) : PulseGen :=
  fold_left (fun g e => step e g) es g.

(** What one ISR invocation leaves behind: the phase it entered, the
    time programmed for it (compare register plus, on channel B, the
    part of the gap still to be counted down), and the active width and
    period it worked with. *)
Record obs : Set := mkObs {
  ob_phase : PulsePhase;
  ob_time : Z;
  ob_width : Z;
  ob_period : Z
}.

Definition observe_a (g : PulseGen) : obs :=
  let c := pulse_ch_a g in
  mkObs (phase c) (OCR1A g) (width_ticks c) (period_ticks c).

Definition observe_b (g : PulseGen) : obs :=
  let c := pulse_ch_b g in
  mkObs (phase c)
    (match phase c with PH_GAP => OCR2 g + gap_remaining c | _ => OCR2 g end)
    (width_ticks c) (period_ticks c).

(** The observations of channel A (resp. B) along an interleaving. *)
Fixpoint trace_a (es : list event) (g : PulseGen) : list obs :=
  match es with
  | [] => []
  | IsrA :: es => let g' := isr_timer1_compa g in observe_a g' :: trace_a es g'
  | e :: es => trace_a es (step e g)
  end.

Fixpoint trace_b (es : list event) (g : PulseGen) : list obs :=
  match es with
  | [] => []
  | IsrB :: es => let g' := isr_timer2_comp g in observe_b g' :: trace_b es g'
  | e :: es => trace_b es (step e g)
  end.

Definition obs_eqb (o : obs) (ph : PulsePhase) (t w p : Z) : bool :=
  phase_eqb (ob_phase o) ph && (ob_time o =? t) && (ob_width o =? w)
    && (ob_period o =? p).

(** The rest of a biphasic cycle that began in phase [ph] with active
    values [(w, p)]: as far as the list goes, every later phase of the
    cycle is timed from the same [w] and [p]. *)
Fixpoint rest_of_cycle (ph : PulsePhase) (w p : Z) (l : list obs) : bool :=
  match l with
  | [] => true
  | o :: l' =>
      match ph with
      | PH_POSITIVE =>
          obs_eqb o PH_DEADTIME1 DEAD_TIME_TICKS w p && rest_of_cycle PH_DEADTIME1 w p l'
      | PH_DEADTIME1 =>
          obs_eqb o PH_NEGATIVE w w p && rest_of_cycle PH_NEGATIVE w p l'
      | PH_NEGATIVE =>
          obs_eqb o PH_DEADTIME2 DEAD_TIME_TICKS w p && rest_of_cycle PH_DEADTIME2 w p l'
      | PH_DEADTIME2 =>
          obs_eqb o PH_GAP (gap_ticks w p) w p
      | PH_GAP => true
      end
  end.

(** Every cycle that starts in the list (an observation entering
    PH_POSITIVE) is timed by its own width and continues consistently. *)
Fixpoint pairs_consistent (l : list obs) : bool :=
  match l with
  | [] => true
  | o :: l' =>
      (if phase_eqb (ob_phase o) PH_POSITIVE
       then (ob_time o =? ob_width o)
            && rest_of_cycle PH_POSITIVE (ob_width o) (ob_period o) l'
       else true)
      && pairs_consistent l'
  end.

(** Ranges of the C types of a channel state and of the arguments of
    the submission functions. *)
Definition state_in_range (c : ChannelPulseState) : Prop :=
  0 <= width_ticks c <= 255 /\ 0 <= period_ticks c <= 65535 /\
  0 <= pending_width c <= 255 /\ 0 <= pending_period c <= 65535 /\
  0 <= gap_remaining c <= 65535.

Definition event_in_range (e : event) : Prop :=
  match e with
  | SetWidthA w | SetWidthB w => 0 <= w <= 255
  | SetFrequencyA p | SetFrequencyB p => 0 <= p <= 65535
  | SetGateA on | SetGateB on => 0 <= on <= 255
  | IsrA | IsrB => True
  end.

(** The widths a channel holds fit the compare registers. *)
Definition widths_ok (c : ChannelPulseState) : Prop :=
  0 <= width_ticks c <= 255 /\ 0 <= pending_width c <= 255.

(** What the hand-off may change in a channel: the active pair and the
    dirty flag. *)
Definition handoff (c : ChannelPulseState) : Z * Z * Z :=
  (width_ticks c, period_ticks c, params_dirty c).

(** The same after a latch that found the dirty flag set or not. *)
Definition latched (c : ChannelPulseState) : Z * Z * Z :=
  if nonzero (params_dirty c) then (pending_width c, pending_period c, 0)
  else handoff c.

(** *** The bridge pins *)

(** One pin of PORTB as the H-bridge sees it. *)
Definition pin (g : PulseGen) (bit : Z) : bool := Z.testbit (PORTB g) bit.

(** A pin is high only in the phase that drives it. *)
Definition pins_follow_phase (g : PulseGen) : Prop :=
  (pin g HBRIDGE_CH_A_POS = true -> phase (pulse_ch_a g) = PH_POSITIVE) /\
  (pin g HBRIDGE_CH_A_NEG = true -> phase (pulse_ch_a g) = PH_NEGATIVE) /\
  (pin g HBRIDGE_CH_B_POS = true -> phase (pulse_ch_b g) = PH_POSITIVE) /\
  (pin g HBRIDGE_CH_B_NEG = true -> phase (pulse_ch_b g) = PH_NEGATIVE).

(** Channel A as an oscilloscope sees it after one ISR invocation: the
    two pins and the time programmed until the next compare match. *)
Definition drive_a (g : PulseGen) : bool * bool * Z :=
  (pin g HBRIDGE_CH_A_POS, pin g HBRIDGE_CH_A_NEG, OCR1A g).

(** [n] consecutive invocations of the channel-B ISR and the compare
    values they program. *)
Fixpoint isr_b_chunks (n : nat) (g : PulseGen) : list Z * PulseGen :=
  match n with
  | O => ([], g)
  | S n' =>
      let g' := isr_timer2_comp g in
      let '(l, g'') := isr_b_chunks n' g' in
      (OCR2 g' :: l, g'')
  end.

(** Events that do not switch the gate of a channel on. *)
Definition gate_stays_off_a (e : event) : Prop :=
  match e with SetGateA on => on = 0 | _ => True end.
Definition gate_stays_off_b (e : event) : Prop :=
  match e with SetGateB on => on = 0 | _ => True end.

(** Active and pending parameters inside the clamps of the submission
    functions and the ranges of their C types. *)
Definition clamped (c : ChannelPulseState) : Prop :=
  70 <= width_ticks c <= 255 /\ 500 <= period_ticks c <= 65535 /\
  70 <= pending_width c <= 255 /\ 500 <= pending_period c <= 65535.

End Pulse.

(** ** Mode numbers ([MK312BT_Modes.h]) *)

Module Modes.
Definition MODE_WAVES : Z := 0.
Definition MODE_STROKE : Z := 1.
Definition MODE_CLIMB : Z := 2.
Definition MODE_COMBO : Z := 3.
Definition MODE_INTENSE : Z := 4.
Definition MODE_RHYTHM : Z := 5.
Definition MODE_AUDIO1 : Z := 6.
Definition MODE_AUDIO2 : Z := 7.
Definition MODE_AUDIO3 : Z := 8.
Definition MODE_RANDOM1 : Z := 9.
Definition MODE_RANDOM2 : Z := 10.
Definition MODE_TOGGLE : Z := 11.
Definition MODE_ORGASM : Z := 12.
Definition MODE_TORMENT : Z := 13.
Definition MODE_PHASE1 : Z := 14.
Definition MODE_PHASE2 : Z := 15.
Definition MODE_PHASE3 : Z := 16.
Definition MODE_USER1 : Z := 17.
Definition MODE_SPLIT : Z := 24.
Definition MODE_COUNT : Z := 25.
End Modes.

(** ** Channel register blocks ([channel_mem.h], [channel_mem.c]) *)

Module ChannelMem.

(** A [ChannelBlock] is its 64 bytes in struct order; the fields are
    named by their offsets, as bytecode and the serial protocol do. *)
Abbreviation ChannelBlock := (list Z) (only parsing).

Definition CHAN_BASE_A : Z := 0x080.
Definition CHAN_BASE_B : Z := 0x180.
Definition CHAN_BLOCK_SIZE : Z := 64.

Definition o_retry_count : nat := 0x02.
Definition o_output_control_flags : nat := 0x03.
Definition o_cond_module : nat := 0x04.
Definition o_apply_channel : nat := 0x05.
Definition o_ma_range_high : nat := 0x06.
Definition o_ma_range_low : nat := 0x07.
Definition o_bank : nat := 0x0C.
Definition o_random_min : nat := 0x0D.
Definition o_random_max : nat := 0x0E.
Definition o_gate_value : nat := 0x10.
Definition o_next_module_timer_cur : nat := 0x14.
Definition o_next_module_timer_max : nat := 0x15.
Definition o_next_module_select : nat := 0x16.
Definition o_next_module_number : nat := 0x17.
Definition o_gate_ontime : nat := 0x18.
Definition o_gate_offtime : nat := 0x19.
Definition o_gate_select : nat := 0x1A.
Definition o_gate_transitions : nat := 0x1B.
Definition o_ramp_value : nat := 0x1C.
Definition o_ramp_min : nat := 0x1D.
Definition o_ramp_max : nat := 0x1E.
Definition o_ramp_rate : nat := 0x1F.
Definition o_ramp_step : nat := 0x20.
Definition o_ramp_action_min : nat := 0x21.
Definition o_ramp_action_max : nat := 0x22.
Definition o_ramp_select : nat := 0x23.
Definition o_ramp_timer : nat := 0x24.
Definition o_intensity_value : nat := 0x25.
Definition o_intensity_select : nat := 0x2C.
Definition o_freq_value : nat := 0x2E.
Definition o_freq_select : nat := 0x35.
Definition o_width_value : nat := 0x37.
Definition o_width_select : nat := 0x3E.

Definition ACTION_REVERSE : Z := 0xFF.
Definition ACTION_REV_TOGGLE : Z := 0xFE.
Definition ACTION_LOOP : Z := 0xFD.
Definition ACTION_STOP : Z := 0xFC.
Definition ACTION_IS_MODULE (a : Z) : bool := a <? 0xFC.

Definition SEL_TIMER_MASK : Z := 0x03.
Definition SEL_TIMER_NONE : Z := 0x00.
Definition SEL_TIMER_244HZ : Z := 0x01.
Definition SEL_TIMER_30HZ : Z := 0x02.
Definition SEL_TIMER_1HZ : Z := 0x03.

Definition GATE_ON_BIT : Z := 0x01.
Definition GATE_ALT_POL : Z := 0x08.
Definition GATE_OFF_FROM_TEMPO : Z := 0x04.
Definition GATE_OFF_FROM_MA : Z := 0x08.
Definition GATE_ON_FROM_EFFECT : Z := 0x20.
Definition GATE_ON_FROM_MA : Z := 0x40.

Definition channel_defaults : ChannelBlock :=
  [ 0x00; 0x00; 0x02; 0x00; 0x00; 0x03; 0x01; 0xFF;
    0x00; 0x00; 0x00; 0x00; 0x00; 0x00; 0x08; 0x00;
    0x07; 0x00; 0x00; 0x00; 0x00; 0xFF; 0x00; 0x00;
    0x3E; 0x3E; 0x00; 0x00;
    0x9C; 0x9C; 0xFF; 0x07; 0x01; 0xFC; 0xFC; 0x01; 0x00;
    0xFF; 0xCD; 0xFF; 0x01; 0x01; 0xFF; 0xFF; 0x00; 0x00;
    0x16; 0x09; 0x64; 0x01; 0x01; 0xFF; 0xFF; 0x08; 0x00;
    0x82; 0x32; 0xC8; 0x01; 0x01; 0xFF; 0xFF; 0x04; 0x00 ].

(** Field read and write on one block. *)
Definition fld (ch : ChannelBlock) (off : nat) : Z := ch !!! off.
Definition set_fld (off : nat) (v : Z) (ch : ChannelBlock) : ChannelBlock :=
  <[off := v]> ch.

(** The register file the interpreter and the serial protocol address:
    both blocks and the scratch byte that absorbs out-of-range writes. *)
Record Regs : Type := mkRegs {
  channel_a : ChannelBlock;
  channel_b : ChannelBlock;
  scratch_byte : Z
}.

Definition set_channel_a (c : ChannelBlock) (r : Regs) : Regs :=
  mkRegs c (channel_b r) (scratch_byte r).
Definition set_channel_b (c : ChannelBlock) (r : Regs) : Regs :=
  mkRegs (channel_a r) c (scratch_byte r).

(** [memcpy_P(ch, channel_defaults, CHAN_BLOCK_SIZE)] *)
Definition channel_load_defaults : ChannelBlock := channel_defaults.

Definition channel_mem_init (r : Regs) : Regs :=
  mkRegs channel_load_defaults channel_load_defaults (scratch_byte r).

(** What a [uint8_t*] returned by [channel_get_reg_ptr] can point to. *)
Inductive reg_ptr : Set :=
| PtrA (offset : nat)
| PtrB (offset : nat)
| PtrScratch.

(** [channel_get_reg_ptr]: B is tested first; an address outside both
    blocks zeroes the scratch byte and returns its address. *)
Definition channel_get_reg_ptr (addr : Z) (r : Regs) : reg_ptr * Regs :=
  if (CHAN_BASE_B <=? addr) && (addr <? CHAN_BASE_B + CHAN_BLOCK_SIZE) then
    (PtrB (Z.to_nat (u8 (addr - CHAN_BASE_B))), r)
  else if (CHAN_BASE_A <=? addr) && (addr <? CHAN_BASE_A + CHAN_BLOCK_SIZE) then
    (PtrA (Z.to_nat (u8 (addr - CHAN_BASE_A))), r)
  else
    (PtrScratch, mkRegs (channel_a r) (channel_b r) 0).

Definition load (p : reg_ptr) (r : Regs) : Z :=
  match p with
  | PtrA off => fld (channel_a r) off
  | PtrB off => fld (channel_b r) off
  | PtrScratch => scratch_byte r
  end.

Definition store (p : reg_ptr) (v : Z) (r : Regs) : Regs :=
  match p with
  | PtrA off => set_channel_a (set_fld off v (channel_a r)) r
  | PtrB off => set_channel_b (set_fld off v (channel_b r)) r
  | PtrScratch => mkRegs (channel_a r) (channel_b r) v
  end.

(** [*channel_get_reg_ptr(addr) = v] and [*channel_get_reg_ptr(addr)]. *)
Definition write_reg (addr v : Z) (r : Regs) : Regs :=
  let '(p, r) := channel_get_reg_ptr addr r in store p v r.

Definition read_reg (addr : Z) (r : Regs) : Z * Regs :=
  let '(p, r) := channel_get_reg_ptr addr r in (load p r, r).

Definition block_ok (ch : ChannelBlock) : Prop := length ch = 64%nat.

End ChannelMem.

(** ** Persistent configuration ([eeprom.h], [eeprom.c]) *)

Module Eeprom.

Definition EEPROM_CONFIG_BASE : Z := 0x000.
Definition EEPROM_MAGIC_BYTE : Z := 0xA6.
Definition EEPROM_SPLIT_A_MODE : Z := 0x016.
Definition EEPROM_SPLIT_B_MODE : Z := 0x017.
Definition EEPROM_USER_PROG_BASE : Z := 0x020.
Definition USER_PROG_SLOT_SIZE : Z := 32.
Definition USER_PROG_SLOT_COUNT : Z := 7.
Definition USER_PROG_MAGIC : Z := 0xE3.

(** The byte-addressable store: one list cell per EEPROM byte. *)
Abbreviation store := (list Z) (only parsing).

Definition mk312bt_eeprom_write_byte (address data : Z) (ee : store) : store :=
  <[Z.to_nat address := data]> ee.

Definition mk312bt_eeprom_read_byte (address : Z) (ee : store) : Z :=
  ee !!! Z.to_nat address.

Record eeprom_config_t : Set := mkEepromConfig {
  magic : Z;
  top_mode : Z;
  favorite_mode : Z;
  power_level : Z;
  intensity_a : Z;
  intensity_b : Z;
  frequency_a : Z;
  frequency_b : Z;
  width_a : Z;
  width_b : Z;
  multi_adjust : Z;
  audio_gain : Z;
  split_mode : Z;
  adv_ramp_level : Z;
  adv_ramp_time : Z;
  adv_depth : Z;
  adv_tempo : Z;
  adv_frequency : Z;
  adv_effect : Z;
  adv_width : Z;
  adv_pace : Z;
  checksum : Z
}.

(** [sizeof(eeprom_config_t)] and the [(uint8_t* )config] view of the
    struct, in both directions. *)
Definition config_size : nat := 22.

Definition bytes_of (c : eeprom_config_t) : list Z :=
  [ magic c; top_mode c; favorite_mode c; power_level c;
    intensity_a c; intensity_b c; frequency_a c; frequency_b c;
    width_a c; width_b c; multi_adjust c; audio_gain c; split_mode c;
    adv_ramp_level c; adv_ramp_time c; adv_depth c; adv_tempo c;
    adv_frequency c; adv_effect c; adv_width c; adv_pace c; checksum c ].

Definition config_of (l : list Z) : eeprom_config_t :=
  mkEepromConfig (l !!! 0%nat) (l !!! 1%nat) (l !!! 2%nat) (l !!! 3%nat)
    (l !!! 4%nat) (l !!! 5%nat) (l !!! 6%nat) (l !!! 7%nat) (l !!! 8%nat)
    (l !!! 9%nat) (l !!! 10%nat) (l !!! 11%nat) (l !!! 12%nat) (l !!! 13%nat)
    (l !!! 14%nat) (l !!! 15%nat) (l !!! 16%nat) (l !!! 17%nat) (l !!! 18%nat)
    (l !!! 19%nat) (l !!! 20%nat) (l !!! 21%nat).

Definition with_magic (m : Z) (c : eeprom_config_t) : eeprom_config_t :=
  config_of (<[0%nat := m]> (bytes_of c)).
Definition with_checksum (k : Z) (c : eeprom_config_t) : eeprom_config_t :=
  config_of (<[21%nat := k]> (bytes_of c)).

(** [for (i = 0; i < len - 1; i++) checksum ^= ptr[i];] The XOR of two
    bytes is a byte, so no wrap-around occurs. *)
Definition xor_bytes (l : list Z) : Z := fold_left Z.lxor l 0.

Definition eeprom_calculate_checksum (c : eeprom_config_t) : Z :=
  xor_bytes (take (config_size - 1) (bytes_of c)).

(** [for (i = 0; i < n; i++) write_byte(base + i, ptr[i]);] *)
Fixpoint write_bytes (base : Z) (l : list Z) (ee : store) : store :=
  match l with
  | [] => ee
  | b :: l' => write_bytes (base + 1) l' (mk312bt_eeprom_write_byte base b ee)
  end.

(** [for (i = 0; i < n; i++) ptr[i] = read_byte(base + i);] *)
Fixpoint read_bytes (base : Z) (n : nat) (ee : store) : list Z :=
  match n with
  | O => []
  | S n' => mk312bt_eeprom_read_byte base ee :: read_bytes (base + 1) n' ee
  end.

(** [eeprom_save_config]: the caller's struct is updated in place and
    then written out, so both the struct and the store are returned. *)
Definition eeprom_save_config (c : eeprom_config_t) (ee : store)
  : eeprom_config_t * store :=
  let c := with_magic EEPROM_MAGIC_BYTE c in
  let c := with_checksum (eeprom_calculate_checksum c) c in
  (c, write_bytes EEPROM_CONFIG_BASE (bytes_of c) ee).

(** [eeprom_load_config]: the struct is filled from the store in every
    case; the result says whether magic and checksum were accepted. *)
Definition eeprom_load_config (ee : store) : Z * eeprom_config_t :=
  let c := config_of (read_bytes EEPROM_CONFIG_BASE config_size ee) in
  if negb (magic c =? EEPROM_MAGIC_BYTE) then (0, c)
  else if negb (eeprom_calculate_checksum c =? checksum c) then (0, c)
  else (1, c).

Definition eeprom_init_defaults : eeprom_config_t :=
  mkEepromConfig EEPROM_MAGIC_BYTE 0 0 1 128 128 5 5 25 25 128 128 0
    128 0 50 50 107 128 130 50 0.

Definition eeprom_load_split_modes (ee : store) : Z * Z :=
  let a := mk312bt_eeprom_read_byte EEPROM_SPLIT_A_MODE ee in
  let b := mk312bt_eeprom_read_byte EEPROM_SPLIT_B_MODE ee in
  (if a <? Modes.MODE_SPLIT then a else 0, if b <? Modes.MODE_SPLIT then b else 0).

(** Every field of the struct is a [uint8_t]. *)
Definition is_byte (x : Z) : Prop := 0 <= x <= 255.
Definition config_bytes (c : eeprom_config_t) : Prop :=
  Forall is_byte (bytes_of c).

(** The twenty fields that carry settings (all but magic and checksum). *)
Definition payload (c : eeprom_config_t) : list Z :=
  take 20 (drop 1 (bytes_of c)).

Definition eeprom_save_split_modes (mode_a mode_b : Z) (ee : store) : store :=
  mk312bt_eeprom_write_byte EEPROM_SPLIT_B_MODE mode_b
    (mk312bt_eeprom_write_byte EEPROM_SPLIT_A_MODE mode_a ee).

Definition user_prog_addr (slot : Z) : Z :=
  u16 (EEPROM_USER_PROG_BASE + u16 (slot * USER_PROG_SLOT_SIZE)).

(** [eeprom_save_user_prog]; [buf] points to [USER_PROG_SLOT_SIZE] bytes. *)
Definition eeprom_save_user_prog (slot : Z) (buf : list Z) (ee : store) : store :=
  if USER_PROG_SLOT_COUNT <=? slot then ee
  else write_bytes (user_prog_addr slot) (take (Z.to_nat USER_PROG_SLOT_SIZE) buf) ee.

(** [eeprom_load_user_prog]: the returned byte and the buffer as the
    call leaves it. *)
Definition eeprom_load_user_prog (slot : Z) (buf : list Z) (ee : store) : Z * list Z :=
  if USER_PROG_SLOT_COUNT <=? slot then (0, buf)
  else
    let buf := read_bytes (user_prog_addr slot) (Z.to_nat USER_PROG_SLOT_SIZE) ee in
    (if buf !!! 0%nat =? USER_PROG_MAGIC then 1 else 0, buf).

Definition eeprom_erase_user_prog (slot : Z) (ee : store) : store :=
  if USER_PROG_SLOT_COUNT <=? slot then ee
  else mk312bt_eeprom_write_byte (user_prog_addr slot) 0xFF ee.

End Eeprom.

(** ** Runtime configuration ([config.h], [config.c]) *)

Module Config.

Record system_config_t : Set := mkSystemConfig {
  current_mode : Z;
  power_level : Z;
  split_mode : Z;
  split_a_mode : Z;
  split_b_mode : Z;
  intensity_a : Z;
  intensity_b : Z;
  frequency_a : Z;
  frequency_b : Z;
  width_a : Z;
  width_b : Z;
  multi_adjust : Z;
  audio_gain : Z;
  adv_ramp_level : Z;
  adv_ramp_time : Z;
  adv_depth : Z;
  adv_tempo : Z;
  adv_frequency : Z;
  adv_effect : Z;
  adv_width : Z;
  adv_pace : Z;
  favorite_mode : Z
}.

Definition config_set_defaults : system_config_t :=
  mkSystemConfig Modes.MODE_WAVES 1 0 Modes.MODE_WAVES Modes.MODE_WAVES
    128 128 5 5 25 25 128 128 128 0 50 50 107 128 130 50 Modes.MODE_WAVES.

(** The store together with the runtime singleton [system_config]. *)
Record Persist : Type := mkPersist {
  eeprom : Eeprom.store;
  system_config : system_config_t
}.

(** The twenty settings of the runtime configuration, in the order of
    the fields of [eeprom_config_t] that carry them. *)
Definition settings (c : system_config_t) : list Z :=
  [ current_mode c; favorite_mode c; power_level c;
    intensity_a c; intensity_b c; frequency_a c; frequency_b c;
    width_a c; width_b c; multi_adjust c; audio_gain c; split_mode c;
    adv_ramp_level c; adv_ramp_time c; adv_depth c; adv_tempo c;
    adv_frequency c; adv_effect c; adv_width c; adv_pace c ].

Definition config_load_from_eeprom (s : Persist) : Persist :=
  let '(ok, e) := Eeprom.eeprom_load_config (eeprom s) in
  if nonzero ok then
    let '(sa, sb) := Eeprom.eeprom_load_split_modes (eeprom s) in
    mkPersist (eeprom s)
      (mkSystemConfig (Eeprom.top_mode e) (Eeprom.power_level e)
         (Eeprom.split_mode e) sa sb
         (Eeprom.intensity_a e) (Eeprom.intensity_b e)
         (Eeprom.frequency_a e) (Eeprom.frequency_b e)
         (Eeprom.width_a e) (Eeprom.width_b e)
         (Eeprom.multi_adjust e) (Eeprom.audio_gain e)
         (Eeprom.adv_ramp_level e) (Eeprom.adv_ramp_time e)
         (Eeprom.adv_depth e) (Eeprom.adv_tempo e)
         (Eeprom.adv_frequency e) (Eeprom.adv_effect e)
         (Eeprom.adv_width e) (Eeprom.adv_pace e)
         (Eeprom.favorite_mode e))
  else
    mkPersist (eeprom s) config_set_defaults.

End Config.

(** ** Pseudo-random numbers ([prng.c]) *)

Module Prng.

(** [prng_state = (prng_state * 1103515245UL + 12345UL) & 0xFFFF], the
    arithmetic being that of a 32-bit [unsigned long]. *)
Definition prng_next16 (state : Z) : Z * Z :=
  let state := Z.land ((state * 1103515245 + 12345) mod 2 ^ 32) 0xFFFF in
  (state, state).

Definition prng_next (state : Z) : Z * Z :=
  let '(val, state) := prng_next16 state in
  (u8 (Z.shiftr val 8), state).

(** [prng_init]: the state after seeding. *)
Definition prng_init (seed : Z) : Z := if seed =? 0 then 0xACE1 else seed.

(** The state after [n] calls of [prng_next16]. *)
Definition prng_iter (n : N) (state : Z) : Z :=
  N.iter n (fun st => snd (prng_next16 st)) state.

(** Affine maps [s |-> (A * s + C) mod 65536] as pairs [(A, C)]: the map
    of one step, a map applied twice, and the map of [2 ^ k] steps. *)
Definition affine_step : Z * Z := (1103515245 mod 65536, 12345).
Definition affine_double (f : Z * Z) : Z * Z :=
  let '(A, C) := f in ((A * A) mod 65536, (A * C + C) mod 65536).
Definition affine_pow2 (k : nat) : Z * Z := Nat.iter k affine_double affine_step.

End Prng.

(** ** Parameter modulation engine ([param_engine.c]) *)

Module ParamEngine.
Import ChannelMem.

Definition DIR_UP : Z := 0.
Definition DIR_DOWN : Z := 1.

Definition DIR_BIT_RAMP : Z := 0x01.
Definition DIR_BIT_INTENSITY : Z := 0x02.
Definition DIR_BIT_FREQ : Z := 0x04.
Definition DIR_BIT_WIDTH : Z := 0x08.

(** The static variables of the translation unit; [master_sub] is the
    function-local static of [param_engine_tick]. *)
Record Engine : Set := mkEngine {
  tick_counter : Z;
  pending_module_a : Z;
  pending_module_b : Z;
  master_timer : Z;
  master_sub : Z;
  dir_flags_a : Z;
  dir_flags_b : Z;
  gate_phase_a : Z;
  gate_timer_a : Z;
  gate_phase_b : Z;
  gate_timer_b : Z
}.

(** Offsets of the nine [ParamGroup] bytes from the start of a group. *)
Definition g_value : nat := 0.
Definition g_min : nat := 1.
Definition g_max : nat := 2.
Definition g_rate : nat := 3.
Definition g_step : nat := 4.
Definition g_action_min : nat := 5.
Definition g_action_max : nat := 6.
Definition g_select : nat := 7.
Definition g_timer : nat := 8.

Definition OFF_RAMP : nat := o_ramp_value.
Definition OFF_INTENSITY : nat := o_intensity_value.
Definition OFF_FREQ : nat := o_freq_value.
Definition OFF_WIDTH : nat := o_width_value.

(** The engine's copy of [map_ma]: it divides by 255. *)
Definition map_ma (ma_raw ma_high ma_low : Z) : Z :=
  if ma_high >=? ma_low then
    u8 (ma_low + u8 (u16 (ma_raw * (ma_high - ma_low)) / 255))
  else
    u8 (ma_low - u8 (u16 (ma_raw * (ma_low - ma_high)) / 255)).

Definition resolve_source (index own_val adv_val ma_scaled other_val : Z) : Z :=
  let base := Z.land index 0x03 in
  let val :=
    if base =? 0 then own_val
    else if base =? 1 then adv_val
    else if base =? 2 then ma_scaled
    else if base =? 3 then other_val
    else own_val in
  if nonzero (Z.land index 0x04) then u8 (Z.lnot val) else val.

Definition timer_fires (tick_counter timer_sel : Z) : bool :=
  if timer_sel =? SEL_TIMER_244HZ then true
  else if timer_sel =? SEL_TIMER_30HZ then Z.land tick_counter 0x07 =? 0
  else if timer_sel =? SEL_TIMER_1HZ then tick_counter =? 0
  else false.

(** [infer_direction] on the group that starts at offset [off]. *)
Definition infer_direction (off : nat) (ch : ChannelBlock) : Z :=
  let lo := fld ch (off + g_min) in
  let hi := fld ch (off + g_max) in
  let '(lo, hi) := if lo >? hi then (hi, lo) else (lo, hi) in
  let value := fld ch (off + g_value) in
  if hi =? lo then DIR_UP
  else
    let dist_to_max := if value <=? hi then u8 (hi - value) else 0 in
    let dist_to_min := if value >=? lo then u8 (value - lo) else 0 in
    if value >=? hi then DIR_DOWN
    else if value <=? lo then DIR_UP
    else if dist_to_max <=? dist_to_min then DIR_UP
    else DIR_DOWN.

Definition flip (dir : Z) : Z := if dir =? DIR_UP then DIR_DOWN else DIR_UP.

(** [do_action]: the group [g] lives inside the block [ch], at [off].
    The result is the block, the direction and the returned byte. *)
Definition do_action (action : Z) (off : nat) (ch : ChannelBlock) (dir : Z)
  : ChannelBlock * Z * Z :=
  if action =? ACTION_REV_TOGGLE then
    let ch := set_fld o_gate_value (Z.lxor (fld ch o_gate_value) GATE_ALT_POL) ch in
    (ch, flip dir, 0xFF)
  else if action =? ACTION_REVERSE then
    (ch, flip dir, 0xFF)
  else if action =? ACTION_LOOP then
    if dir =? DIR_UP then
      (set_fld (off + g_value) (fld ch (off + g_min)) ch, dir, 0xFF)
    else
      (set_fld (off + g_value) (fld ch (off + g_max)) ch, dir, 0xFF)
  else if action =? ACTION_STOP then
    (set_fld (off + g_select) (clear_bits (fld ch (off + g_select)) SEL_TIMER_MASK) ch,
     dir, 0xFF)
  else
    (ch, dir, if ACTION_IS_MODULE action then action else 0xFF).

(** [step_group] (through [step_channel_group], which only forms the
    pointer to the group at [off]). *)
Definition step_group (tick : Z) (off : nat) (ch : ChannelBlock)
    (ma_scaled adv_min adv_rate other_val : Z) (dir : Z)
  : ChannelBlock * Z * Z :=
  let sel := fld ch (off + g_select) in
  let timer_sel := Z.land sel SEL_TIMER_MASK in
  if timer_sel =? SEL_TIMER_NONE then
    let src_bits := Z.land (Z.shiftr sel 2) 0x07 in
    if negb (src_bits =? 0) then
      (set_fld (off + g_value)
         (resolve_source src_bits (fld ch (off + g_value)) adv_min ma_scaled other_val) ch,
       dir, 0xFF)
    else (ch, dir, 0xFF)
  else if negb (timer_fires tick timer_sel) then (ch, dir, 0xFF)
  else
    let rate_idx := Z.land (Z.shiftr sel 5) 0x07 in
    let effective_rate :=
      resolve_source rate_idx (fld ch (off + g_rate)) adv_rate ma_scaled other_val in
    let effective_rate := if effective_rate =? 0 then 1 else effective_rate in
    let ch := set_fld (off + g_timer) (u8 (fld ch (off + g_timer) + 1)) ch in
    if fld ch (off + g_timer) <? effective_rate then (ch, dir, 0xFF)
    else
      let ch := set_fld (off + g_timer) 0 ch in
      let min_idx := Z.land (Z.shiftr sel 2) 0x07 in
      let ch :=
        if negb (min_idx =? 0) then
          set_fld (off + g_min)
            (resolve_source min_idx (fld ch (off + g_min)) adv_min ma_scaled other_val) ch
        else ch in
      let stp := fld ch (off + g_step) in
      if stp =? 0 then (ch, dir, 0xFF)
      else if dir =? DIR_UP then
        let next := u16 (fld ch (off + g_value) + stp) in
        if next >=? fld ch (off + g_max) then
          let ch := set_fld (off + g_value) (fld ch (off + g_max)) ch in
          do_action (fld ch (off + g_action_max)) off ch dir
        else (set_fld (off + g_value) (u8 next) ch, dir, 0xFF)
      else
        let next := fld ch (off + g_value) - stp in
        if next <=? fld ch (off + g_min) then
          let ch := set_fld (off + g_value) (fld ch (off + g_min)) ch in
          do_action (fld ch (off + g_action_min)) off ch dir
        else (set_fld (off + g_value) (u8 next) ch, dir, 0xFF).

(** [n] consecutive calls of [step_group] on the same group, the results
    of one call feeding the next; the returned bytes are collected. *)
Fixpoint step_group_n (n : nat) (tick : Z) (off : nat) (ch : ChannelBlock)
    (ma_scaled adv_min adv_rate other_val : Z) (dir : Z)
  : ChannelBlock * Z * list Z :=
  match n with
  | O => (ch, dir, [])
  | S n' =>
      let '(ch, dir, m) :=
        step_group tick off ch ma_scaled adv_min adv_rate other_val dir in
      let '(ch, dir, ms) :=
        step_group_n n' (u8 (tick + 1)) off ch ma_scaled adv_min adv_rate other_val dir in
      (ch, dir, m :: ms)
  end.

Definition compute_dir_flags (ch : ChannelBlock) : Z :=
  let flags := 0 in
  let flags := if infer_direction OFF_RAMP ch =? DIR_DOWN
               then Z.lor flags DIR_BIT_RAMP else flags in
  let flags := if infer_direction OFF_INTENSITY ch =? DIR_DOWN
               then Z.lor flags DIR_BIT_INTENSITY else flags in
  let flags := if infer_direction OFF_FREQ ch =? DIR_DOWN
               then Z.lor flags DIR_BIT_FREQ else flags in
  let flags := if infer_direction OFF_WIDTH ch =? DIR_DOWN
               then Z.lor flags DIR_BIT_WIDTH else flags in
  flags.

Definition param_engine_init (e : Engine) : Engine :=
  mkEngine 0 0xFF 0xFF 0 (master_sub e) 0 0 0 0 0 0.

Definition param_engine_init_directions (r : Regs) (e : Engine) : Engine :=
  mkEngine (tick_counter e) (pending_module_a e) (pending_module_b e)
    (master_timer e) (master_sub e)
    (compute_dir_flags (channel_a r))
    (compute_dir_flags (channel_b r))
    (if nonzero (Z.land (fld (channel_a r) o_gate_value) GATE_ON_BIT) then 0 else 1)
    0
    (if nonzero (Z.land (fld (channel_b r) o_gate_value) GATE_ON_BIT) then 0 else 1)
    0.

(** The fields of a group as the tuple
    (value, min, max, rate, step, action_min, action_max, select, timer). *)
Definition group_at (off : nat) (ch : ChannelBlock) : list Z :=
  map (fun i => fld ch (off + i)) (seq 0 9).

(** Knob scaling as the specification states it. *)
Definition spec_knob_scale (K low high : Z) : Z :=
  if high >=? low then low + Z.shiftr (K * (high - low)) 8
  else low - Z.shiftr (K * (low - high)) 8.

Definition is_group_offset (off : nat) : Prop :=
  off = OFF_RAMP \/ off = OFF_INTENSITY \/ off = OFF_FREQ \/ off = OFF_WIDTH.

(** [update_gate_timer]: the block, [*gt] and [*gp] after the call. *)
Definition update_gate_timer (tick : Z) (cfg : Config.system_config_t)
    (ch : ChannelBlock) (gt gp : Z) : ChannelBlock * Z * Z :=
  let sel := fld ch o_gate_select in
  let timer_sel := Z.land sel SEL_TIMER_MASK in
  if timer_sel =? SEL_TIMER_NONE then (ch, gt, gp)
  else if negb (timer_fires tick timer_sel) then (ch, gt, gp)
  else
    let ma_scaled :=
      map_ma (Config.multi_adjust cfg) (fld ch o_ma_range_high) (fld ch o_ma_range_low) in
    let ontime := fld ch o_gate_ontime in
    let ontime :=
      if nonzero (Z.land sel GATE_ON_FROM_MA) then ma_scaled
      else if nonzero (Z.land sel GATE_ON_FROM_EFFECT) then Config.adv_effect cfg
      else ontime in
    let ontime := if ontime =? 0 then 1 else ontime in
    let offtime := fld ch o_gate_offtime in
    let offtime :=
      if nonzero (Z.land sel GATE_OFF_FROM_MA) then ma_scaled
      else if nonzero (Z.land sel GATE_OFF_FROM_TEMPO) then Config.adv_tempo cfg
      else offtime in
    let offtime := if offtime =? 0 then 1 else offtime in
    let gt := u8 (gt + 1) in
    if gp =? 0 then
      if gt >=? ontime then
        (set_fld o_gate_value (clear_bits (fld ch o_gate_value) GATE_ON_BIT) ch, 0, 1)
      else (ch, gt, gp)
    else
      if gt >=? offtime then
        let ch := set_fld o_gate_value (Z.lor (fld ch o_gate_value) GATE_ON_BIT) ch in
        let ch := set_fld o_gate_transitions (u8 (fld ch o_gate_transitions + 1)) ch in
        (ch, 0, 0)
      else (ch, gt, gp).

(** [( *flags & bit) ? DIR_DOWN : DIR_UP] and the write-back
    [if (dir == DIR_DOWN) *flags |= bit; else *flags &= ~bit;]. *)
Definition dir_of_flags (flags bit : Z) : Z :=
  if nonzero (Z.land flags bit) then DIR_DOWN else DIR_UP.
Definition flags_with_dir (flags bit dir : Z) : Z :=
  if dir =? DIR_DOWN then Z.lor flags bit else clear_bits flags bit.

(** [if (m != 0xFF && *trigger == 0xFF) *trigger = m;] *)
Definition raise_trigger (m trigger : Z) : Z :=
  if negb (m =? 0xFF) && (trigger =? 0xFF) then m else trigger.

(** [step_channel]: the block, the direction flags and [*trigger] after
    the call. The byte returned for the ramp group is not looked at. *)
Definition step_channel (tick : Z) (cfg : Config.system_config_t)
    (ch other : ChannelBlock) (ma_raw flags trigger : Z) : ChannelBlock * Z * Z :=
  let ma_scaled := map_ma ma_raw (fld ch o_ma_range_high) (fld ch o_ma_range_low) in
  let dir := dir_of_flags flags DIR_BIT_RAMP in
  let '(ch, dir, _) :=
    step_group tick OFF_RAMP ch ma_scaled (Config.adv_ramp_level cfg)
      (Config.adv_ramp_time cfg) (fld other o_ramp_value) dir in
  let flags := flags_with_dir flags DIR_BIT_RAMP dir in
  let dir := dir_of_flags flags DIR_BIT_INTENSITY in
  let '(ch, dir, m) :=
    step_group tick OFF_INTENSITY ch ma_scaled (Config.adv_depth cfg)
      (Config.adv_tempo cfg) (fld other o_intensity_value) dir in
  let flags := flags_with_dir flags DIR_BIT_INTENSITY dir in
  let trigger := raise_trigger m trigger in
  let dir := dir_of_flags flags DIR_BIT_FREQ in
  let '(ch, dir, m) :=
    step_group tick OFF_FREQ ch ma_scaled (Config.adv_frequency cfg)
      (Config.adv_effect cfg) (fld other o_freq_value) dir in
  let flags := flags_with_dir flags DIR_BIT_FREQ dir in
  let trigger := raise_trigger m trigger in
  let dir := dir_of_flags flags DIR_BIT_WIDTH in
  let '(ch, dir, m) :=
    step_group tick OFF_WIDTH ch ma_scaled (Config.adv_width cfg)
      (Config.adv_pace cfg) (fld other o_width_value) dir in
  let flags := flags_with_dir flags DIR_BIT_WIDTH dir in
  let trigger := raise_trigger m trigger in
  (ch, flags, trigger).

Definition step_next_module_timer (tick : Z) (ch : ChannelBlock)
    (ma_scaled adv_val other_max trigger : Z) : ChannelBlock * Z :=
  let sel := fld ch o_next_module_select in
  let timer_sel := Z.land sel SEL_TIMER_MASK in
  if timer_sel =? SEL_TIMER_NONE then (ch, trigger)
  else if negb (timer_fires tick timer_sel) then (ch, trigger)
  else
    let rate_idx := Z.land (Z.shiftr sel 5) 0x07 in
    let effective_max :=
      resolve_source rate_idx (fld ch o_next_module_timer_max) adv_val ma_scaled other_max in
    let effective_max := if effective_max =? 0 then 1 else effective_max in
    let ch := set_fld o_next_module_timer_cur (u8 (fld ch o_next_module_timer_cur + 1)) ch in
    if fld ch o_next_module_timer_cur >=? effective_max then
      let ch := set_fld o_next_module_timer_cur 0 ch in
      (ch, if trigger =? 0xFF then fld ch o_next_module_number else trigger)
    else (ch, trigger).

Definition param_engine_tick (cfg : Config.system_config_t) (r : Regs) (e : Engine)
  : Regs * Engine :=
  let tick := u8 (tick_counter e + 1) in
  let sub := u8 (master_sub e + 1) in
  let '(sub, master) :=
    if sub >=? 128 then (0, u16 (master_timer e + 1)) else (sub, master_timer e) in
  let '(a, gt_a, gp_a) :=
    update_gate_timer tick cfg (channel_a r) (gate_timer_a e) (gate_phase_a e) in
  let '(b, gt_b, gp_b) :=
    update_gate_timer tick cfg (channel_b r) (gate_timer_b e) (gate_phase_b e) in
  let ma_raw := Config.multi_adjust cfg in
  let ma_a := map_ma ma_raw (fld a o_ma_range_high) (fld a o_ma_range_low) in
  let ma_b := map_ma ma_raw (fld b o_ma_range_high) (fld b o_ma_range_low) in
  let '(a, flags_a, pend_a) := step_channel tick cfg a b ma_raw (dir_flags_a e) 0xFF in
  let '(a, pend_a) :=
    step_next_module_timer tick a ma_a (Config.adv_tempo cfg)
      (fld b o_next_module_timer_max) pend_a in
  let '(b, flags_b, pend_b) := step_channel tick cfg b a ma_raw (dir_flags_b e) 0xFF in
  let '(b, pend_b) :=
    step_next_module_timer tick b ma_b (Config.adv_tempo cfg)
      (fld a o_next_module_timer_max) pend_b in
  (mkRegs a b (scratch_byte r),
   mkEngine tick pend_a pend_b master sub flags_a flags_b gp_a gt_a gp_b gt_b).

Definition param_engine_get_tick (e : Engine) : Z := tick_counter e.
Definition param_engine_get_master_timer (e : Engine) : Z := master_timer e.

(** [param_engine_check_module_trigger(&channel_a)] and [(&channel_b)]. *)
Definition param_engine_check_module_trigger_a (e : Engine) : Z * Engine :=
  (pending_module_a e,
   mkEngine (tick_counter e) 0xFF (pending_module_b e) (master_timer e) (master_sub e)
     (dir_flags_a e) (dir_flags_b e) (gate_phase_a e) (gate_timer_a e)
     (gate_phase_b e) (gate_timer_b e)).
Definition param_engine_check_module_trigger_b (e : Engine) : Z * Engine :=
  (pending_module_b e,
   mkEngine (tick_counter e) (pending_module_a e) 0xFF (master_timer e) (master_sub e)
     (dir_flags_a e) (dir_flags_b e) (gate_phase_a e) (gate_timer_a e)
     (gate_phase_b e) (gate_timer_b e)).

(** [n] consecutive calls of [param_engine_tick]. *)
Fixpoint param_engine_ticks (n : nat) (cfg : Config.system_config_t) (r : Regs)
    (e : Engine) : Regs * Engine :=
  match n with
  | O => (r, e)
  | S n' => let '(r, e) := param_engine_tick cfg r e in param_engine_ticks n' cfg r e
  end.

(** The firings of a timer source during [n] consecutive ticks that
    follow the counter value [tick]. *)
Fixpoint timer_firings (n : nat) (tick timer_sel : Z) : nat :=
  match n with
  | O => O
  | S n' =>
      let tick := u8 (tick + 1) in
      ((if timer_fires tick timer_sel then 1 else 0) + timer_firings n' tick timer_sel)%nat
  end.

End ParamEngine.

(** ** Bytecode modules ([mode_programs.h], [mode_programs.c]) *)

Module ModePrograms.

Definition MODULE_COUNT : Z := 36.

Definition module_00 : list Z :=
  [ 0x90; 0x06; 0x00; 0x00 ].

Definition module_01 : list Z :=
  [ 0x90; 0x07; 0x00; 0x00 ].

Definition module_02 : list Z :=
  [ 0xDA; 0x02; 0x00; 0x00 ].

Definition module_03 : list Z :=
  [ 0x86; 0x01; 0x87; 0x50; 0xA6; 0x4D; 0xA7; 0xFF; 0xA9; 0x01; 0xAC; 0x55;
    0xAA; 0xFE; 0xAB; 0xFE; 0xB5; 0x00; 0xAE; 0xF9; 0xBE; 0x00; 0xB7; 0xFF;
    0x00; 0x00 ].

Definition module_04 : list Z :=
  [ 0xE6; 0xCD; 0xE7; 0xFF; 0xE9; 0x01; 0xEC; 0x41; 0xEA; 0xFE; 0xEB; 0xFE;
    0xF5; 0x00; 0xEE; 0xF9; 0xFE; 0x00; 0xF7; 0xC9; 0x00; 0x00 ].

Definition module_05 : list Z :=
  [ 0x86; 0x01; 0x87; 0x64; 0xAF; 0x08; 0xB5; 0x41; 0xB3; 0x06; 0xB0; 0xFF;
    0xAE; 0xFF; 0xB2; 0x01; 0x00; 0x00 ].

Definition module_06 : list Z :=
  [ 0xB2; 0x02; 0xAE; 0xFF; 0xB3; 0x07; 0x00; 0x00 ].

Definition module_07 : list Z :=
  [ 0xB2; 0x04; 0xAE; 0xFF; 0xB3; 0x05; 0x00; 0x00 ].

Definition module_08 : list Z :=
  [ 0x85; 0x02; 0x86; 0x01; 0x87; 0x64; 0xAF; 0x08; 0xB5; 0x41; 0xB3; 0x09;
    0xB0; 0xFF; 0xAE; 0xFF; 0xB2; 0x01; 0x00; 0x00 ].

Definition module_09 : list Z :=
  [ 0x85; 0x02; 0xB2; 0x02; 0xAE; 0xFF; 0xB3; 0x0A; 0x00; 0x00 ].

Definition module_10 : list Z :=
  [ 0x85; 0x02; 0xB2; 0x05; 0xAE; 0xFF; 0xB3; 0x08; 0x00; 0x00 ].

Definition module_11 : list Z :=
  [ 0x86; 0x01; 0x87; 0x28; 0xB7; 0x00; 0xB8; 0x00; 0xB9; 0xB3; 0xBC; 0xFF;
    0xBD; 0xFF; 0xBE; 0x41; 0xBB; 0x03; 0xAE; 0x8B; 0xAF; 0x8B; 0xB0; 0xFF;
    0xB3; 0xFF; 0xB4; 0xFF; 0xB2; 0x01; 0xB5; 0x41; 0x00; 0x00 ].

Definition module_12 : list Z :=
  [ 0xF7; 0x00; 0xF8; 0x00; 0xF9; 0xB3; 0xFC; 0xFF; 0xFD; 0xFF; 0xFE; 0x41;
    0xFB; 0x03; 0xEE; 0xCD; 0xEF; 0xCD; 0xF0; 0xFF; 0xF3; 0xFF; 0xF4; 0xFF;
    0xF2; 0x01; 0xF5; 0x41; 0x00; 0x00 ].

Definition module_13 : list Z :=
  [ 0x86; 0x00; 0x87; 0x40; 0x9A; 0x4A; 0xB5; 0x02; 0xBE; 0x26; 0x00; 0x00 ].

Definition module_14 : list Z :=
  [ 0x9A; 0x02; 0x00; 0x00 ].

Definition module_15 : list Z :=
  [ 0x86; 0x10; 0x87; 0x69; 0x9A; 0x49; 0x95; 0x1F; 0x96; 0x02; 0x97; 0x10;
    0xB7; 0x46; 0xBE; 0x00; 0xA5; 0xC1; 0xA6; 0xC1; 0xA7; 0xFF; 0xA8; 0xFD;
    0xA9; 0x01; 0xAB; 0xFD; 0xAC; 0x01; 0x00; 0x00 ].

Definition module_16 : list Z :=
  [ 0xB7; 0xB4; 0x97; 0x11; 0x50; 0xA5; 0x01; 0x00 ].

Definition module_17 : list Z :=
  [ 0xB7; 0x46; 0x97; 0x10; 0x00 ].

Definition module_18 : list Z :=
  [ 0x85; 0x03; 0xB5; 0x04; 0xBE; 0x04; 0x85; 0x01; 0x86; 0x3C; 0x87; 0xF0;
    0x96; 0x41; 0x97; 0x13; 0x90; 0x07; 0xD0; 0x06; 0x85; 0x03; 0x00; 0x00 ].

Definition module_19 : list Z :=
  [ 0x85; 0x01; 0x90; 0x06; 0x97; 0x12; 0x85; 0x03; 0xD0; 0x07; 0x00; 0x00 ].

Definition module_20 : list Z :=
  [ 0xB5; 0x04; 0xB7; 0x00; 0xBB; 0x01; 0xBE; 0x01; 0x00; 0x00 ].

Definition module_21 : list Z :=
  [ 0xF7; 0xB3; 0xFB; 0x01; 0xFE; 0x01; 0x00; 0x00 ].

Definition module_22 : list Z :=
  [ 0xB5; 0x04; 0xBE; 0x04; 0xA9; 0x01; 0xA8; 0x01; 0xAC; 0x03; 0xE9; 0x01;
    0xE8; 0x01; 0xEC; 0x07; 0x00; 0x00 ].

Definition module_23 : list Z :=
  [ 0xB5; 0x04; 0xBE; 0x00; 0x00; 0x00 ].

Definition module_24 : list Z :=
  [ 0xAC; 0x00; 0xB7; 0x00; 0xBB; 0x04; 0xBA; 0x01; 0xB8; 0x00; 0x85; 0x01;
    0xBE; 0x01; 0xBD; 0x19; 0xFE; 0x00; 0x00; 0x00 ].

Definition module_25 : list Z :=
  [ 0x85; 0x01; 0xBB; 0xFF; 0xBC; 0x1A; 0xFE; 0x01; 0xFD; 0xFF; 0x85; 0x03;
    0x50; 0xB8; 0x02; 0x00 ].

Definition module_26 : list Z :=
  [ 0x85; 0x01; 0xBE; 0x00; 0xFC; 0x1B; 0x00 ].

Definition module_27 : list Z :=
  [ 0x85; 0x01; 0xBE; 0x01; 0xFE; 0x00; 0xBB; 0x01; 0xFB; 0x01; 0x00; 0x00 ].

Definition module_28 : list Z :=
  [ 0x85; 0x03; 0xAC; 0x00; 0xA5; 0xB0; 0x90; 0x06; 0x8D; 0x05; 0x8E; 0x18;
    0x4D; 0x95; 0xD6; 0x03; 0xAB; 0x1C; 0x8D; 0xE0; 0x8E; 0xFF; 0x4C; 0xA7;
    0x8D; 0x06; 0x8E; 0x3F; 0x4C; 0xA8; 0x8D; 0x1D; 0x8E; 0x1F; 0x4D; 0x97;
    0xAB; 0xFF; 0x00; 0x00 ].

Definition module_29 : list Z :=
  [ 0x85; 0x03; 0xAC; 0x01; 0x90; 0x07; 0xAB; 0x1C; 0x00; 0x00 ].

Definition module_30 : list Z :=
  [ 0x85; 0x02; 0xAC; 0x01; 0x90; 0x07; 0xAB; 0x1C; 0x00; 0x00 ].

Definition module_31 : list Z :=
  [ 0x85; 0x01; 0xAC; 0x01; 0x90; 0x07; 0xAB; 0x1C; 0x00; 0x00 ].

Definition module_32 : list Z :=
  [ 0xA6; 0xB3; 0xAF; 0x10; 0xB0; 0x69; 0xB8; 0x46; 0xE6; 0x99; 0xEF; 0x10;
    0xF0; 0x69; 0x8D; 0x01; 0x8E; 0x04; 0x4D; 0xB2; 0x4C; 0xA8; 0x4D; 0xA8;
    0x4C; 0xB1; 0x4D; 0xB1; 0x4C; 0xBA; 0x4D; 0xBA; 0xBE; 0x01; 0xB5; 0x02;
    0xAC; 0x02; 0xD6; 0x03; 0xD7; 0x20; 0x8D; 0x05; 0x8E; 0x1F; 0x4D; 0x95;
    0x00; 0x00 ].

Definition module_33 : list Z :=
  [ 0xF2; 0x02; 0xFB; 0x02; 0x00; 0x00 ].

Definition module_34 : list Z :=
  [ 0xB5; 0x00; 0xBE; 0x00; 0xAE; 0x0A; 0x00; 0x00 ].

Definition module_35 : list Z :=
  [ 0xAC; 0x25; 0x00; 0x00 ].

Definition module_table : list (list Z) :=
  [ module_00; module_01; module_02; module_03; module_04;
    module_05; module_06; module_07; module_08; module_09;
    module_10; module_11; module_12; module_13; module_14;
    module_15; module_16; module_17; module_18; module_19;
    module_20; module_21; module_22; module_23; module_24;
    module_25; module_26; module_27; module_28; module_29;
    module_30; module_31; module_32; module_33; module_34;
    module_35 ].

End ModePrograms.

(** ** User programs ([user_programs.c]) *)

Module UserPrograms.
Import ChannelMem.

(** [prog_cache]: seven slots of 32 bytes. *)
Abbreviation cache := (list (list Z)) (only parsing).

Definition user_prog_is_valid (slot : Z) (pc : cache) : bool :=
  if Eeprom.USER_PROG_SLOT_COUNT <=? slot then false
  else (pc !!! Z.to_nat slot) !!! 0%nat =? Eeprom.USER_PROG_MAGIC.

(** The loop of [user_prog_execute] over the bytes from [pc] to the end
    of the slot: only SET is interpreted, anything else stops it. *)
Fixpoint user_prog_loop (code : list Z) (r : Regs) : Regs :=
  match code with
  | [] => r
  | opcode :: rest =>
      if opcode =? 0x00 then r
      else if nonzero (Z.land opcode 0x80) then
        match rest with
        | [] => r
        | value :: rest' =>
            let offset := Z.land opcode 0x3F in
            let r :=
              if nonzero (Z.land opcode 0x40) then
                write_reg (0x180 + offset) value r
              else
                let ac := fld (channel_a r) o_apply_channel in
                let r := if nonzero (Z.land ac 0x01)
                         then write_reg (0x080 + offset) value r else r in
                if nonzero (Z.land ac 0x02)
                then write_reg (0x180 + offset) value r else r in
            user_prog_loop rest' r
        end
      else r
  end.

Definition user_prog_execute (slot : Z) (pc : cache) (r : Regs) : Regs :=
  if negb (user_prog_is_valid slot pc) then r
  else user_prog_loop (drop 1 (pc !!! Z.to_nat slot)) r.

(** [user_programs_init]: every slot of the cache is loaded from the store. *)
Definition user_programs_init (ee : Eeprom.store) (pc : cache) : cache :=
  fold_left
    (fun pc s =>
       <[Z.to_nat s := snd (Eeprom.eeprom_load_user_prog s (pc !!! Z.to_nat s) ee)]> pc)
    [0; 1; 2; 3; 4; 5; 6] pc.

(** [user_prog_write]: the cache and the store after the call. *)
Definition user_prog_write (slot : Z) (buf : list Z) (pc : cache) (ee : Eeprom.store)
  : cache * Eeprom.store :=
  if Eeprom.USER_PROG_SLOT_COUNT <=? slot then (pc, ee)
  else
    let prog := take (Z.to_nat Eeprom.USER_PROG_SLOT_SIZE) buf in
    let prog := <[Z.to_nat (Eeprom.USER_PROG_SLOT_SIZE - 1) := 0x00]> prog in
    (<[Z.to_nat slot := prog]> pc, Eeprom.eeprom_save_user_prog slot prog ee).

Definition user_prog_erase (slot : Z) (pc : cache) (ee : Eeprom.store)
  : cache * Eeprom.store :=
  if Eeprom.USER_PROG_SLOT_COUNT <=? slot then (pc, ee)
  else
    let prog := repeat 0xFF (Z.to_nat Eeprom.USER_PROG_SLOT_SIZE) in
    let prog := <[0%nat := 0xFF]> prog in
    (<[Z.to_nat slot := prog]> pc, Eeprom.eeprom_erase_user_prog slot ee).

Definition user_prog_read (slot : Z) (buf : list Z) (pc : cache) : Z * list Z :=
  if Eeprom.USER_PROG_SLOT_COUNT <=? slot then (0, buf)
  else
    let buf := pc !!! Z.to_nat slot in
    (if buf !!! 0%nat =? Eeprom.USER_PROG_MAGIC then 1 else 0, buf).

End UserPrograms.

(** ** DAC driver ([dac.c]), as the bytes it puts on the SPI bus *)

Module Dac.

Definition DAC_MAX_VALUE : Z := 1023.
Definition DAC_CMD_LOAD_A : Z := 0x10.
Definition DAC_CMD_LOAD_B : Z := 0x20.
Definition DAC_CMD_UPDATE : Z := 0x80.

(** [dac_send_word] appends the two bytes it transfers to the log. *)
Definition dac_send_word (cmd value : Z) (spi : list Z) : list Z :=
  let value := if value >? DAC_MAX_VALUE then DAC_MAX_VALUE else value in
  let hi := u8 (Z.lor cmd (Z.land (Z.shiftr value 6) 0x0F)) in
  let lo := u8 (Z.shiftl (Z.land value 0x3F) 2) in
  spi ++ [hi; lo].

Definition dac_load_a (value : Z) := dac_send_word DAC_CMD_LOAD_B value.
Definition dac_load_b (value : Z) := dac_send_word DAC_CMD_LOAD_A value.
Definition dac_update := dac_send_word DAC_CMD_UPDATE 0.

Definition dac_update_both_channels (value_a value_b : Z) (spi : list Z) : list Z :=
  dac_update (dac_load_b value_b (dac_load_a value_a spi)).

Definition DAC_CMD_LOUPA : Z := 0x90.
Definition DAC_CMD_LOUPB : Z := 0xA0.

Definition dac_write_channel_a (value : Z) := dac_send_word DAC_CMD_LOUPB value.
Definition dac_write_channel_b (value : Z) := dac_send_word DAC_CMD_LOUPA value.

(** What the LTC1661 reads out of the two bytes of a word,
    [[CMD3:CMD0][D9:D6]] and [[D5:D0][XX]]: the command nibble and the
    ten data bits. *)
Definition dac_word_cmd (hi : Z) : Z := Z.land hi 0xF0.
Definition dac_word_value (hi lo : Z) : Z :=
  Z.lor (Z.shiftl (Z.land hi 0x0F) 6) (Z.shiftr lo 2).

(** The word sent for a command nibble and a value reads back as them. *)
Definition dac_word_check (cmd_nibble value : Z) : bool :=
  match dac_send_word (cmd_nibble * 16) value [] with
  | [hi; lo] =>
      (dac_word_cmd hi =? cmd_nibble * 16) && (dac_word_value hi lo =? value)
      && (0 <=? hi) && (hi <=? 255) && (0 <=? lo) && (lo <=? 255) && (Z.land lo 3 =? 0)
  | _ => false
  end.

End Dac.

(** ** Bytecode interpreter and mode dispatcher ([mode_dispatcher.c]) *)

Module Dispatcher.
Import ChannelMem.

(** The dispatcher's copy of [map_ma]: it shifts right by 8. *)
Definition map_ma (ma_raw ma_high ma_low : Z) : Z :=
  if ma_high >=? ma_low then
    u8 (ma_low + u8 (Z.shiftr (u16 (ma_raw * (ma_high - ma_low))) 8))
  else
    u8 (ma_low - u8 (Z.shiftr (u16 (ma_raw * (ma_low - ma_high))) 8)).

(** What a module can change: the register file and the PRNG state. *)
Record Interp : Type := mkInterp {
  regs : Regs;
  prng_state : Z
}.

Definition set_regs (r : Regs) (s : Interp) : Interp := mkInterp r (prng_state s).

(** One instruction as [execute_module] classifies it, with the operand
    bytes it reads from program memory. *)
Inductive instr : Type :=
| IEnd
| ICopy (addr : Z) (data : list Z)
| IMemOp (op addr : Z)
| IMathOp (op addr value : Z)
| ILoadMA
| ISet (opcode value : Z)
| ISkip2
| ISkip1.

(** [pgm_read_byte] inside the module's array; a read past its end is
    not given a meaning ([None]). *)
Definition pgm_read_byte (prog : list Z) (pc : nat) : option Z := prog !! pc.

Definition pgm_read_bytes (prog : list Z) (pc n : nat) : option (list Z) :=
  let data := take n (drop pc prog) in
  if (length data =? n)%nat then Some data else None.

(** The tests of the [while (1)] body, in the order of the source, and
    the new value of [pc] each branch leaves. *)
Definition decode (prog : list Z) (pc : nat) : option (instr * nat) :=
  opcode ← pgm_read_byte prog pc;
  if Z.land opcode 0xE0 =? 0x00 then Some (IEnd, pc)
  else if Z.land opcode 0xE0 =? 0x20 then
    let len := Z.to_nat (u8 (1 + Z.shiftr (Z.land opcode 0x1C) 2)) in
    addr_low ← pgm_read_byte prog (pc + 1);
    let addr := Z.lor (Z.shiftl (Z.land opcode 0x03) 8) addr_low in
    data ← pgm_read_bytes prog (pc + 2) len;
    Some (ICopy addr data, (pc + 2 + len)%nat)
  else if Z.land opcode 0xF0 =? 0x40 then
    addr_low ← pgm_read_byte prog (pc + 1);
    let addr := Z.lor (Z.shiftl (Z.land opcode 0x03) 8) addr_low in
    Some (IMemOp (Z.shiftr (Z.land opcode 0x0C) 2) addr, (pc + 2)%nat)
  else if Z.land opcode 0xF0 =? 0x50 then
    addr_low ← pgm_read_byte prog (pc + 1);
    let addr := Z.lor (Z.shiftl (Z.land opcode 0x03) 8) addr_low in
    value ← pgm_read_byte prog (pc + 2);
    Some (IMathOp (Z.shiftr (Z.land opcode 0x0C) 2) addr value, (pc + 3)%nat)
  else if opcode =? 0x60 then Some (ILoadMA, (pc + 1)%nat)
  else if nonzero (Z.land opcode 0x80) then
    value ← pgm_read_byte prog (pc + 1);
    Some (ISet opcode value, (pc + 2)%nat)
  else if nonzero (Z.land opcode 0x10) then Some (ISkip2, (pc + 2)%nat)
  else Some (ISkip1, (pc + 1)%nat).

(** [for (i = 0; i < len; i++) *channel_get_reg_ptr(addr + i) = data[i];] *)
Fixpoint copy_loop (addr i : Z) (data : list Z) (r : Regs) : Regs :=
  match data with
  | [] => r
  | b :: data' => copy_loop addr (i + 1) data' (write_reg (u16 (addr + i)) b r)
  end.

(** [apply_a] and [apply_b] of the MEMOP and MATHOP branches. *)
Definition apply_flags (addr : Z) (r : Regs) : bool * bool :=
  if (0x80 <=? addr) && (addr <? 0xC0) then
    let ac := fld (channel_a r) o_apply_channel in
    (nonzero (Z.land ac 0x01), nonzero (Z.land ac 0x02))
  else if (0x180 <=? addr) && (addr <? 0x1C0) then (false, true)
  else (true, false).

(** [*channel_get_reg_ptr(dst) = *channel_get_reg_ptr(src)] *)
Definition copy_reg (dst src : Z) (r : Regs) : Regs :=
  let '(v, r) := read_reg src r in write_reg dst v r.

(** [*channel_get_reg_ptr(addr) = f( *channel_get_reg_ptr(addr))] through
    one pointer. *)
Definition update_reg (addr : Z) (f : Z -> Z) (r : Regs) : Regs :=
  let '(p, r) := channel_get_reg_ptr addr r in store p (f (load p r)) r.

Definition exec_memop (op addr : Z) (s : Interp) : Interp :=
  let r := regs s in
  let '(apply_a, apply_b) := apply_flags addr r in
  if op =? 0 then
    let r := if apply_a then copy_reg addr 0x08C r else r in
    let r := if apply_b then copy_reg (u16 (addr + 0x100)) 0x18C r else r in
    set_regs r s
  else if op =? 1 then
    let r := if apply_a then copy_reg 0x08C addr r else r in
    let r := if apply_b then copy_reg 0x18C (u16 (addr + 0x100)) r else r in
    set_regs r s
  else if op =? 2 then
    let r := if apply_a then update_reg addr (fun v => Z.shiftr v 1) r else r in
    let r := if apply_b
             then update_reg (u16 (addr + 0x100)) (fun v => Z.shiftr v 1) r else r in
    set_regs r s
  else if op =? 3 then
    let src_ch := if nonzero (Z.land addr 0x100) then channel_b r else channel_a r in
    let min_val := fld src_ch o_random_min in
    let max_val := fld src_ch o_random_max in
    let '(rand_val, prng) :=
      if max_val >? min_val then
        let range := u16 (max_val - min_val + 1) in
        let '(x, prng) := Prng.prng_next (prng_state s) in
        (u8 (min_val + u8 (x mod range)), prng)
      else (min_val, prng_state s) in
    let r := if apply_a then write_reg addr rand_val r else r in
    let r := if apply_b then write_reg (u16 (addr + 0x100)) rand_val r else r in
    mkInterp r prng
  else s.

Definition mathop (op old value : Z) : Z :=
  if op =? 0 then u8 (old + value)
  else if op =? 1 then Z.land old value
  else if op =? 2 then Z.lor old value
  else if op =? 3 then Z.lxor old value
  else old.

Definition exec_mathop (op addr value : Z) (s : Interp) : Interp :=
  let r := regs s in
  let '(apply_a, apply_b) := apply_flags addr r in
  let r := if apply_a then update_reg addr (fun old => mathop op old value) r else r in
  let r := if apply_b && (0x80 <=? addr) && (addr <? 0xC0)
           then update_reg (u16 (addr + 0x100)) (fun old => mathop op old value) r
           else r in
  set_regs r s.

Definition exec_load_ma (knob : Z) (s : Interp) : Interp :=
  let r := regs s in
  let ma_raw := knob in
  let ac := fld (channel_a r) o_apply_channel in
  let r :=
    if nonzero (Z.land ac 0x01) then
      write_reg 0x08C
        (map_ma ma_raw (fld (channel_a r) o_ma_range_high)
           (fld (channel_a r) o_ma_range_low)) r
    else r in
  let r :=
    if nonzero (Z.land ac 0x02) then
      write_reg 0x18C
        (map_ma ma_raw (fld (channel_b r) o_ma_range_high)
           (fld (channel_b r) o_ma_range_low)) r
    else r in
  set_regs r s.

Definition exec_set (opcode value : Z) (s : Interp) : Interp :=
  let r := regs s in
  let offset := Z.land opcode 0x3F in
  let r :=
    if nonzero (Z.land opcode 0x40) then write_reg (0x180 + offset) value r
    else
      let ac := fld (channel_a r) o_apply_channel in
      let r := if nonzero (Z.land ac 0x01)
               then write_reg (0x80 + offset) value r else r in
      if nonzero (Z.land ac 0x02)
      then write_reg (0x180 + offset) value r else r in
  set_regs r s.

(** The effect of one instruction; [knob] is [config_get()->multi_adjust]. *)
Definition exec_instr (knob : Z) (i : instr) (s : Interp) : Interp :=
  match i with
  | IEnd => s
  | ICopy addr data => set_regs (copy_loop addr 0 data (regs s)) s
  | IMemOp op addr => exec_memop op addr s
  | IMathOp op addr value => exec_mathop op addr value s
  | ILoadMA => exec_load_ma knob s
  | ISet opcode value => exec_set opcode value s
  | ISkip2 => s
  | ISkip1 => s
  end.

(** The [while (1)] loop, bounded by [fuel] iterations. *)
Fixpoint run (fuel : nat) (knob : Z) (prog : list Z) (pc : nat) (s : Interp)
  : option Interp :=
  match fuel with
  | O => None
  | S fuel' =>
      match decode prog pc with
      | None => None
      | Some (IEnd, _) => Some s
      | Some (i, pc') => run fuel' knob prog pc' (exec_instr knob i s)
      end
  end.

(** Every iteration that does not stop moves [pc] forward, so a module
    of [n] bytes makes at most [n] iterations inside its array. *)
Definition execute_module (module_index : Z) (knob : Z) (s : Interp)
  : option Interp :=
  if ModePrograms.MODULE_COUNT <=? module_index then Some s
  else
    let prog := ModePrograms.module_table !!! Z.to_nat module_index in
    run (S (length prog)) knob prog 0 s.

(** Whether the loop reaches END within [fuel] iterations: this depends
    on the program bytes only. *)
Fixpoint halts (fuel : nat) (prog : list Z) (pc : nat) : bool :=
  match fuel with
  | O => false
  | S fuel' =>
      match decode prog pc with
      | None => false
      | Some (IEnd, _) => true
      | Some (_, pc') => halts fuel' prog pc'
      end
  end.

Definition mode_modules : list (Z * Z) :=
  [ (11, 12); (3, 4); (5, 8); (13, 33); (14, 2); (15, 0xFF);
    (23, 0xFF); (23, 0xFF); (34, 0xFF); (0xFF, 0xFF); (32, 0xFF);
    (18, 0xFF); (24, 0xFF); (28, 0xFF); (20, 21); (20, 21); (22, 0xFF) ].

Definition on_channel_a (f : ChannelBlock -> ChannelBlock) (s : Interp) : Interp :=
  set_regs (set_channel_a (f (channel_a (regs s))) (regs s)) s.
Definition on_channel_b (f : ChannelBlock -> ChannelBlock) (s : Interp) : Interp :=
  set_regs (set_channel_b (f (channel_b (regs s))) (regs s)) s.

Definition setup_mode_modules (mode knob : Z) (cache : UserPrograms.cache)
    (s : Interp) : option Interp :=
  if (Modes.MODE_USER1 <=? mode) && (mode <? Modes.MODE_SPLIT) then
    Some (set_regs
            (UserPrograms.user_prog_execute (u8 (mode - Modes.MODE_USER1)) cache (regs s)) s)
  else if Modes.MODE_SPLIT <=? mode then
    Some (on_channel_b (set_fld o_gate_value 0x07)
            (on_channel_a (set_fld o_gate_value 0x07) s))
  else
    let '(m0, m1) := mode_modules !!! Z.to_nat mode in
    s ← (if negb (m0 =? 0xFF) then execute_module m0 knob s else Some s);
    s ← (if negb (m1 =? 0xFF) then execute_module m1 knob s else Some s);
    s ← (if mode =? Modes.MODE_PHASE2 then execute_module 35 knob s else Some s);
    if mode =? Modes.MODE_AUDIO1 then
      Some (on_channel_a (set_fld o_output_control_flags 0x40)
              (on_channel_b (set_fld o_gate_value 0x47)
                 (on_channel_a (set_fld o_gate_value 0x47) s)))
    else if mode =? Modes.MODE_AUDIO2 then
      Some (on_channel_b (set_fld o_gate_value 0x47)
              (on_channel_a (set_fld o_gate_value 0x47) s))
    else if mode =? Modes.MODE_AUDIO3 then
      Some (on_channel_a (set_fld o_output_control_flags 0x04)
              (on_channel_b (set_fld o_gate_value 0x67)
                 (on_channel_a (set_fld o_gate_value 0x67) s)))
    else if (mode =? Modes.MODE_PHASE1) || (mode =? Modes.MODE_PHASE2) then
      Some (on_channel_a (set_fld o_output_control_flags 0x05) s)
    else Some s.

Definition apply_mode_init (ch : ChannelBlock) : ChannelBlock :=
  let ch := set_fld o_ramp_min 0x9C ch in
  let ch := set_fld o_ramp_max 0xFF ch in
  let ch := set_fld o_ramp_rate 0x07 ch in
  let ch := set_fld o_ramp_step 0x01 ch in
  let ch := set_fld o_ramp_action_min 0xFC ch in
  let ch := set_fld o_ramp_action_max 0xFC ch in
  let ch := set_fld o_ramp_select 0x01 ch in
  let ch := set_fld o_ramp_timer 0 ch in
  let ch := set_fld o_intensity_value 0xFF ch in
  let ch := set_fld o_intensity_select 0x00 ch in
  let ch := set_fld o_freq_select 0x08 ch in
  set_fld o_width_select 0x00 ch.

(** The common head of [init_mode_modules] and of both halves of
    [init_split_mode]: defaults, mode-init values, the apply mask. *)
Definition reload_blocks (apply : Z) (s : Interp) : Interp :=
  let a := apply_mode_init channel_load_defaults in
  let b := apply_mode_init channel_load_defaults in
  set_regs (mkRegs (set_fld o_apply_channel apply a) b (scratch_byte (regs s))) s.

Definition init_mode_modules (mode knob : Z) (cache : UserPrograms.cache)
    (s : Interp) : option Interp :=
  let s := reload_blocks 0x03 s in
  s ← execute_module 1 knob s;
  s ← setup_mode_modules mode knob cache s;
  Some (on_channel_a (set_fld o_apply_channel 0x03) s).

Definition init_split_mode (split_mode_a split_mode_b knob : Z)
    (cache : UserPrograms.cache) (s : Interp) : option Interp :=
  let s := reload_blocks 0x01 s in
  s ← execute_module 1 knob s;
  s ← setup_mode_modules split_mode_a knob cache s;
  let saved_a := channel_a (regs s) in
  let s := reload_blocks 0x02 s in
  s ← execute_module 1 knob s;
  s ← setup_mode_modules split_mode_b knob cache s;
  let saved_b := channel_b (regs s) in
  let s := set_regs (mkRegs saved_a saved_b (scratch_byte (regs s))) s in
  Some (on_channel_a (set_fld o_apply_channel 0x03) s).

(** Everything [mode_dispatcher_select_mode] reads or writes. *)
Record Machine : Type := mkMachine {
  interp : Interp;
  config : Config.system_config_t;
  prog_cache : UserPrograms.cache;
  engine : ParamEngine.Engine;
  current_mode : Z;
  split_mode_a : Z;
  split_mode_b : Z;
  dispatcher_paused : Z;
  r1_target : Z;
  pulse : Pulse.PulseGen;
  spi : list Z;
  output_control_flags : Z
}.

Definition mode_dispatcher_select_mode (mode_number : Z) (m : Machine)
  : option Machine :=
  let mode_number := if Modes.MODE_COUNT <=? mode_number then 0 else mode_number in
  let spi := Dac.dac_update_both_channels Dac.DAC_MAX_VALUE Dac.DAC_MAX_VALUE (spi m) in
  let pulse :=
    Pulse.pulse_set_gate_b Pulse.PULSE_OFF
      (Pulse.pulse_set_gate_a Pulse.PULSE_OFF (pulse m)) in
  let current_mode := mode_number in
  let engine := ParamEngine.param_engine_init (engine m) in
  let knob := Config.multi_adjust (config m) in
  '(s, r1) ←
    (if mode_number =? Modes.MODE_RANDOM1 then
       Some (set_regs (channel_mem_init (regs (interp m))) (interp m), 0)
     else if mode_number =? Modes.MODE_SPLIT then
       s ← init_split_mode (split_mode_a m) (split_mode_b m) knob (prog_cache m) (interp m);
       Some (s, r1_target m)
     else
       s ← init_mode_modules mode_number knob (prog_cache m) (interp m);
       Some (s, r1_target m));
  let engine := ParamEngine.param_engine_init_directions (regs s) engine in
  Some (mkMachine s (config m) (prog_cache m) engine current_mode
          (split_mode_a m) (split_mode_b m) (dispatcher_paused m) r1
          pulse spi (fld (channel_a (regs s)) o_output_control_flags)).

(** The COPY fields as the specification's table words them,
    [001llaaa]: a two-bit length and a three-bit address-high field. *)
Definition spec_copy_length (opcode : Z) : Z := Z.land (Z.shiftr opcode 3) 0x03.
Definition spec_copy_addr_high (opcode : Z) : Z := Z.land opcode 0x07.

(** The COPY fields as [execute_module] extracts them, [001lllaa]. *)
Definition copy_length (opcode : Z) : Z := Z.shiftr (Z.land opcode 0x1C) 2.
Definition copy_addr_high (opcode : Z) : Z := Z.land opcode 0x03.

(** Reading a mapped register address without touching the scratch byte. *)
Definition peek (addr : Z) (r : Regs) : Z := fst (read_reg addr r).

Definition mapped (addr : Z) : Prop :=
  0x80 <= addr < 0xC0 \/ 0x180 <= addr < 0x1C0.

Definition regs_ok (r : Regs) : Prop :=
  block_ok (channel_a r) /\ block_ok (channel_b r).

(** Two register files that agree on both blocks (the scratch byte apart). *)
Definition same_blocks (r1 r2 : Regs) : Prop :=
  channel_a r1 = channel_a r2 /\ channel_b r1 = channel_b r2.

(** Two interpreter states that agree on both blocks and on the PRNG. *)
Definition same_state (s1 s2 : Interp) : Prop :=
  same_blocks (regs s1) (regs s2) /\ prng_state s1 = prng_state s2.

(** A program [user_prog_execute] runs to its end: SET pairs up to an
    opcode that both interpreters take for END. *)
Fixpoint set_terminated (code : list Z) : bool :=
  match code with
  | [] => false
  | opcode :: rest =>
      if Z.land opcode 0xE0 =? 0x00 then true
      else if nonzero (Z.land opcode 0x80) then
        match rest with
        | [] => false
        | _ :: rest' => set_terminated rest'
        end
      else false
  end.

(** The instructions the loop of [execute_module] meets, in order. The
    loop has no jumps, so they depend on the program bytes only. *)
Fixpoint instructions (fuel : nat) (prog : list Z) (pc : nat) : list instr :=
  match fuel with
  | O => []
  | S fuel' =>
      match decode prog pc with
      | None => []
      | Some (IEnd, _) => [IEnd]
      | Some (i, pc') => i :: instructions fuel' prog pc'
      end
  end.

(** MEMOP or MATHOP with an address outside the block of channel A. *)
Definition outside_channel_a (i : instr) : bool :=
  match i with
  | IMemOp _ addr => negb ((0x80 <=? addr) && (addr <? 0xC0))
  | IMathOp _ addr _ => negb ((0x80 <=? addr) && (addr <? 0xC0))
  | _ => false
  end.

(** Two runs that both fail or both end in states that agree. *)
Definition same_result (o1 o2 : option Interp) : Prop :=
  match o1, o2 with
  | Some s1, Some s2 => same_state s1 s2
  | None, None => True
  | _, _ => False
  end.



Definition with_paused (p : Z) (m : Machine) : Machine :=
  mkMachine (interp m) (config m) (prog_cache m) (engine m) (current_mode m)
    (split_mode_a m) (split_mode_b m) p (r1_target m) (pulse m) (spi m)
    (output_control_flags m).

Definition mode_dispatcher_pause (m : Machine) : Machine := with_paused 1 m.
Definition mode_dispatcher_resume (m : Machine) : Machine := with_paused 0 m.

Definition update_output_flags (m : Machine) : Machine :=
  mkMachine (interp m) (config m) (prog_cache m) (engine m) (current_mode m)
    (split_mode_a m) (split_mode_b m) (dispatcher_paused m) (r1_target m) (pulse m) (spi m)
    (fld (channel_a (regs (interp m))) o_output_control_flags).

(** [mode_dispatcher_init]: [ee] is the EEPROM the split modes and the
    user programs are loaded from. *)
Definition mode_dispatcher_init (ee : Eeprom.store) (m : Machine) : Machine :=
  let '(sa, sb) := Eeprom.eeprom_load_split_modes ee in
  mkMachine (set_regs (channel_mem_init (regs (interp m))) (interp m)) (config m)
    (UserPrograms.user_programs_init ee (prog_cache m))
    (ParamEngine.param_engine_init (engine m))
    Modes.MODE_WAVES sa sb 0 0 (pulse m) (spi m) (output_control_flags m).

Definition mode_dispatcher_set_split_modes (mode_a mode_b : Z) (m : Machine)
    (ee : Eeprom.store) : Machine * Eeprom.store :=
  let mode_a := if Modes.MODE_SPLIT <=? mode_a then Modes.MODE_WAVES else mode_a in
  let mode_b := if Modes.MODE_SPLIT <=? mode_b then Modes.MODE_WAVES else mode_b in
  (mkMachine (interp m) (config m) (prog_cache m) (engine m) (current_mode m)
     mode_a mode_b (dispatcher_paused m) (r1_target m) (pulse m) (spi m)
     (output_control_flags m),
   Eeprom.eeprom_save_split_modes mode_a mode_b ee).

Definition random1_modes : list Z :=
  [ Modes.MODE_WAVES; Modes.MODE_STROKE; Modes.MODE_CLIMB;
    Modes.MODE_COMBO; Modes.MODE_INTENSE; Modes.MODE_RHYTHM ].

Definition with_r1 (target prng : Z) (r : Regs) (m : Machine) : Machine :=
  mkMachine (mkInterp r prng) (config m) (prog_cache m) (engine m) (current_mode m)
    (split_mode_a m) (split_mode_b m) (dispatcher_paused m) target (pulse m) (spi m)
    (output_control_flags m).

Definition random1_tick (m : Machine) : option Machine :=
  let master := ParamEngine.param_engine_get_master_timer (engine m) in
  if r1_target m =? 0 then
    let '(x, prng) := Prng.prng_next (prng_state (interp m)) in
    let offset := u8 (0x14 + x mod (0x78 - 0x14 + 1)) in
    Some (with_r1 (u16 (master + offset)) prng (regs (interp m)) m)
  else if master >=? r1_target m then
    let '(x, prng) := Prng.prng_next (prng_state (interp m)) in
    let new_mode := random1_modes !!! Z.to_nat (x mod 6) in
    let '(x, prng) := Prng.prng_next prng in
    let rand184 := u8 (0x8C + x mod (0xB8 - 0x8C + 1)) in
    let r := set_channel_b (set_fld o_cond_module rand184 (channel_b (regs (interp m))))
               (regs (interp m)) in
    mode_dispatcher_select_mode new_mode (with_r1 0 prng r m)
  else Some m.

Definition with_engine (s : Interp) (e : ParamEngine.Engine) (m : Machine) : Machine :=
  mkMachine s (config m) (prog_cache m) e (current_mode m)
    (split_mode_a m) (split_mode_b m) (dispatcher_paused m) (r1_target m) (pulse m) (spi m)
    (output_control_flags m).

(** [if (mod != 0xFF && mod < MODULE_COUNT) { execute_module(mod);
     param_engine_init_directions(); }] *)
Definition run_triggered (module knob : Z) (s : Interp) (e : ParamEngine.Engine)
  : option (Interp * ParamEngine.Engine) :=
  if negb (module =? 0xFF) && (module <? ModePrograms.MODULE_COUNT) then
    s ← execute_module module knob s;
    Some (s, ParamEngine.param_engine_init_directions (regs s) e)
  else Some (s, e).

Definition mode_dispatcher_update (m : Machine) : option Machine :=
  if nonzero (dispatcher_paused m) then Some m
  else
    m ← (if current_mode m =? Modes.MODE_RANDOM1 then random1_tick m else Some m);
    let '(r, e) := ParamEngine.param_engine_tick (config m) (regs (interp m)) (engine m) in
    let s := set_regs r (interp m) in
    let '(mod_a, e) := ParamEngine.param_engine_check_module_trigger_a e in
    let '(mod_b, e) := ParamEngine.param_engine_check_module_trigger_b e in
    let knob := Config.multi_adjust (config m) in
    '(s, e) ← run_triggered mod_a knob s e;
    '(s, e) ← run_triggered mod_b knob s e;
    Some (update_output_flags (with_engine s e m)).

Definition mode_dispatcher_get_mode (m : Machine) : Z := current_mode m.

Definition DEFERRED_NONE : Z := 0.
Definition DEFERRED_SET_MODE : Z := 1.
Definition DEFERRED_PAUSE : Z := 2.
Definition DEFERRED_NEXT : Z := 3.
Definition DEFERRED_PREV : Z := 4.
Definition DEFERRED_RELOAD : Z := 5.
Definition DEFERRED_START_RAMP : Z := 6.

(** The one-slot mailbox the serial handlers write and the main loop polls. *)
Record Deferred : Set := mkDeferred {
  deferred_cmd : Z;
  deferred_mode : Z
}.

Definition mode_dispatcher_request_mode (mode_number : Z) (d : Deferred) : Deferred :=
  mkDeferred DEFERRED_SET_MODE mode_number.
Definition mode_dispatcher_request_pause (d : Deferred) : Deferred :=
  mkDeferred DEFERRED_PAUSE (deferred_mode d).
Definition mode_dispatcher_request_next_mode (d : Deferred) : Deferred :=
  mkDeferred DEFERRED_NEXT (deferred_mode d).
Definition mode_dispatcher_request_prev_mode (d : Deferred) : Deferred :=
  mkDeferred DEFERRED_PREV (deferred_mode d).
Definition mode_dispatcher_request_reload (d : Deferred) : Deferred :=
  mkDeferred DEFERRED_RELOAD (deferred_mode d).
Definition mode_dispatcher_request_start_ramp (d : Deferred) : Deferred :=
  mkDeferred DEFERRED_START_RAMP (deferred_mode d).

(** [mode_dispatcher_poll_deferred]: the returned byte, the mailbox and
    the machine after the call. *)
Definition mode_dispatcher_poll_deferred (d : Deferred) (m : Machine)
  : option (Z * Deferred * Machine) :=
  let cmd := deferred_cmd d in
  if cmd =? DEFERRED_NONE then Some (0, d, m)
  else
    let d := mkDeferred DEFERRED_NONE (deferred_mode d) in
    if cmd =? DEFERRED_SET_MODE then
      m ← mode_dispatcher_select_mode (deferred_mode d) m; Some (1, d, m)
    else if cmd =? DEFERRED_PAUSE then Some (2, d, mode_dispatcher_pause m)
    else if cmd =? DEFERRED_NEXT then
      m ← (if current_mode m <? Modes.MODE_COUNT - 1
           then mode_dispatcher_select_mode (u8 (current_mode m + 1)) m else Some m);
      Some (1, d, m)
    else if cmd =? DEFERRED_PREV then
      m ← (if current_mode m >? 0
           then mode_dispatcher_select_mode (u8 (current_mode m - 1)) m else Some m);
      Some (1, d, m)
    else if cmd =? DEFERRED_RELOAD then
      m ← mode_dispatcher_select_mode (current_mode m) m; Some (1, d, m)
    else if cmd =? DEFERRED_START_RAMP then Some (3, d, m)
    else Some (1, d, m).

End Dispatcher.

(** ** Output copy of the foreground loop ([loop()] of the main sketch) *)

Module MainLoop.
Import ChannelMem.

(** [(uint8_t)(70 + ((uint16_t)width * 180) >> 8)]: in C the addition
    binds tighter than the shift. *)
Definition width_us (width : Z) : Z :=
  u8 (Z.shiftr (u16 (70 + u16 (width * 180))) 8).

Definition period_us (freq : Z) : Z :=
  if freq <? 2 then 65000 else u16 ((freq * 256) mod 2 ^ 32).

(** From reading the blocks to the calls of [pulse_set_gate_b];
    [output_on] is the result of [menuIsOutputEnabled()]. *)
Definition output_copy (output_on : bool) (r : Regs) (g : Pulse.PulseGen)
  : Pulse.PulseGen :=
  let gate_a := Z.land (fld (channel_a r) o_gate_value) GATE_ON_BIT in
  let freq_a := fld (channel_a r) o_freq_value in
  let width_a := fld (channel_a r) o_width_value in
  let gate_b := Z.land (fld (channel_b r) o_gate_value) GATE_ON_BIT in
  let freq_b := fld (channel_b r) o_freq_value in
  let width_b := fld (channel_b r) o_width_value in
  let period_a_us := period_us freq_a in
  let period_b_us := period_us freq_b in
  let width_a_us := width_us width_a in
  let width_b_us := width_us width_b in
  let g := Pulse.pulse_set_width_a width_a_us g in
  let g := Pulse.pulse_set_width_b width_b_us g in
  let g := Pulse.pulse_set_frequency_a period_a_us g in
  let g := Pulse.pulse_set_frequency_b period_b_us g in
  let pulse_a_on := if output_on && nonzero gate_a && (freq_a >=? 2)
                    then Pulse.PULSE_ON else Pulse.PULSE_OFF in
  let pulse_b_on := if output_on && nonzero gate_b && (freq_b >=? 2)
                    then Pulse.PULSE_ON else Pulse.PULSE_OFF in
  let g := Pulse.pulse_set_gate_a pulse_a_on g in
  Pulse.pulse_set_gate_b pulse_b_on g.

(** The width formula as the specification states it. *)
Definition spec_width_us (width_value : Z) : Z := 70 + width_value * 180 / 256.

Definition PWR_LEVEL_LOW_BASE : Z := 650.
Definition PWR_LEVEL_NORMAL_BASE : Z := 590.
Definition PWR_LEVEL_HIGH_BASE : Z := 500.
Definition PWR_LEVEL_LOW_MOD : Z := 220.
Definition PWR_LEVEL_NORMAL_MOD : Z := 330.
Definition PWR_LEVEL_HIGH_MOD : Z := 440.

(** The power-level globals of the sketch and [last_power_level]. *)
Record PowerState : Set := mkPowerState {
  last_power_level : Z;
  ChannelAPwrBase : Z;
  ChannelBPwrBase : Z;
  ChannelAModulationBase : Z;
  ChannelBModulationBase : Z
}.

Definition applyPowerLevel (pl : Z) (s : PowerState) : PowerState :=
  if pl =? last_power_level s then s
  else if pl =? 0 then
    mkPowerState pl PWR_LEVEL_LOW_BASE PWR_LEVEL_LOW_BASE PWR_LEVEL_LOW_MOD PWR_LEVEL_LOW_MOD
  else if pl =? 2 then
    mkPowerState pl PWR_LEVEL_HIGH_BASE PWR_LEVEL_HIGH_BASE
      PWR_LEVEL_HIGH_MOD PWR_LEVEL_HIGH_MOD
  else
    mkPowerState pl PWR_LEVEL_NORMAL_BASE PWR_LEVEL_NORMAL_BASE
      PWR_LEVEL_NORMAL_MOD PWR_LEVEL_NORMAL_MOD.

Definition ramp_scale_intensity (intensity ramp_val : Z) : Z :=
  u8 (Z.shiftr (u16 (intensity * ramp_val)) 8).

(** The DAC value [readAndUpdateChannel] computes for one channel from
    the level pot reading [v], the power-level pair, the channel's
    intensity and ramp registers and the menu ramp percentage. *)
Definition channel_dac_value (pwr_base modulation_base v intensity_value ramp_value
    menu_ramp : Z) : Z :=
  let dac_val :=
    u16 (pwr_base + (modulation_base * u16 (Dac.DAC_MAX_VALUE - v)) mod 2 ^ 32 / 1024) in
  let dac_val := if dac_val >? Dac.DAC_MAX_VALUE then Dac.DAC_MAX_VALUE else dac_val in
  let intensity := ramp_scale_intensity intensity_value ramp_value in
  let intensity := u8 (u16 (intensity * menu_ramp) / 100) in
  u16 (Dac.DAC_MAX_VALUE
       - u16 (Z.shiftr ((u16 (Dac.DAC_MAX_VALUE - dac_val) * intensity) mod 2 ^ 32) 8)).

(** [readAndUpdateChannel(c)]: [lockout] is [*POT_LOCKOUT_FLAGS], [v] the
    result of [analogRead] on the channel's level pot. The result is the
    returned byte and the SPI log. *)
Definition readAndUpdateChannel (c lockout menu_ramp v : Z) (ps : PowerState)
    (r : Regs) (spi : list Z) : Z * list Z :=
  if nonzero (Z.land lockout 0x01) then (0, spi)
  else if c =? 0 then
    let bv := Z.min 99 (Z.max 0 (u8 (Z.shiftr v 3))) in
    let dac_val :=
      channel_dac_value (ChannelAPwrBase ps) (ChannelAModulationBase ps) v
        (fld (channel_a r) o_intensity_value) (fld (channel_a r) o_ramp_value) menu_ramp in
    (bv, Dac.dac_write_channel_a dac_val spi)
  else
    let bv := Z.min 99 (Z.max 0 (u8 (v / 8))) in
    let dac_val :=
      channel_dac_value (ChannelBPwrBase ps) (ChannelBModulationBase ps) v
        (fld (channel_b r) o_intensity_value) (fld (channel_b r) o_ramp_value) menu_ramp in
    (bv, Dac.dac_write_channel_b dac_val spi).

(** The power-level globals hold one of the three pairs of the table. *)
Definition power_applied (ps : PowerState) : Prop :=
  (ChannelAPwrBase ps = ChannelBPwrBase ps /\
   ChannelAModulationBase ps = ChannelBModulationBase ps) /\
  ((ChannelAPwrBase ps = PWR_LEVEL_LOW_BASE /\ ChannelAModulationBase ps = PWR_LEVEL_LOW_MOD) \/
   (ChannelAPwrBase ps = PWR_LEVEL_NORMAL_BASE /\
    ChannelAModulationBase ps = PWR_LEVEL_NORMAL_MOD) \/
   (ChannelAPwrBase ps = PWR_LEVEL_HIGH_BASE /\ ChannelAModulationBase ps = PWR_LEVEL_HIGH_MOD)).

End MainLoop.

(** ** Concrete states and programs used in the examples below *)

Module Scenarios.
Import ChannelMem.

(** A foreground/ISR interleaving on channel A: new parameters are
    submitted in the middle of a pulse. *)
Definition demo_events : list Pulse.event :=
  [ Pulse.SetWidthA 200; Pulse.SetFrequencyA 1000; Pulse.SetGateA 1;
    Pulse.IsrA; Pulse.IsrA;
    Pulse.SetWidthA 90; Pulse.SetFrequencyA 700;
    Pulse.IsrA; Pulse.IsrA; Pulse.IsrA; Pulse.IsrA; Pulse.IsrA ].

(** Both channels at the end of DEADTIME2 with active pair [(w, p)]. *)
Definition at_deadtime2 (w p : Z) : Pulse.PulseGen :=
  Pulse.mkPulseGen
    (Pulse.mkChannelPulseState Pulse.PULSE_ON w p Pulse.PH_DEADTIME2 0 w p 0)
    (Pulse.mkChannelPulseState Pulse.PULSE_ON w p Pulse.PH_DEADTIME2 0 w p 0)
    0 4 4.

(** Submissions that the clamps accept and that leave a gap of 1 us. *)
Definition narrow_gap_events : list Pulse.event :=
  [ Pulse.SetWidthA 250; Pulse.SetFrequencyA 509; Pulse.SetGateA 1;
    Pulse.IsrA; Pulse.IsrA; Pulse.IsrA; Pulse.IsrA ].

(** An erased EEPROM. *)
Definition blank_store : list Z := repeat 0xFF 512%nat.

(** The group of the LOOP scenario with its value at [v]:
    min 10, max 20, rate 1, step 1, both actions LOOP, select 0x01
    (244 Hz timer, own sources), timer 0. *)
Definition loop_group (v : Z) : list Z := [v; 10; 20; 1; 1; 0xFD; 0xFD; 0x01; 0].

(** The default block with that group in the place of the intensity group. *)
Definition loop_block : list Z :=
  take ParamEngine.OFF_INTENSITY channel_defaults ++ loop_group 10
    ++ drop (ParamEngine.OFF_INTENSITY + 9) channel_defaults.

Definition boot_interp : Dispatcher.Interp :=
  Dispatcher.mkInterp (mkRegs channel_defaults channel_defaults 0) 0xACE1.

Definition boot_machine : Dispatcher.Machine :=
  Dispatcher.mkMachine boot_interp Config.config_set_defaults
    (repeat (repeat 0xFF 32%nat) 7%nat)
    (ParamEngine.mkEngine 0 0xFF 0xFF 0 0 0 0 0 0 0 0)
    0 0 0 0 0 (Pulse.pulse_gen_init 0) [] 0.

(** Both width values at 255. *)
Definition full_width_regs : Regs :=
  mkRegs (set_fld o_width_value 255 channel_defaults)
         (set_fld o_width_value 255 channel_defaults) 0.

(** COPY with opcode 0x24 and a SET behind a reserved opcode. *)
Definition copy_demo : list Z := [0x24; 0x86; 0x11; 0x22; 0x00].
Definition reserved_demo : list Z := [0x10; 0x00; 0x90; 0x06; 0x00].
Definition skip_demo : list Z := [0x70; 0x00; 0x90; 0x06; 0x00].

(** An interleaving that leaves channel A idle with its gate off. *)
Definition idle_events : list Pulse.event :=
  [ Pulse.SetWidthA 200; Pulse.IsrA; Pulse.SetGateB 1; Pulse.IsrB;
    Pulse.SetFrequencyA 700; Pulse.IsrA; Pulse.SetGateA 0; Pulse.IsrA; Pulse.IsrB ].

(** Channel B just after DEADTIME2 of a cycle with width 100 and period
    5000: a gap of 4792 us, of which 4542 are still to be counted down. *)
Definition in_long_gap : Pulse.PulseGen :=
  Pulse.isr_timer2_comp
    (Pulse.mkPulseGen Pulse.init_channel
       (Pulse.mkChannelPulseState Pulse.PULSE_ON 100 5000 Pulse.PH_DEADTIME2 0 100 5000 0)
       0 250 4).

(** The power-level globals before the first [applyPowerLevel]. *)
Definition boot_power : MainLoop.PowerState := MainLoop.mkPowerState 0xFF 0 0 0 0.

(** The default block with its ramp group one step before its maximum,
    and the same with a module number as the action at the maximum. *)
Definition ramp_end_block : list Z :=
  set_fld o_ramp_timer 6 (set_fld o_ramp_value 0xFE channel_defaults).
Definition ramp_module_block : list Z := set_fld o_ramp_action_max 5 ramp_end_block.

(** A machine whose blocks, scratch byte and engine hold arbitrary values. *)
Definition scrambled_machine : Dispatcher.Machine :=
  Dispatcher.mkMachine
    (Dispatcher.mkInterp (mkRegs (repeat 0 64) (repeat 0xFF 64) 77) 0xACE1)
    Config.config_set_defaults (repeat (repeat 0xFF 32%nat) 7%nat)
    (ParamEngine.mkEngine 9 1 2 3 4 5 6 1 7 1 8)
    5 0 0 0 0 (Pulse.pulse_gen_init 0) [] 0.

(** Random 1 with its target reached: target 5, master timer at 10. *)
Definition random1_machine : Dispatcher.Machine :=
  Dispatcher.mkMachine boot_interp Config.config_set_defaults
    (repeat (repeat 0xFF 32%nat) 7%nat)
    (ParamEngine.mkEngine 0 0xFF 0xFF 10 0 0 0 0 0 0 0)
    Modes.MODE_RANDOM1 0 0 0 5 (Pulse.pulse_gen_init 0) [] 0.

(** A user program: the marker, two SET pairs, END, and padding. *)
Definition user_demo_prog : list Z :=
  [0xE3; 0x90; 0x06; 0xD0; 0x05; 0x00] ++ repeat 0xFF 26%nat.

(** The user-program cache with no valid slot. *)
Definition empty_cache : list (list Z) := repeat (repeat 0xFF 32%nat) 7%nat.

End Scenarios.


(** * Statements *)

(** ** Bytes and bit fields *)

Module BitFacts.

Lemma all_bytes_spec P : all_bytes P = true -> forall x, 0 <= x <= 255 -> P x = true.
Proof.
  unfold all_bytes. intros H x Hx. rewrite forallb_forall in H. apply H.
  apply in_map_iff. exists (Z.to_nat x). split; [lia|]. apply in_seq. lia.
Qed.

(** A byte placed under a value shifted left by eight bits. *)
Lemma lor_shiftl8 h low :
  0 <= h -> 0 <= low <= 255 -> Z.lor (Z.shiftl h 8) low = h * 256 + low.
Proof.
  intros Hh Hl. rewrite Z.shiftl_mul_pow2 by lia. change (2 ^ 8) with 256.
  rewrite <- Z.add_nocarry_lor; [reflexivity|].
  apply Z.bits_inj'. intros i Hi. rewrite Z.land_spec, Z.bits_0.
  destruct (Z.lt_ge_cases i 8).
  - change 256 with (2 ^ 8). rewrite Z.mul_pow2_bits_low by lia. reflexivity.
  - rewrite (Z.bits_above_log2 low i); [apply andb_false_r | lia |].
    destruct (Z.eq_dec low 0) as [->|]; [cbn; lia|].
    apply Z.log2_lt_pow2; [lia|].
    apply Z.lt_le_trans with (2 ^ 8); [cbn; lia | apply Z.pow_le_mono_r; lia].
Qed.

Ltac zcmp :=
  repeat match goal with
         | |- context [?x <=? ?y] => destruct (Z.leb_spec x y)
         | |- context [?x <? ?y] => destruct (Z.ltb_spec x y)
         | |- context [?x =? ?y] => destruct (Z.eqb_spec x y)
         end; cbn [andb orb negb].

End BitFacts.

(** ** The pulse generator *)

Module PulseFacts.
Import Pulse Scenarios.


Lemma set_ocr1a_value v g : 0 <= v <= 65535 -> OCR1A (set_ocr1a v g) = v.
Proof.
  intros Hv. unfold set_ocr1a, set_OCR1A, u8. cbn [OCR1A].
  assert (Hs : 0 <= Z.shiftr v 8 < 256).
  { rewrite Z.shiftr_div_pow2 by lia. change (2 ^ 8) with 256.
    split; [apply Z.div_pos; lia | apply Z.div_lt_upper_bound; lia]. }
  rewrite (Z.mod_small _ 256) by lia.
  change 255 with (Z.ones 8). rewrite Z.land_ones by lia. change (2 ^ 8) with 256.
  rewrite BitFacts.lor_shiftl8 by (pose proof (Z.mod_pos_bound v 256); lia).
  rewrite Z.shiftr_div_pow2 by lia. change (2 ^ 8) with 256.
  pose proof (Z.div_mod v 256). lia.
Qed.

Lemma gap_ticks_range w p : 0 <= gap_ticks w p <= 65535.
Proof.
  unfold gap_ticks, u16, DEAD_TIME_TICKS.
  destruct (_ >? _); [|lia].
  pose proof (Z.mod_pos_bound (p - (w * 2 mod 65536 + 4 * 2) mod 65536) 65536). lia.
Qed.

Lemma set_ocr1a_ch_a v g : pulse_ch_a (set_ocr1a v g) = pulse_ch_a g.
Proof. reflexivity. Qed.

Lemma phase_eqb_refl p : phase_eqb p p = true.
Proof. destruct p; reflexivity. Qed.

Lemma obs_eqb_refl ph t w p : obs_eqb (mkObs ph t w p) ph t w p = true.
Proof. unfold obs_eqb; cbn. rewrite phase_eqb_refl, !Z.eqb_refl. reflexivity. Qed.

Lemma state_in_range_widths c : state_in_range c -> widths_ok c.
Proof. unfold state_in_range, widths_ok. tauto. Qed.

Lemma latch_widths_ok c : widths_ok c -> widths_ok (latch_pending c).
Proof.
  unfold widths_ok, latch_pending. destruct (nonzero _); cbn; tauto.
Qed.

Lemma isr_a_widths_ok g :
  widths_ok (pulse_ch_a g) -> widths_ok (pulse_ch_a (isr_timer1_compa g)).
Proof.
  intros H. unfold isr_timer1_compa.
  destruct (phase (pulse_ch_a g)) eqn:E; cbn; try exact H.
  pose proof (latch_widths_ok _ H) as H'.
  destruct (negb _); cbn; exact H'.
Qed.

(** Foreground calls and the other channel's ISR leave the phase and the
    active pair of channel A alone. *)
Lemma step_frame_a e g :
  e <> IsrA -> event_in_range e -> widths_ok (pulse_ch_a g) ->
  phase (pulse_ch_a (step e g)) = phase (pulse_ch_a g) /\
  width_ticks (pulse_ch_a (step e g)) = width_ticks (pulse_ch_a g) /\
  period_ticks (pulse_ch_a (step e g)) = period_ticks (pulse_ch_a g) /\
  widths_ok (pulse_ch_a (step e g)).
Proof.
  intros Hne Hr Hw. destruct e; try congruence; cbn [step event_in_range] in *.
  - unfold isr_timer2_comp.
    destruct (phase (pulse_ch_b g)); cbn;
      repeat match goal with |- context [if ?b then _ else _] => destruct b; cbn end;
      auto.
  - unfold pulse_set_width_a, widths_ok in *. cbn.
    destruct (w <? 70) eqn:E; [|apply Z.ltb_ge in E]; repeat split; lia.
  - unfold pulse_set_width_b. cbn. auto.
  - unfold pulse_set_frequency_a, widths_ok in *. cbn. auto.
  - unfold pulse_set_frequency_b. cbn. auto.
  - unfold pulse_set_gate_a. destruct (nonzero on); cbn; auto.
  - unfold pulse_set_gate_b. destruct (nonzero on); cbn; auto.
Qed.

Lemma step_frame_b e g :
  e <> IsrB ->
  phase (pulse_ch_b (step e g)) = phase (pulse_ch_b g) /\
  width_ticks (pulse_ch_b (step e g)) = width_ticks (pulse_ch_b g) /\
  period_ticks (pulse_ch_b (step e g)) = period_ticks (pulse_ch_b g).
Proof.
  intros Hne. destruct e; try congruence; cbn [step].
  - unfold isr_timer1_compa.
    destruct (phase (pulse_ch_a g)); cbn;
      repeat match goal with |- context [if ?b then _ else _] => destruct b; cbn end;
      auto.
  - unfold pulse_set_width_a. cbn. auto.
  - unfold pulse_set_width_b. cbn. auto.
  - unfold pulse_set_frequency_a. cbn. auto.
  - unfold pulse_set_frequency_b. cbn. auto.
  - unfold pulse_set_gate_a. destruct (nonzero on); cbn; auto.
  - unfold pulse_set_gate_b. destruct (nonzero on); cbn; auto.
Qed.

Lemma event_IsrA_dec e : e = IsrA \/ e <> IsrA.
Proof. destruct e; (left; reflexivity) || (right; discriminate). Qed.

Lemma event_IsrB_dec e : e = IsrB \/ e <> IsrB.
Proof. destruct e; (left; reflexivity) || (right; discriminate). Qed.

Lemma trace_a_skip e es g : e <> IsrA -> trace_a (e :: es) g = trace_a es (step e g).
Proof. destruct e; cbn; congruence. Qed.

Lemma trace_b_skip e es g : e <> IsrB -> trace_b (e :: es) g = trace_b es (step e g).
Proof. destruct e; cbn; congruence. Qed.

(** Channel A: from any state, what is still to come of the cycle in
    progress is timed from the active pair, and so is every later cycle. *)
Lemma trace_a_consistent es :
  forall g, widths_ok (pulse_ch_a g) -> Forall event_in_range es ->
    rest_of_cycle (phase (pulse_ch_a g)) (width_ticks (pulse_ch_a g))
      (period_ticks (pulse_ch_a g)) (trace_a es g) = true /\
    pairs_consistent (trace_a es g) = true.
Proof.
  induction es as [|e es IH]; intros g Hw Hes.
  - cbn. auto.
  - inversion Hes as [|? ? He Hes']; subst.
    destruct (event_IsrA_dec e) as [->|Hne].
    + cbn [trace_a].
      pose proof (isr_a_widths_ok g Hw) as Hw'.
      destruct (IH (isr_timer1_compa g) Hw' Hes') as [IH1 IH2].
      revert IH1 IH2. clear Hw'. unfold observe_a.
      generalize (trace_a es (isr_timer1_compa g)) as l.
      unfold isr_timer1_compa.
      destruct (phase (pulse_ch_a g)) eqn:E.
      * cbn -[set_ocr1a gap_ticks]; rewrite ?set_ocr1a_ch_a; cbn -[set_ocr1a gap_ticks]. intros l IH1 IH2.
        rewrite IH2, set_ocr1a_value by (cbv; split; discriminate).
        rewrite obs_eqb_refl, IH1. auto.
      * cbn -[set_ocr1a gap_ticks]; rewrite ?set_ocr1a_ch_a; cbn -[set_ocr1a gap_ticks]. intros l IH1 IH2. rewrite IH2.
        rewrite set_ocr1a_value by (destruct Hw; lia).
        rewrite obs_eqb_refl, IH1. auto.
      * cbn -[set_ocr1a gap_ticks]; rewrite ?set_ocr1a_ch_a; cbn -[set_ocr1a gap_ticks]. intros l IH1 IH2.
        rewrite IH2, set_ocr1a_value by (cbv; split; discriminate).
        rewrite obs_eqb_refl, IH1. auto.
      * cbn -[set_ocr1a gap_ticks]; rewrite ?set_ocr1a_ch_a; cbn -[set_ocr1a gap_ticks]. intros l IH1 IH2. rewrite IH2.
        rewrite set_ocr1a_value by apply gap_ticks_range.
        rewrite obs_eqb_refl. auto.
      * pose proof (latch_widths_ok _ Hw) as Hl.
        assert (El : phase (latch_pending (pulse_ch_a g)) = PH_GAP).
        { unfold latch_pending. destruct (nonzero _); cbn; auto. }
        destruct (negb (nonzero (gate (latch_pending (pulse_ch_a g)))));
          cbn -[set_ocr1a gap_ticks]; rewrite ?set_ocr1a_ch_a; cbn -[set_ocr1a gap_ticks].
        -- rewrite El. cbn. intros l _ IH2. auto.
        -- intros l IH1 IH2. rewrite IH2.
           rewrite set_ocr1a_value by (destruct Hl; lia).
           rewrite Z.eqb_refl, IH1. auto.
    + rewrite trace_a_skip by assumption.
      destruct (step_frame_a e g Hne He Hw) as (Ep & Ew & Epd & Hw').
      rewrite <- Ep, <- Ew, <- Epd. apply IH; assumption.
Qed.

Lemma trace_b_consistent es :
  forall g,
    rest_of_cycle (phase (pulse_ch_b g)) (width_ticks (pulse_ch_b g))
      (period_ticks (pulse_ch_b g)) (trace_b es g) = true /\
    pairs_consistent (trace_b es g) = true.
Proof.
  induction es as [|e es IH]; intros g.
  - cbn. auto.
  - destruct (event_IsrB_dec e) as [->|Hne].
    + cbn [trace_b].
      destruct (IH (isr_timer2_comp g)) as [IH1 IH2].
      revert IH1 IH2. unfold observe_b.
      generalize (trace_b es (isr_timer2_comp g)) as l.
      unfold isr_timer2_comp.
      destruct (phase (pulse_ch_b g)) eqn:E.
      * cbn -[gap_ticks]. intros l IH1 IH2. rewrite IH2, obs_eqb_refl, IH1. auto.
      * cbn -[gap_ticks]. intros l IH1 IH2. rewrite IH2, obs_eqb_refl, IH1. auto.
      * cbn -[gap_ticks]. intros l IH1 IH2. rewrite IH2, obs_eqb_refl, IH1. auto.
      * pose proof (gap_ticks_range (width_ticks (pulse_ch_b g)) (period_ticks (pulse_ch_b g))) as Hg.
        destruct (_ <=? 250) eqn:Eg; cbn -[gap_ticks]; intros l IH1 IH2; rewrite IH2.
        -- apply Z.leb_le in Eg. unfold u8. rewrite Z.mod_small by lia.
           rewrite Z.add_0_r, obs_eqb_refl. auto.
        -- apply Z.leb_gt in Eg. unfold u16. rewrite Z.mod_small by lia.
           replace (250 + (_ - 250)) with
             (gap_ticks (width_ticks (pulse_ch_b g)) (period_ticks (pulse_ch_b g))) by lia.
           rewrite obs_eqb_refl. auto.
      * destruct (gap_remaining (pulse_ch_b g) >? 0).
        -- cbn. rewrite E. cbn. intros l _ IH2. auto.
        -- assert (El : phase (latch_pending (pulse_ch_b g)) = PH_GAP).
           { unfold latch_pending. destruct (nonzero _); cbn; auto. }
           destruct (negb (nonzero (gate (latch_pending (pulse_ch_b g))))); cbn.
           ++ rewrite El. cbn. intros l _ IH2. auto.
           ++ intros l IH1 IH2. rewrite IH2, Z.eqb_refl, IH1. auto.
    + rewrite trace_b_skip by assumption.
      destruct (step_frame_b e g Hne) as (Ep & Ew & Epd).
      rewrite <- Ep, <- Ew, <- Epd. apply IH.
Qed.


Lemma isr_a_handoff g :
  handoff (pulse_ch_a (isr_timer1_compa g)) =
    match phase (pulse_ch_a g) with
    | PH_GAP => latched (pulse_ch_a g)
    | _ => handoff (pulse_ch_a g)
    end.
Proof.
  unfold isr_timer1_compa, latched, handoff.
  destruct (phase (pulse_ch_a g)); try reflexivity.
  unfold latch_pending.
  destruct (nonzero (params_dirty _)); cbn; destruct (negb _); reflexivity.
Qed.

Lemma isr_b_handoff g :
  handoff (pulse_ch_b (isr_timer2_comp g)) =
    match phase (pulse_ch_b g) with
    | PH_GAP => if gap_remaining (pulse_ch_b g) >? 0
                then handoff (pulse_ch_b g) else latched (pulse_ch_b g)
    | _ => handoff (pulse_ch_b g)
    end.
Proof.
  unfold isr_timer2_comp, latched, handoff.
  destruct (phase (pulse_ch_b g)); try reflexivity.
  - destruct (_ <=? 250); reflexivity.
  - destruct (_ >? 0); [reflexivity|]. unfold latch_pending.
    destruct (nonzero (params_dirty _)); cbn; destruct (negb _); reflexivity.
Qed.

(** Claim C3. Each pulse ISR copies the pending (width, period) into the
    active slots and clears the dirty flag only in the GAP phase (on
    channel B only once the gap countdown has run out): in every state
    reached by an interleaving [es] of foreground submissions and ISR
    invocations, an ISR invocation leaves the active pair and the flag
    as they are in POSITIVE, DEADTIME1, NEGATIVE and DEADTIME2.
    Consequently every cycle that starts along the interleaving times
    its POSITIVE and NEGATIVE phases with one and the same width and
    computes its gap from that width and the period it started with. *)
Theorem pulse_handoff_atomic (es : list event) (g : PulseGen) :
  state_in_range (pulse_ch_a g) ->
  Forall event_in_range es ->
  handoff (pulse_ch_a (isr_timer1_compa (run es g))) =
    match phase (pulse_ch_a (run es g)) with
    | PH_GAP => latched (pulse_ch_a (run es g))
    | _ => handoff (pulse_ch_a (run es g))
    end /\
  handoff (pulse_ch_b (isr_timer2_comp (run es g))) =
    match phase (pulse_ch_b (run es g)) with
    | PH_GAP => if gap_remaining (pulse_ch_b (run es g)) >? 0
                then handoff (pulse_ch_b (run es g))
                else latched (pulse_ch_b (run es g))
    | _ => handoff (pulse_ch_b (run es g))
    end /\
  pairs_consistent (trace_a es g) = true /\
  pairs_consistent (trace_b es g) = true.
Proof.
  intros Ha Hes. split; [apply isr_a_handoff|]. split; [apply isr_b_handoff|].
  split.
  - apply trace_a_consistent; [apply state_in_range_widths|]; assumption.
  - apply trace_b_consistent.
Qed.

Example demo_trace_a :
  map (fun o => (ob_phase o, ob_time o)) (trace_a demo_events (pulse_gen_init 0)) =
  [ (PH_POSITIVE, 200); (PH_DEADTIME1, 4); (PH_NEGATIVE, 200); (PH_DEADTIME2, 4);
    (PH_GAP, 592); (PH_POSITIVE, 90); (PH_DEADTIME1, 4) ].
Proof. vm_compute. reflexivity. Qed.

Lemma pulse_handoff_atomic_witness :
  pairs_consistent (trace_a demo_events (pulse_gen_init 0)) = true /\
  pairs_consistent (trace_b demo_events (pulse_gen_init 0)) = true.
Proof.
  assert (Ha : state_in_range (pulse_ch_a (pulse_gen_init 0))).
  { unfold state_in_range; cbn; lia. }
  assert (Hes : Forall event_in_range demo_events).
  { unfold demo_events; repeat (apply List.Forall_cons; [cbn; lia|]).
    apply List.Forall_nil. }
  destruct (pulse_handoff_atomic demo_events (pulse_gen_init 0) Ha Hes)
    as (_ & _ & Hta & Htb).
  split; assumption.
Defined.


Lemma gap_ticks_cases w p :
  0 <= w <= 255 -> 0 <= p <= 65535 ->
  1 <= gap_ticks w p /\
  (p <= 2 * w + 2 * DEAD_TIME_TICKS -> gap_ticks w p = DEAD_TIME_TICKS) /\
  (2 * w + 2 * DEAD_TIME_TICKS < p -> gap_ticks w p = p - 2 * w - 2 * DEAD_TIME_TICKS).
Proof.
  intros Hw Hp. unfold gap_ticks, u16, DEAD_TIME_TICKS.
  rewrite (Z.mod_small (w * 2)) by lia.
  rewrite (Z.mod_small (w * 2 + 4 * 2)) by lia.
  destruct (p >? w * 2 + 4 * 2) eqn:E.
  - apply Z.gtb_lt in E. rewrite Z.mod_small by lia. lia.
  - rewrite Z.gtb_ltb in E. apply Z.ltb_ge in E. lia.
Qed.

(** Claim C4, as amended. For an active width in [0, 255] and a period
    in [0, 65535], the ISR that ends DEADTIME2 enters GAP with a gap of
    at least 1 us, never zero and never wrapped: the gap is the deadtime
    (4 us) whenever period <= 2*width + 2*deadtime, and
    period - 2*width - 2*deadtime otherwise. On channel B the compare
    value (between 1 and 250) and the remaining-gap counter add up to
    that gap. The ISRs have no error result. *)
Theorem gap_guard (ga gb : PulseGen) :
  state_in_range (pulse_ch_a ga) -> phase (pulse_ch_a ga) = PH_DEADTIME2 ->
  state_in_range (pulse_ch_b gb) -> phase (pulse_ch_b gb) = PH_DEADTIME2 ->
  let gap_a := gap_ticks (width_ticks (pulse_ch_a ga)) (period_ticks (pulse_ch_a ga)) in
  let gap_b := gap_ticks (width_ticks (pulse_ch_b gb)) (period_ticks (pulse_ch_b gb)) in
  let used_a := 2 * width_ticks (pulse_ch_a ga) + 2 * DEAD_TIME_TICKS in
  let used_b := 2 * width_ticks (pulse_ch_b gb) + 2 * DEAD_TIME_TICKS in
  (phase (pulse_ch_a (isr_timer1_compa ga)) = PH_GAP /\
   OCR1A (isr_timer1_compa ga) = gap_a /\
   gap_a = (if period_ticks (pulse_ch_a ga) <=? used_a
            then DEAD_TIME_TICKS else period_ticks (pulse_ch_a ga) - used_a) /\
   1 <= gap_a) /\
  (phase (pulse_ch_b (isr_timer2_comp gb)) = PH_GAP /\
   OCR2 (isr_timer2_comp gb) + gap_remaining (pulse_ch_b (isr_timer2_comp gb)) = gap_b /\
   1 <= OCR2 (isr_timer2_comp gb) <= 250 /\
   gap_b = (if period_ticks (pulse_ch_b gb) <=? used_b
            then DEAD_TIME_TICKS else period_ticks (pulse_ch_b gb) - used_b) /\
   1 <= gap_b).
Proof.
  intros Ha Pa Hb Pb gap_a gap_b used_a used_b.
  destruct Ha as (Haw & Hap & _), Hb as (Hbw & Hbp & _).
  destruct (gap_ticks_cases _ _ Haw Hap) as (Ga1 & Ga2 & Ga3).
  destruct (gap_ticks_cases _ _ Hbw Hbp) as (Gb1 & Gb2 & Gb3).
  fold gap_a in Ga1, Ga2, Ga3. fold gap_b in Gb1, Gb2, Gb3.
  pose proof (gap_ticks_range (width_ticks (pulse_ch_b gb)) (period_ticks (pulse_ch_b gb))) as Rb.
  fold gap_b in Rb.
  split.
  - unfold isr_timer1_compa. rewrite Pa. cbn -[set_ocr1a gap_ticks].
    split; [reflexivity|]. split; [apply set_ocr1a_value, gap_ticks_range|].
    split; [|exact Ga1]. subst used_a.
    destruct (_ <=? _) eqn:E; [apply Z.leb_le in E | apply Z.leb_gt in E]; lia.
  - unfold isr_timer2_comp. rewrite Pb. fold gap_b.
    assert (Eb : gap_b = (if period_ticks (pulse_ch_b gb) <=? used_b
                          then DEAD_TIME_TICKS else period_ticks (pulse_ch_b gb) - used_b)).
    { subst used_b.
      destruct (_ <=? _) eqn:E; [apply Z.leb_le in E | apply Z.leb_gt in E]; lia. }
    destruct (gap_b <=? 250) eqn:E; [apply Z.leb_le in E | apply Z.leb_gt in E];
      cbn -[gap_ticks]; unfold u8, u16; rewrite Z.mod_small by lia;
      repeat split; try assumption; lia.
Qed.

Lemma gap_guard_witness :
  OCR1A (isr_timer1_compa (at_deadtime2 100 5000)) = 4792 /\
  OCR2 (isr_timer2_comp (at_deadtime2 255 300)) = 4.
Proof.
  assert (Ha : state_in_range (pulse_ch_a (at_deadtime2 100 5000))).
  { unfold state_in_range; cbn; lia. }
  assert (Hb : state_in_range (pulse_ch_b (at_deadtime2 255 300))).
  { unfold state_in_range; cbn; lia. }
  destruct (gap_guard (at_deadtime2 100 5000) (at_deadtime2 255 300)
              Ha eq_refl Hb eq_refl) as ((_ & Hga & _) & (_ & _ & _)).
  split; [exact Hga | reflexivity].
Defined.

(** Claim C4 as stated fails: width 250 and period 509 pass the clamps of
    the submission functions, the period is not below
    2*width + 2*deadtime, and the gap programmed after DEADTIME2 is
    1 us, less than the deadtime. *)
Lemma gap_below_deadtime :
  let g := run [SetWidthA 250; SetFrequencyA 509; SetGateA 1; IsrA; IsrA; IsrA; IsrA]
             (pulse_gen_init 0) in
  phase (pulse_ch_a g) = PH_DEADTIME2 /\
  width_ticks (pulse_ch_a g) = 250 /\ period_ticks (pulse_ch_a g) = 509 /\
  period_ticks (pulse_ch_a g) >= 2 * width_ticks (pulse_ch_a g) + 2 * DEAD_TIME_TICKS /\
  OCR1A (isr_timer1_compa g) = 1 /\
  ~ (DEAD_TIME_TICKS <= OCR1A (isr_timer1_compa g)).
Proof. vm_compute. repeat split; congruence. Qed.

End PulseFacts.

(** ** The output copy of the foreground loop *)

Module OutputFacts.
Import ChannelMem Pulse Scenarios.


Lemma width_us_value w :
  0 <= w <= 255 ->
  MainLoop.width_us w = (70 + w * 180) / 256 /\ 0 <= MainLoop.width_us w <= 179.
Proof.
  intros H. unfold MainLoop.width_us, u8, u16.
  rewrite (Z.mod_small (w * 180)) by lia.
  rewrite (Z.mod_small (70 + w * 180)) by lia.
  rewrite Z.shiftr_div_pow2 by lia. change (2 ^ 8) with 256.
  assert (0 <= (70 + w * 180) / 256 < 180).
  { split; [apply Z.div_pos; lia | apply Z.div_lt_upper_bound; lia]. }
  rewrite Z.mod_small by lia. lia.
Qed.

Lemma set_width_a_pending w g :
  pending_width (pulse_ch_a (pulse_set_width_a w g)) = if w <? 70 then 70 else w.
Proof. reflexivity. Qed.

Lemma set_width_b_pending w g :
  pending_width (pulse_ch_b (pulse_set_width_b w g)) = if w <? 70 then 70 else w.
Proof. reflexivity. Qed.

Lemma output_copy_pending_width on r g :
  pending_width (pulse_ch_a (MainLoop.output_copy on r g)) =
    (let w := MainLoop.width_us (fld (channel_a r) o_width_value) in
     if w <? 70 then 70 else w) /\
  pending_width (pulse_ch_b (MainLoop.output_copy on r g)) =
    (let w := MainLoop.width_us (fld (channel_b r) o_width_value) in
     if w <? 70 then 70 else w).
Proof.
  unfold MainLoop.output_copy, pulse_set_gate_a, pulse_set_gate_b. cbv zeta.
  repeat match goal with |- context [if nonzero ?b then _ else _] =>
                           destruct (nonzero b) end;
    split; reflexivity.
Qed.

(** Claim C1 at width value 255. The loop evaluates
    [(70 + width * 180) >> 8], which is 179, and that is the pending
    width of both channels after the output copy; the formula of the
    claim, 70 + width * 180 / 256, gives 249. *)
Theorem loop_width_formula_diverges (output_on : bool) (g : PulseGen) :
  MainLoop.width_us 255 = 179 /\
  pending_width (pulse_ch_a (MainLoop.output_copy output_on full_width_regs g)) = 179 /\
  pending_width (pulse_ch_b (MainLoop.output_copy output_on full_width_regs g)) = 179 /\
  MainLoop.spec_width_us 255 = 249.
Proof.
  destruct (output_copy_pending_width output_on full_width_regs g) as [Ea Eb].
  rewrite Ea, Eb. repeat split; reflexivity.
Qed.

(** Claim C2 at inputs below 70. [pulse_set_width_a] and
    [pulse_set_width_b] store 70 for the input 20 (and for 69), where
    the claim has the input itself stored from 20 upwards. *)
Theorem width_floor_is_seventy (g : PulseGen) :
  pending_width (pulse_ch_a (pulse_set_width_a 20 g)) = 70 /\
  pending_width (pulse_ch_b (pulse_set_width_b 20 g)) = 70 /\
  pending_width (pulse_ch_a (pulse_set_width_a 69 g)) = 70 /\
  pending_width (pulse_ch_a (pulse_set_width_a 70 g)) = 70.
Proof. repeat split; reflexivity. Qed.

End OutputFacts.

(** ** The persistent configuration *)

Module EepromFacts.
Import Eeprom Scenarios.


Lemma config_of_bytes c : config_of (bytes_of c) = c.
Proof. destruct c; reflexivity. Qed.

Lemma bytes_of_config l : length l = config_size -> bytes_of (config_of l) = l.
Proof.
  intros H. do 22 (destruct l as [|? l]; [discriminate H|]).
  destruct l; [reflexivity | discriminate H].
Qed.

Lemma length_bytes_of c : length (bytes_of c) = config_size.
Proof. reflexivity. Qed.

Lemma read_bytes_take n : forall base (ee : store),
  0 <= base -> (Z.to_nat base + n <= length ee)%nat ->
  read_bytes base n ee = take n (drop (Z.to_nat base) ee).
Proof.
  induction n as [|n IH]; intros base ee Hb Hlen; [reflexivity|].
  cbn [read_bytes]. rewrite IH by lia.
  unfold mk312bt_eeprom_read_byte.
  replace (Z.to_nat (base + 1)) with (S (Z.to_nat base)) by lia.
  destruct (lookup_lt_is_Some_2 ee (Z.to_nat base)) as [x Hx]; [lia|].
  rewrite (list_lookup_total_correct _ _ _ Hx).
  rewrite (drop_S _ _ _ Hx). reflexivity.
Qed.

Lemma write_bytes_splice l : forall base (ee : store),
  0 <= base -> (Z.to_nat base + length l <= length ee)%nat ->
  write_bytes base l ee =
    take (Z.to_nat base) ee ++ l ++ drop (Z.to_nat base + length l) ee.
Proof.
  induction l as [|b l IH]; intros base ee Hb Hlen.
  - cbn. rewrite Nat.add_0_r, take_drop. reflexivity.
  - cbn [write_bytes length] in *. unfold mk312bt_eeprom_write_byte.
    rewrite IH by (rewrite ?length_insert; lia).
    replace (Z.to_nat (base + 1)) with (S (Z.to_nat base)) by lia.
    rewrite drop_insert_lt by lia.
    destruct (lookup_lt_is_Some_2 ee (Z.to_nat base)) as [x Hx]; [lia|].
    rewrite (take_S_r _ _ b) by (apply list_lookup_insert_eq; lia).
    rewrite take_insert_ge by lia.
    rewrite <- app_assoc. cbn.
    replace (S (Z.to_nat base + length l)) with (Z.to_nat base + S (length l))%nat by lia.
    reflexivity.
Qed.

Lemma xor_fold_acc l : forall acc, fold_left Z.lxor l acc = Z.lxor acc (xor_bytes l).
Proof.
  unfold xor_bytes. induction l as [|b l IH]; intros acc; cbn [fold_left].
  - rewrite Z.lxor_0_r. reflexivity.
  - rewrite (IH (Z.lxor acc b)), (IH (Z.lxor 0 b)), Z.lxor_0_l.
    apply Z.lxor_assoc.
Qed.

Lemma xor_bytes_cons b l : xor_bytes (b :: l) = Z.lxor b (xor_bytes l).
Proof. unfold xor_bytes at 1. cbn. apply xor_fold_acc. Qed.

Lemma xor_bytes_insert l : forall i v,
  (i < length l)%nat ->
  xor_bytes (<[i := v]> l) = Z.lxor (xor_bytes l) (Z.lxor (l !!! i) v).
Proof.
  induction l as [|b l IH]; intros i v Hi; [cbn in Hi; lia|].
  destruct i as [|i].
  - change (<[0%nat := v]> (b :: l)) with (v :: l).
    change ((b :: l) !!! 0%nat) with b.
    rewrite !xor_bytes_cons.
    rewrite (Z.lxor_comm b (xor_bytes l)), Z.lxor_assoc.
    rewrite <- (Z.lxor_assoc b b v), Z.lxor_nilpotent, Z.lxor_0_l.
    apply Z.lxor_comm.
  - change (<[S i := v]> (b :: l)) with (b :: <[i := v]> l).
    change ((b :: l) !!! S i) with (l !!! i).
    rewrite !xor_bytes_cons, IH by (cbn in Hi; lia).
    rewrite Z.lxor_assoc. reflexivity.
Qed.

Lemma lxor_changes a v : a <> v -> Z.lxor a v <> 0.
Proof. intros H E. apply Z.lxor_eq in E. contradiction. Qed.


Lemma lxor_cancel_l a b : Z.lxor a b = a -> b = 0.
Proof.
  intros H.
  assert (E : Z.lxor a (Z.lxor a b) = Z.lxor a a) by (rewrite H; reflexivity).
  rewrite <- Z.lxor_assoc, Z.lxor_nilpotent, Z.lxor_0_l in E. exact E.
Qed.

(** What [eeprom_save_config] leaves in the struct and in the store. *)
Lemma save_config_store c (ee : list Z) :
  (config_size <= length ee)%nat ->
  snd (eeprom_save_config c ee) =
    bytes_of (fst (eeprom_save_config c ee)) ++ drop config_size ee.
Proof.
  intros H. unfold eeprom_save_config. cbn [fst snd].
  rewrite write_bytes_splice; [reflexivity | unfold EEPROM_CONFIG_BASE; lia |].
  rewrite length_bytes_of. exact H.
Qed.

Lemma saved_config_valid c (ee : list Z) :
  let c' := fst (eeprom_save_config c ee) in
  magic c' = EEPROM_MAGIC_BYTE /\ eeprom_calculate_checksum c' = checksum c' /\
  payload c' = payload c.
Proof. destruct c. cbn. auto. Qed.

Lemma load_of_bytes c (rest : list Z) :
  eeprom_load_config (bytes_of c ++ rest) =
    (if negb (magic c =? EEPROM_MAGIC_BYTE) then 0
     else if negb (eeprom_calculate_checksum c =? checksum c) then 0 else 1, c).
Proof.
  unfold eeprom_load_config.
  rewrite read_bytes_take;
    [| unfold EEPROM_CONFIG_BASE; lia
     | rewrite length_app, length_bytes_of; unfold EEPROM_CONFIG_BASE, config_size;
       change (Z.to_nat 0) with 0%nat; lia].
  change (Z.to_nat EEPROM_CONFIG_BASE) with 0%nat. rewrite drop_0.
  rewrite take_app_length' by reflexivity. rewrite config_of_bytes.
  destruct (negb (magic c =? _)); [reflexivity|].
  destruct (negb (_ =? checksum c)); reflexivity.
Qed.

Lemma corrupt_rejected c (i : nat) (v : Z) :
  magic c = EEPROM_MAGIC_BYTE -> eeprom_calculate_checksum c = checksum c ->
  (i < config_size)%nat -> bytes_of c !!! i <> v ->
  let c' := config_of (<[i := v]> (bytes_of c)) in
  (negb (magic c' =? EEPROM_MAGIC_BYTE) || negb (eeprom_calculate_checksum c' =? checksum c'))
    = true.
Proof.
  intros Hm Hc Hi Hv c'.
  assert (Hb : bytes_of c' = <[i := v]> (bytes_of c)).
  { apply bytes_of_config. rewrite length_insert. reflexivity. }
  destruct (Nat.eq_dec i 0%nat) as [->|Hi0].
  - assert (magic c' = v) by (destruct c; reflexivity).
    assert (bytes_of c !!! 0%nat = magic c) by (destruct c; reflexivity).
    apply orb_true_iff. left. apply negb_true_iff, Z.eqb_neq. congruence.
  - apply orb_true_iff. right. apply negb_true_iff, Z.eqb_neq.
    assert (Hck : forall d, checksum d = bytes_of d !!! 21%nat) by (intros []; reflexivity).
    assert (Hcs : forall d, eeprom_calculate_checksum d = xor_bytes (take 21 (bytes_of d)))
      by reflexivity.
    rewrite Hcs, (Hck c'), Hb. rewrite Hcs, Hck in Hc.
    unfold config_size in Hi.
    destruct (Nat.eq_dec i 21%nat) as [->|Hi21].
    + rewrite take_insert_ge by lia.
      rewrite list_lookup_total_insert_eq by (rewrite length_bytes_of; exact Hi).
      rewrite Hc. exact Hv.
    + rewrite take_insert_lt by lia.
      rewrite list_lookup_total_insert_ne by lia.
      rewrite xor_bytes_insert by (rewrite length_take, length_bytes_of; unfold config_size; lia).
      rewrite Hc.
      intros E. apply lxor_cancel_l in E. apply Z.lxor_eq in E.
      apply Hv. rewrite <- E. symmetry.
      apply list_lookup_total_correct.
      rewrite lookup_take_lt by lia.
      apply list_lookup_lookup_total_lt. rewrite length_bytes_of. exact Hi.
Qed.


Lemma load_split_settings (e : eeprom_config_t) (ee : list Z) sc :
  fst (eeprom_load_config ee) = 1 -> snd (eeprom_load_config ee) = e ->
  Config.eeprom (Config.config_load_from_eeprom (Config.mkPersist ee sc)) = ee /\
  Config.settings (Config.system_config
      (Config.config_load_from_eeprom (Config.mkPersist ee sc))) = payload e.
Proof.
  intros H1 H2. unfold Config.config_load_from_eeprom. cbn [Config.eeprom].
  destruct (eeprom_load_config ee) as [ok e']. cbn in H1, H2. subst ok e'.
  cbn. destruct (eeprom_load_split_modes ee). cbn. destruct e. auto.
Qed.

Lemma load_failed_defaults (ee : list Z) sc :
  fst (eeprom_load_config ee) = 0 ->
  Config.config_load_from_eeprom (Config.mkPersist ee sc) =
    Config.mkPersist ee Config.config_set_defaults.
Proof.
  intros H. unfold Config.config_load_from_eeprom. cbn [Config.eeprom].
  destruct (eeprom_load_config ee) as [ok e']. cbn in H. subst ok. reflexivity.
Qed.

(** Claim C9. For a configuration struct [c] of bytes and a 512-byte
    store: loading after [eeprom_save_config] reports success and
    returns the struct as saved, whose twenty setting fields are those
    of [c]; [config_load_from_eeprom] then holds these settings and
    leaves the store as it is. If any one of the 22 stored bytes is
    changed to a different byte the load reports failure, and
    [config_load_from_eeprom] installs the factory defaults and leaves
    the (corrupted) store as it is. *)
Theorem persistence_roundtrip (c : eeprom_config_t) (ee : list Z)
    (sc : Config.system_config_t) :
  config_bytes c -> length ee = 512%nat ->
  let c' := fst (eeprom_save_config c ee) in
  let ee' := snd (eeprom_save_config c ee) in
  (eeprom_load_config ee' = (1, c') /\ payload c' = payload c /\
   Config.eeprom (Config.config_load_from_eeprom (Config.mkPersist ee' sc)) = ee' /\
   Config.settings (Config.system_config
       (Config.config_load_from_eeprom (Config.mkPersist ee' sc))) = payload c) /\
  (forall (i : nat) (v : Z),
      (i < config_size)%nat -> is_byte v -> ee' !!! i <> v ->
      fst (eeprom_load_config (<[i := v]> ee')) = 0 /\
      Config.config_load_from_eeprom (Config.mkPersist (<[i := v]> ee') sc) =
        Config.mkPersist (<[i := v]> ee') Config.config_set_defaults).
Proof.
  intros _ Hlen c' ee'.
  assert (Hee : ee' = bytes_of c' ++ drop config_size ee).
  { apply save_config_store. rewrite Hlen. unfold config_size. lia. }
  destruct (saved_config_valid c ee) as (Hm & Hc & Hp). fold c' in Hm, Hc, Hp.
  assert (Hload : eeprom_load_config ee' = (1, c')).
  { rewrite Hee, load_of_bytes, Hm, Hc, !Z.eqb_refl. reflexivity. }
  split.
  - split; [exact Hload|]. split; [exact Hp|].
    destruct (load_split_settings c' ee' sc) as [He Hs]; [rewrite Hload; reflexivity ..|].
    split; [exact He | rewrite Hs; exact Hp].
  - intros i v Hi _ Hv.
    assert (H0 : fst (eeprom_load_config (<[i:=v]> ee')) = 0).
    { rewrite Hee. rewrite insert_app_l by (rewrite length_bytes_of; exact Hi).
      assert (Hv' : bytes_of c' !!! i <> v).
      { intros E. apply Hv. rewrite Hee.
        rewrite lookup_total_app_l by (rewrite length_bytes_of; exact Hi). exact E. }
      pose proof (corrupt_rejected c' i v Hm Hc Hi Hv') as Hrej. cbn zeta in Hrej.
      rewrite <- (bytes_of_config (<[i:=v]> (bytes_of c')))
        by (rewrite length_insert; reflexivity).
      rewrite load_of_bytes. cbn [fst].
      apply orb_true_iff in Hrej. destruct Hrej as [-> | ->]; [reflexivity|].
      destruct (negb (magic _ =? _)); reflexivity. }
    split; [exact H0 | apply load_failed_defaults; exact H0].
Qed.

Lemma persistence_roundtrip_witness :
  let ee' := snd (eeprom_save_config eeprom_init_defaults blank_store) in
  fst (eeprom_load_config ee') = 1 /\
  fst (eeprom_load_config (<[4%nat := 129]> ee')) = 0.
Proof.
  assert (Hc : config_bytes eeprom_init_defaults).
  { unfold config_bytes, is_byte, eeprom_init_defaults, bytes_of; cbn.
    repeat (apply List.Forall_cons; [unfold EEPROM_MAGIC_BYTE; lia|]).
    apply List.Forall_nil. }
  assert (Hl : length blank_store = 512%nat) by reflexivity.
  destruct (persistence_roundtrip eeprom_init_defaults blank_store
              Config.config_set_defaults Hc Hl) as [(Hload & _) Hbad].
  split.
  - rewrite Hload. reflexivity.
  - apply (Hbad 4%nat 129).
    + unfold config_size. lia.
    + unfold is_byte. lia.
    + vm_compute. discriminate.
Defined.

End EepromFacts.

(** ** The parameter engine *)

Module EngineFacts.
Import ChannelMem ParamEngine Scenarios.


Lemma fld_set_eq (ch : list Z) i v : (i < length ch)%nat -> fld (set_fld i v ch) i = v.
Proof. apply list_lookup_total_insert_eq. Qed.

Lemma fld_set_ne (ch : list Z) i j v : i <> j -> fld (set_fld i v ch) j = fld ch j.
Proof. apply list_lookup_total_insert_ne. Qed.

Lemma length_set_fld (ch : list Z) i v : length (set_fld i v ch) = length ch.
Proof. apply length_insert. Qed.

Lemma group_at_fields off (ch : list Z) a b c d e f g h i :
  group_at off ch = [a; b; c; d; e; f; g; h; i] ->
  fld ch (off + g_value) = a /\ fld ch (off + g_min) = b /\ fld ch (off + g_max) = c /\
  fld ch (off + g_rate) = d /\ fld ch (off + g_step) = e /\
  fld ch (off + g_action_min) = f /\ fld ch (off + g_action_max) = g /\
  fld ch (off + g_select) = h /\ fld ch (off + g_timer) = i.
Proof. unfold group_at. cbn. intros H. injection H. intros. repeat split; assumption. Qed.

Lemma group_offset_bound off : is_group_offset off -> (off + 8 < 64)%nat.
Proof. intros [-> | [-> | [-> | ->]]]; cbv; lia. Qed.

Ltac fld_simpl :=
  repeat first
    [ rewrite fld_set_eq by (rewrite ?length_set_fld; lia)
    | rewrite fld_set_ne by lia ].

Lemma group_at_intro off (ch : list Z) a b c d e f g h i :
  fld ch (off + 0) = a -> fld ch (off + 1) = b -> fld ch (off + 2) = c ->
  fld ch (off + 3) = d -> fld ch (off + 4) = e -> fld ch (off + 5) = f ->
  fld ch (off + 6) = g -> fld ch (off + 7) = h -> fld ch (off + 8) = i ->
  group_at off ch = [a; b; c; d; e; f; g; h; i].
Proof. unfold group_at. cbn. intros. congruence. Qed.

Lemma loop_step tick off (ch : list Z) ma adv_min adv_rate other v :
  is_group_offset off -> block_ok ch -> 10 <= v <= 19 ->
  group_at off ch = loop_group v ->
  exists ch',
    step_group tick off ch ma adv_min adv_rate other DIR_UP = (ch', DIR_UP, 0xFF) /\
    block_ok ch' /\
    group_at off ch' = loop_group (if v =? 19 then 10 else v + 1).
Proof.
  intros Hoff Hlen Hv Hg.
  destruct (group_at_fields _ _ _ _ _ _ _ _ _ _ _ Hg)
    as (Ev & Emin & Emax & Erate & Estep & Eamin & Eamax & Esel & Etim).
  pose proof (group_offset_bound off Hoff) as Hb.
  unfold block_ok in *.
  unfold g_value, g_min, g_max, g_rate, g_step, g_action_min, g_action_max,
    g_select, g_timer in *.
  unfold step_group.
  unfold g_value, g_min, g_max, g_rate, g_step, g_action_min, g_action_max,
    g_select, g_timer.
  rewrite Esel, Erate, Etim.
  change (Z.land 1 SEL_TIMER_MASK) with 1.
  change (1 =? SEL_TIMER_NONE) with false.
  change (timer_fires tick 1) with true.
  change (Z.land (Z.shiftr 1 2) 7) with 0.
  change (Z.land (Z.shiftr 1 5) 7) with 0.
  change (resolve_source 0 1 adv_rate ma other) with 1.
  change (u8 (0 + 1)) with 1.
  cbv beta iota zeta. change (negb true) with false. change (negb (0 =? 0)) with false.
  change (1 =? 0) with false.
  cbv beta iota zeta. fld_simpl. change (1 <? 1) with false. cbv beta iota.
  rewrite Estep, Ev, Emax. change (1 =? 0) with false.
  change (DIR_UP =? DIR_UP) with true. cbv beta iota zeta.
  unfold u16. rewrite Z.mod_small by lia.
  destruct (v =? 19) eqn:E19.
  - apply Z.eqb_eq in E19. rewrite E19. change (19 + 1 >=? 20) with true.
    cbv beta iota zeta.
    fld_simpl. rewrite Eamax. unfold do_action.
    change (253 =? ACTION_REV_TOGGLE) with false.
    change (253 =? ACTION_REVERSE) with false.
    change (253 =? ACTION_LOOP) with true.
    change (DIR_UP =? DIR_UP) with true. cbv beta iota zeta.
    unfold g_value, g_min. fld_simpl. rewrite Emin.
    eexists. split; [reflexivity|]. split; [rewrite !length_set_fld; exact Hlen|].
    apply group_at_intro; fld_simpl; auto.
  - apply Z.eqb_neq in E19.
    destruct (v + 1 >=? 20) eqn:E20; [rewrite Z.geb_leb in E20; apply Z.leb_le in E20; lia|].
    eexists. split; [reflexivity|]. split; [rewrite !length_set_fld; exact Hlen|].
    unfold u8. rewrite Z.mod_small by lia.
    apply group_at_intro; fld_simpl; auto.
Qed.


Lemma loop_steps off ma adv_min adv_rate other n :
  forall tick (ch : list Z) v,
    is_group_offset off -> block_ok ch -> 10 <= v <= 19 ->
    group_at off ch = loop_group v ->
    exists ch',
      step_group_n n tick off ch ma adv_min adv_rate other DIR_UP
        = (ch', DIR_UP, repeat 0xFF n) /\
      block_ok ch' /\
      group_at off ch' = loop_group (10 + (v - 10 + Z.of_nat n) mod 10).
Proof.
  induction n as [|n IH]; intros tick ch v Hoff Hlen Hv Hg.
  - exists ch. split; [reflexivity|]. split; [assumption|].
    rewrite Z.add_0_r, Z.mod_small by lia. rewrite Hg. f_equal. lia.
  - destruct (loop_step tick off ch ma adv_min adv_rate other v Hoff Hlen Hv Hg)
      as (ch1 & E1 & Hlen1 & Hg1).
    assert (Hv1 : 10 <= (if v =? 19 then 10 else v + 1) <= 19).
    { destruct (v =? 19) eqn:E; [lia | apply Z.eqb_neq in E; lia]. }
    destruct (IH (u8 (tick + 1)) ch1 _ Hoff Hlen1 Hv1 Hg1) as (ch' & En & Hlen' & Hg').
    exists ch'. cbn [step_group_n]. rewrite E1, En.
    split; [reflexivity|]. split; [assumption|].
    rewrite Hg'. f_equal. f_equal.
    replace (v - 10 + Z.of_nat (S n)) with (v + 1 - 10 + Z.of_nat n) by lia.
    destruct (v =? 19) eqn:E; [|reflexivity].
    apply Z.eqb_eq in E. subst v.
    replace (19 + 1 - 10 + Z.of_nat n) with (Z.of_nat n + 1 * 10) by lia.
    rewrite Z.mod_add by lia. f_equal; lia.
Qed.

(** Claim C8, as amended. For a group with action_min = action_max =
    LOOP, step 1, min 10, max 20, rate 1, select 0x01 and timer 0,
    starting at value 10 going up, the value after [n] firing calls of
    [step_group] is 10 + n mod 10 and the direction stays up: the value
    is 10 again after exactly 10 firing ticks, and 11 after 11. *)
Theorem loop_wraps_after_ten (tick : Z) (off : nat) (ch : list Z)
    (ma adv_min adv_rate other : Z) :
  is_group_offset off -> block_ok ch -> group_at off ch = loop_group 10 ->
  let value_after n :=
    fld (fst (fst (step_group_n n tick off ch ma adv_min adv_rate other DIR_UP)))
      (off + g_value) in
  value_after 10%nat = 10 /\ value_after 11%nat = 11 /\
  (forall n, value_after n = 10 + Z.of_nat n mod 10 /\
             snd (fst (step_group_n n tick off ch ma adv_min adv_rate other DIR_UP))
               = DIR_UP).
Proof.
  intros Hoff Hlen Hg value_after.
  assert (Hall : forall n, value_after n = 10 + Z.of_nat n mod 10 /\
             snd (fst (step_group_n n tick off ch ma adv_min adv_rate other DIR_UP))
               = DIR_UP).
  { intros n. subst value_after. cbv beta.
    destruct (loop_steps off ma adv_min adv_rate other n tick ch 10 Hoff Hlen
                ltac:(lia) Hg) as (ch' & E & _ & Hg').
    rewrite E. cbn [fst snd]. split; [|reflexivity].
    apply group_at_fields in Hg'. destruct Hg' as (Ev & _). rewrite Ev.
    f_equal; f_equal; lia. }
  split; [apply (Hall 10%nat)|]. split; [apply (Hall 11%nat) | exact Hall].
Qed.

Lemma loop_wraps_after_ten_witness :
  fld (fst (fst (step_group_n 10 0 OFF_INTENSITY loop_block 0 0 0 0 DIR_UP)))
    (OFF_INTENSITY + g_value) = 10.
Proof.
  pose proof (loop_wraps_after_ten 0 OFF_INTENSITY loop_block 0 0 0 0
                (or_intror (or_introl eq_refl)) eq_refl eq_refl) as H.
  cbv beta zeta in H. exact (proj1 H).
Defined.

(** Claim C8 as stated fails: after 11 firing ticks the value is not 10. *)
Lemma loop_eleven_ticks_not_ten :
  fld (fst (fst (step_group_n 11 0 OFF_INTENSITY loop_block 0 0 0 0 DIR_UP)))
    (OFF_INTENSITY + g_value) <> 10.
Proof. vm_compute. discriminate. Qed.

Lemma dispatcher_map_ma_spec K low high :
  0 <= K <= 255 -> 0 <= low <= 255 -> 0 <= high <= 255 ->
  Dispatcher.map_ma K high low = spec_knob_scale K low high.
Proof.
  intros HK Hl Hh. unfold Dispatcher.map_ma, spec_knob_scale, u8, u16.
  destruct (high >=? low) eqn:E.
  - rewrite Z.geb_leb in E. apply Z.leb_le in E.
    rewrite (Z.mod_small (K * (high - low))) by nia.
    rewrite Z.shiftr_div_pow2 by lia. change (2 ^ 8) with 256.
    assert (0 <= K * (high - low) / 256 <= high - low).
    { split; [apply Z.div_pos; nia | apply Z.div_le_upper_bound; nia]. }
    rewrite (Z.mod_small (K * (high - low) / 256)) by lia.
    rewrite Z.mod_small by lia. reflexivity.
  - rewrite Z.geb_leb in E. apply Z.leb_gt in E.
    rewrite (Z.mod_small (K * (low - high))) by nia.
    rewrite Z.shiftr_div_pow2 by lia. change (2 ^ 8) with 256.
    assert (0 <= K * (low - high) / 256 <= low - high).
    { split; [apply Z.div_pos; nia | apply Z.div_le_upper_bound; nia]. }
    rewrite (Z.mod_small (K * (low - high) / 256)) by lia.
    rewrite Z.mod_small by lia. reflexivity.
Qed.

(** Claim C5 at K = 255, low = 0, high = 255. The parameter engine's
    [map_ma] divides by 255 and returns 255; the dispatcher's [map_ma]
    and the formula of the claim shift right by 8 and give 254. *)
Theorem knob_scaling_copies_disagree :
  ParamEngine.map_ma 255 255 0 = 255 /\
  Dispatcher.map_ma 255 255 0 = 254 /\
  spec_knob_scale 255 0 255 = 254.
Proof. vm_compute. auto. Qed.

End EngineFacts.

(** ** The bytecode interpreter *)

Module InterpFacts.
Import ChannelMem Dispatcher Scenarios BitFacts.


Lemma get_reg_ptr_a addr r :
  0x80 <= addr < 0xC0 ->
  channel_get_reg_ptr addr r = (PtrA (Z.to_nat (addr - 0x80)), r).
Proof.
  intros H. unfold channel_get_reg_ptr, CHAN_BASE_A, CHAN_BASE_B, CHAN_BLOCK_SIZE.
  destruct (384 <=? addr) eqn:E1; [apply Z.leb_le in E1; lia|]. cbn [andb].
  destruct (128 <=? addr) eqn:E2; [|apply Z.leb_gt in E2; lia].
  destruct (addr <? 128 + 64) eqn:E3; [|apply Z.ltb_ge in E3; lia]. cbn [andb].
  unfold u8. rewrite Z.mod_small by lia. reflexivity.
Qed.

Lemma get_reg_ptr_b addr r :
  0x180 <= addr < 0x1C0 ->
  channel_get_reg_ptr addr r = (PtrB (Z.to_nat (addr - 0x180)), r).
Proof.
  intros H. unfold channel_get_reg_ptr, CHAN_BASE_A, CHAN_BASE_B, CHAN_BLOCK_SIZE.
  destruct (384 <=? addr) eqn:E1; [|apply Z.leb_gt in E1; lia].
  destruct (addr <? 384 + 64) eqn:E3; [|apply Z.ltb_ge in E3; lia]. cbn [andb].
  unfold u8. rewrite Z.mod_small by lia. reflexivity.
Qed.

Lemma get_reg_ptr_scratch addr r :
  ~ mapped addr ->
  channel_get_reg_ptr addr r = (PtrScratch, mkRegs (channel_a r) (channel_b r) 0).
Proof.
  intros H. unfold mapped in H.
  unfold channel_get_reg_ptr, CHAN_BASE_A, CHAN_BASE_B, CHAN_BLOCK_SIZE.
  destruct (384 <=? addr) eqn:E1, (addr <? 384 + 64) eqn:E2,
           (128 <=? addr) eqn:E3, (addr <? 128 + 64) eqn:E4; cbn [andb];
    try reflexivity;
    repeat match goal with
           | E : (_ <=? _) = true |- _ => apply Z.leb_le in E
           | E : (_ <=? _) = false |- _ => apply Z.leb_gt in E
           | E : (_ <? _) = true |- _ => apply Z.ltb_lt in E
           | E : (_ <? _) = false |- _ => apply Z.ltb_ge in E
           end; lia.
Qed.

Lemma mapped_dec addr : mapped addr \/ ~ mapped addr.
Proof. unfold mapped. lia. Qed.

Lemma peek_a a r :
  0x80 <= a < 0xC0 -> peek a r = fld (channel_a r) (Z.to_nat (a - 0x80)).
Proof. intros H. unfold peek, read_reg. rewrite get_reg_ptr_a by exact H. reflexivity. Qed.

Lemma peek_b a r :
  0x180 <= a < 0x1C0 -> peek a r = fld (channel_b r) (Z.to_nat (a - 0x180)).
Proof. intros H. unfold peek, read_reg. rewrite get_reg_ptr_b by exact H. reflexivity. Qed.

Lemma write_reg_a b v r :
  0x80 <= b < 0xC0 ->
  write_reg b v r = set_channel_a (set_fld (Z.to_nat (b - 0x80)) v (channel_a r)) r.
Proof. intros H. unfold write_reg. rewrite get_reg_ptr_a by exact H. reflexivity. Qed.

Lemma write_reg_b b v r :
  0x180 <= b < 0x1C0 ->
  write_reg b v r = set_channel_b (set_fld (Z.to_nat (b - 0x180)) v (channel_b r)) r.
Proof. intros H. unfold write_reg. rewrite get_reg_ptr_b by exact H. reflexivity. Qed.

Lemma write_reg_scratch b v r :
  ~ mapped b -> write_reg b v r = mkRegs (channel_a r) (channel_b r) v.
Proof. intros H. unfold write_reg. rewrite get_reg_ptr_scratch by exact H. reflexivity. Qed.

Lemma write_reg_regs_ok addr v r : regs_ok r -> regs_ok (write_reg addr v r).
Proof.
  intros [Ha Hb]. unfold regs_ok, block_ok in *.
  destruct (mapped_dec addr) as [[H|H]|H].
  - rewrite write_reg_a by exact H. unfold set_channel_a, set_fld.
    cbn [channel_a channel_b]. rewrite length_insert. auto.
  - rewrite write_reg_b by exact H. unfold set_channel_b, set_fld.
    cbn [channel_a channel_b]. rewrite length_insert. auto.
  - rewrite write_reg_scratch by exact H. cbn. auto.
Qed.

(** A mapped register reads back what was last written to its address
    and is not disturbed by writes elsewhere. *)
Lemma peek_write_reg a b v r :
  regs_ok r -> mapped a ->
  peek a (write_reg b v r) = if a =? b then v else peek a r.
Proof.
  intros [Ha Hb] Hm. unfold regs_ok, block_ok in *.
  destruct (a =? b) eqn:E; [apply Z.eqb_eq in E; subst b | apply Z.eqb_neq in E].
  - destruct Hm as [H|H].
    + rewrite write_reg_a, peek_a by exact H. cbn [set_channel_a channel_a].
      apply list_lookup_total_insert_eq. lia.
    + rewrite write_reg_b, peek_b by exact H. cbn [set_channel_b channel_b].
      apply list_lookup_total_insert_eq. lia.
  - destruct (mapped_dec b) as [[Hb'|Hb']|Hb'].
    + rewrite write_reg_a by exact Hb'.
      destruct Hm as [H|H].
      * rewrite !peek_a by exact H. cbn [set_channel_a channel_a].
        apply list_lookup_total_insert_ne. lia.
      * rewrite !peek_b by exact H. reflexivity.
    + rewrite write_reg_b by exact Hb'.
      destruct Hm as [H|H].
      * rewrite !peek_a by exact H. reflexivity.
      * rewrite !peek_b by exact H. cbn [set_channel_b channel_b].
        apply list_lookup_total_insert_ne. lia.
    + rewrite write_reg_scratch by exact Hb'.
      destruct Hm as [H|H].
      * rewrite !peek_a by exact H. reflexivity.
      * rewrite !peek_b by exact H. reflexivity.
Qed.

Lemma copy_loop_spec data : forall addr i r a,
  regs_ok r -> mapped a -> 0 <= addr -> 0 <= i ->
  addr + i + Z.of_nat (length data) <= 65536 ->
  regs_ok (copy_loop addr i data r) /\
  peek a (copy_loop addr i data r) =
    if (addr + i <=? a) && (a <? addr + i + Z.of_nat (length data))
    then data !!! Z.to_nat (a - addr - i) else peek a r.
Proof.
  induction data as [|b data IH]; intros addr i r a Hr Hm Ha Hi Hlen.
  - cbn [copy_loop length]. split; [exact Hr|]. zcmp; try reflexivity.
    cbn in *. lia.
  - cbn [copy_loop length] in *.
    assert (Hu : u16 (addr + i) = addr + i) by (unfold u16; apply Z.mod_small; lia).
    rewrite Hu.
    destruct (IH addr (i + 1) (write_reg (addr + i) b r) a) as [IH1 IH2];
      [apply write_reg_regs_ok; exact Hr | exact Hm | lia | lia | lia |].
    split; [exact IH1|]. rewrite IH2, peek_write_reg by assumption.
    zcmp; try lia; try reflexivity.
    + replace (Z.to_nat (a - addr - i)) with (S (Z.to_nat (a - addr - (i + 1)))) by lia.
      reflexivity.
    + subst a. replace (addr + i - addr - i) with 0 by lia. reflexivity.
Qed.


Lemma copy_opcode_fields opcode :
  0 <= opcode <= 255 -> Z.land opcode 0xE0 = 0x20 ->
  0 <= copy_length opcode <= 7 /\ 0 <= copy_addr_high opcode <= 3.
Proof.
  intros Hb H.
  assert (A : all_bytes (fun op =>
                implb (Z.land op 0xE0 =? 0x20)
                  ((0 <=? copy_length op) && (copy_length op <=? 7) &&
                   (0 <=? copy_addr_high op) && (copy_addr_high op <=? 3))) = true)
    by (vm_compute; reflexivity).
  pose proof (all_bytes_spec _ A opcode Hb) as P. cbv beta in P.
  rewrite H in P. cbn [implb Z.eqb Pos.eqb] in P.
  change (32 =? 32) with true in P. cbn [implb] in P.
  repeat (apply andb_true_iff in P; destruct P as [P ?]). lia.
Qed.

Lemma pgm_read_bytes_length prog pc n data :
  pgm_read_bytes prog pc n = Some data -> length data = n.
Proof.
  unfold pgm_read_bytes. destruct (Nat.eqb_spec (length (take n (drop pc prog))) n);
    [|discriminate].
  intros [= <-]. assumption.
Qed.

(** Claim C6, as amended. A COPY instruction is encoded 001lllaa, with a
    three-bit length field [l] (bits 4..2) and a two-bit address-high
    field [aa] (bits 1..0). The interpreter reads l+1 data bytes, moves
    on to the instruction 2+(l+1) bytes further, and writes the data to
    the consecutive addresses from (aa<<8)|addr_low on: every mapped
    register in that range holds its data byte afterwards, every other
    mapped register is unchanged (addresses outside both blocks are
    absorbed by the scratch byte), and the PRNG is not touched. *)
Theorem copy_instruction (knob : Z) (prog : list Z) (pc : nat)
    (opcode addr_low : Z) (data : list Z) (fuel : nat) (s : Interp) :
  pgm_read_byte prog pc = Some opcode -> 0 <= opcode <= 255 ->
  Z.land opcode 0xE0 = 0x20 ->
  pgm_read_byte prog (pc + 1) = Some addr_low -> 0 <= addr_low <= 255 ->
  pgm_read_bytes prog (pc + 2) (Z.to_nat (copy_length opcode + 1)) = Some data ->
  regs_ok (regs s) ->
  let l := copy_length opcode in
  let addr := Z.lor (Z.shiftl (copy_addr_high opcode) 8) addr_low in
  let next := (pc + 2 + Z.to_nat (l + 1))%nat in
  let s' := exec_instr knob (ICopy addr data) s in
  0 <= l <= 7 /\ 0 <= copy_addr_high opcode <= 3 /\
  Z.of_nat (length data) = l + 1 /\
  decode prog pc = Some (ICopy addr data, next) /\
  run (S fuel) knob prog pc s = run fuel knob prog next s' /\
  (forall a, mapped a ->
     peek a (regs s') =
       if (addr <=? a) && (a <? addr + (l + 1))
       then data !!! Z.to_nat (a - addr) else peek a (regs s)) /\
  prng_state s' = prng_state s.
Proof.
  intros Hop Hb Hcopy Hlow Hlb Hdata Hok l addr next s'.
  destruct (copy_opcode_fields opcode Hb Hcopy) as [Hl Hh]. fold l in Hl.
  pose proof (pgm_read_bytes_length _ _ _ _ Hdata) as Hlen. fold l in Hlen.
  assert (Hdec : decode prog pc = Some (ICopy addr data, next)).
  { unfold decode. rewrite Hop. cbn [mbind option_bind].
    rewrite Hcopy. change (32 =? 0) with false. change (32 =? 32) with true.
    cbv iota. rewrite Hlow. cbn [mbind option_bind].
    fold (copy_length opcode). fold l.
    assert (Hu : u8 (1 + l) = l + 1) by (unfold u8; rewrite Z.mod_small; lia).
    rewrite Hu. fold l in Hdata. rewrite Hdata. cbn [mbind option_bind]. reflexivity. }
  split; [exact Hl|]. split; [exact Hh|]. split; [lia|]. split; [exact Hdec|].
  split; [cbn [run]; rewrite Hdec; reflexivity|].
  split; [|reflexivity].
  intros a Ha. subst s'. cbn [exec_instr set_regs regs].
  assert (Haddr : 0 <= addr <= 1023).
  { subst addr. rewrite lor_shiftl8 by lia. lia. }
  destruct (copy_loop_spec data addr 0 (regs s) a Hok Ha) as [_ E]; [lia | lia | lia |].
  rewrite E, Z.add_0_r, Z.sub_0_r, Hlen.
  replace (Z.of_nat (Z.to_nat (l + 1))) with (l + 1) by lia. reflexivity.
Qed.



Lemma copy_instruction_witness :
  decode copy_demo 0 = Some (ICopy 0x86 [0x11; 0x22], 4%nat) /\
  peek 0x87 (regs (exec_instr 0 (ICopy 0x86 [0x11; 0x22]) boot_interp)) = 0x22.
Proof.
  assert (Hok : regs_ok (regs boot_interp)) by (split; reflexivity).
  destruct (copy_instruction 0 copy_demo 0 0x24 0x86 [0x11; 0x22] 0 boot_interp
              eq_refl ltac:(lia) eq_refl eq_refl ltac:(lia) eq_refl Hok)
    as (_ & _ & _ & Hdec & _ & Hpeek & _).
  split; [exact Hdec|].
  assert (Hm : mapped 0x87) by (left; lia).
  exact (Hpeek 0x87 Hm).
Defined.

(** Claim C6 as stated fails at opcode 0x24: read as 001llaaa it has
    ll = 0 and aaa = 4, that is one byte for address 0x486 and three
    instruction bytes; the interpreter takes two data bytes, moves on
    by four bytes and writes 0x086 and 0x087. *)
Lemma copy_fields_not_as_specified :
  exists addr data next,
    decode copy_demo 0 = Some (ICopy addr data, next) /\
    Z.of_nat next <> 2 + (spec_copy_length 0x24 + 1) /\
    Z.of_nat (length data) <> spec_copy_length 0x24 + 1 /\
    addr <> Z.lor (Z.shiftl (spec_copy_addr_high 0x24) 8) 0x86 /\
    peek 0x87 (regs (exec_instr 0 (ICopy addr data) boot_interp)) = 0x22 /\
    peek 0x87 (regs boot_interp) <> 0x22.
Proof.
  exists 0x86, [0x11; 0x22], 4%nat. vm_compute. repeat split; discriminate.
Qed.

Lemma decode_end prog pc opcode :
  pgm_read_byte prog pc = Some opcode -> Z.land opcode 0xE0 = 0 ->
  decode prog pc = Some (IEnd, pc).
Proof.
  intros H E. unfold decode. rewrite H. cbn [mbind option_bind]. rewrite E. reflexivity.
Qed.

Lemma reserved_is_end opcode : 0x10 <= opcode <= 0x1F -> Z.land opcode 0xE0 = 0.
Proof.
  intros H.
  assert (A : all_bytes (fun op => implb ((0x10 <=? op) && (op <=? 0x1F))
                                     (Z.land op 0xE0 =? 0)) = true)
    by (vm_compute; reflexivity).
  pose proof (all_bytes_spec _ A opcode ltac:(lia)) as P. cbv beta in P.
  destruct (Z.leb_spec 0x10 opcode); [|lia].
  destruct (Z.leb_spec opcode 0x1F); [|lia].
  cbn [andb implb] in P. apply Z.eqb_eq in P. exact P.
Qed.

Lemma decode_skip2 prog pc opcode :
  pgm_read_byte prog pc = Some opcode -> 0x70 <= opcode <= 0x7F ->
  decode prog pc = Some (ISkip2, (pc + 2)%nat).
Proof.
  intros H Hr.
  assert (A : all_bytes (fun op => implb ((0x70 <=? op) && (op <=? 0x7F))
               (negb (Z.land op 0xE0 =? 0x00) && negb (Z.land op 0xE0 =? 0x20)
                && negb (Z.land op 0xF0 =? 0x40) && negb (Z.land op 0xF0 =? 0x50)
                && negb (op =? 0x60) && negb (nonzero (Z.land op 0x80))
                && nonzero (Z.land op 0x10))) = true)
    by (vm_compute; reflexivity).
  pose proof (all_bytes_spec _ A opcode ltac:(lia)) as P. cbv beta in P.
  destruct (Z.leb_spec 0x70 opcode); [|lia].
  destruct (Z.leb_spec opcode 0x7F); [|lia].
  cbn [andb implb] in P.
  repeat (apply andb_true_iff in P; destruct P as [P ?]).
  repeat match goal with
         | H : negb _ = true |- _ => apply negb_true_iff in H
         end.
  unfold decode. rewrite H. cbn [mbind option_bind].
  repeat match goal with
         | H : ?b = false |- context [if ?b then _ else _] => rewrite H
         | H : ?b = true |- context [if ?b then _ else _] => rewrite H
         end.
  reflexivity.
Qed.

(** Claim C7, as amended. An opcode 0001xxxx (0x10..0x1F) matches the END
    test [(opcode & 0xE0) == 0], which comes first: the interpreter
    stops there and leaves both blocks (the whole interpreter state) as
    they are. The branch that consumes 2 bytes without effect and goes
    on with the following instruction is the one taken by the opcodes
    0111xxxx (0x70..0x7F). *)
Theorem reserved_opcode (knob : Z) (prog : list Z) (pc : nat) (opcode : Z)
    (fuel : nat) (s : Interp) :
  pgm_read_byte prog pc = Some opcode ->
  (0x10 <= opcode <= 0x1F -> run (S fuel) knob prog pc s = Some s) /\
  (0x70 <= opcode <= 0x7F ->
     run (S fuel) knob prog pc s = run fuel knob prog (pc + 2) s).
Proof.
  intros H. split; intros Hr; cbn [run].
  - rewrite (decode_end prog pc opcode H (reserved_is_end opcode Hr)). reflexivity.
  - rewrite (decode_skip2 prog pc opcode H Hr). reflexivity.
Qed.

Lemma reserved_opcode_witness :
  run 3 0 reserved_demo 0 boot_interp = Some boot_interp /\
  run 3 0 skip_demo 0 boot_interp
    = run 2 0 skip_demo 2 boot_interp.
Proof.
  split.
  - apply (reserved_opcode 0 reserved_demo 0 0x10 2 boot_interp eq_refl). lia.
  - apply (reserved_opcode 0 skip_demo 0 0x70 2 boot_interp eq_refl).
    lia.
Defined.

(** Claim C7 as stated fails: with opcode 0x10 in front of a SET of the
    gate value, running from the opcode is not running from two bytes
    further; the SET is never executed and the gate value stays 0x07. *)
Lemma reserved_opcode_does_not_continue :
  pgm_read_byte reserved_demo 0 = Some 0x10 /\
  run 3 0 reserved_demo 0 boot_interp <> run 2 0 reserved_demo 2 boot_interp /\
  (exists s, run 3 0 reserved_demo 0 boot_interp = Some s /\
             peek 0x90 (regs s) = 0x07) /\
  (exists s, run 2 0 reserved_demo 2 boot_interp = Some s /\
             peek 0x90 (regs s) = 0x06).
Proof.
  split; [reflexivity|]. split; [vm_compute; discriminate|].
  split; eexists; (split; [vm_compute; reflexivity | reflexivity]).
Qed.

End InterpFacts.

(** ** The mode dispatcher *)

Module DispatcherFacts.
Import ChannelMem Dispatcher Scenarios.


Lemma run_halts knob prog fuel : forall pc s,
  halts fuel prog pc = true -> is_Some (run fuel knob prog pc s).
Proof.
  induction fuel as [|fuel IH]; intros pc s H; [discriminate|].
  cbn [halts run] in *.
  destruct (decode prog pc) as [[i pc']|]; [|discriminate].
  destruct i; eauto.
Qed.

Lemma module_table_halts :
  forallb (fun prog => halts (S (length prog)) prog 0) ModePrograms.module_table = true.
Proof. vm_compute. reflexivity. Qed.

Lemma execute_module_total idx knob s : is_Some (execute_module idx knob s).
Proof.
  unfold execute_module.
  destruct (ModePrograms.MODULE_COUNT <=? idx) eqn:E; [eauto|].
  apply Z.leb_gt in E. apply run_halts.
  pose proof module_table_halts as H. rewrite forallb_forall in H. apply H.
  apply list_elem_of_In, list_elem_of_lookup_total_2.
  change (length ModePrograms.module_table) with 36%nat.
  unfold ModePrograms.MODULE_COUNT in E. lia.
Qed.

Lemma setup_mode_modules_total mode knob cache s :
  is_Some (setup_mode_modules mode knob cache s).
Proof.
  unfold setup_mode_modules.
  destruct (_ && _); [eauto|]. destruct (Modes.MODE_SPLIT <=? mode); [eauto|].
  destruct (mode_modules !!! Z.to_nat mode) as [m0 m1].
  assert (H0 : is_Some (if negb (m0 =? 255) then execute_module m0 knob s else Some s)).
  { destruct (negb _); [apply execute_module_total | eauto]. }
  destruct H0 as [s0 ->]. cbn [mbind option_bind].
  assert (H1 : is_Some (if negb (m1 =? 255) then execute_module m1 knob s0 else Some s0)).
  { destruct (negb _); [apply execute_module_total | eauto]. }
  destruct H1 as [s1 ->]. cbn [mbind option_bind].
  assert (H2 : is_Some (if mode =? Modes.MODE_PHASE2
                        then execute_module 35 knob s1 else Some s1)).
  { destruct (_ =? _); [apply execute_module_total | eauto]. }
  destruct H2 as [s2 ->]. cbn [mbind option_bind].
  repeat match goal with |- context [if ?b then _ else _] => destruct b end; eauto.
Qed.

Lemma init_mode_modules_total mode knob cache s :
  is_Some (init_mode_modules mode knob cache s).
Proof.
  unfold init_mode_modules.
  destruct (execute_module_total 1 knob (reload_blocks 3 s)) as [s1 ->].
  cbn [mbind option_bind].
  destruct (setup_mode_modules_total mode knob cache s1) as [s2 ->].
  cbn [mbind option_bind]. eauto.
Qed.

Lemma init_split_mode_total ma mb knob cache s :
  is_Some (init_split_mode ma mb knob cache s).
Proof.
  unfold init_split_mode.
  destruct (execute_module_total 1 knob (reload_blocks 1 s)) as [s1 ->].
  cbn [mbind option_bind].
  destruct (setup_mode_modules_total ma knob cache s1) as [s2 ->].
  cbn [mbind option_bind].
  destruct (execute_module_total 1 knob (reload_blocks 2 s2)) as [s3 ->].
  cbn [mbind option_bind].
  destruct (setup_mode_modules_total mb knob cache s3) as [s4 ->].
  cbn [mbind option_bind]. eauto.
Qed.

Lemma select_mode_total n m :
  exists m', mode_dispatcher_select_mode n m = Some m' /\
             current_mode m' = if Modes.MODE_COUNT <=? n then 0 else n.
Proof.
  unfold mode_dispatcher_select_mode.
  set (mode := if Modes.MODE_COUNT <=? n then 0 else n).
  destruct (mode =? Modes.MODE_RANDOM1).
  - cbn [mbind option_bind]. eexists. split; reflexivity.
  - destruct (mode =? Modes.MODE_SPLIT).
    + destruct (init_split_mode_total (split_mode_a m) (split_mode_b m)
                  (Config.multi_adjust (config m)) (prog_cache m) (interp m)) as [s ->].
      cbn [mbind option_bind]. eexists. split; reflexivity.
    + destruct (init_mode_modules_total mode
                  (Config.multi_adjust (config m)) (prog_cache m) (interp m)) as [s ->].
      cbn [mbind option_bind]. eexists. split; reflexivity.
Qed.




(** Entering Waves (here through an out-of-range mode number) leaves the
    frequency and width groups of channel A as modules 11 and 12 set
    them, with the pulse gate off. *)
Example waves_entry :
  exists m', mode_dispatcher_select_mode 200 boot_machine = Some m' /\
    current_mode m' = Modes.MODE_WAVES /\
    ParamEngine.group_at ParamEngine.OFF_FREQ (channel_a (regs (interp m')))
      = [0x8B; 0x8B; 0xFF; 0x01; 0x01; 0xFF; 0xFF; 0x41; 0x00] /\
    ParamEngine.group_at ParamEngine.OFF_WIDTH (channel_a (regs (interp m')))
      = [0x00; 0x00; 0xB3; 0x01; 0x03; 0xFF; 0xFF; 0x41; 0x00] /\
    Pulse.gate (Pulse.pulse_ch_a (pulse m')) = Pulse.PULSE_OFF.
Proof. eexists. split; [vm_compute; reflexivity|]. repeat split; reflexivity. Qed.

End DispatcherFacts.

(** ** Words, ranges and enumerations *)

Module WordFacts.

Lemma u8_range x : 0 <= u8 x <= 255.
Proof. unfold u8. pose proof (Z.mod_pos_bound x 256). lia. Qed.

Lemma u16_range x : 0 <= u16 x <= 65535.
Proof. unfold u16. pose proof (Z.mod_pos_bound x 65536). lia. Qed.

Lemma u8_small x : 0 <= x <= 255 -> u8 x = x.
Proof. intros. unfold u8. apply Z.mod_small. lia. Qed.

Lemma u16_small x : 0 <= x <= 65535 -> u16 x = x.
Proof. intros. unfold u16. apply Z.mod_small. lia. Qed.

Lemma shiftr_div x n : 0 <= n -> Z.shiftr x n = x / 2 ^ n.
Proof. intros. apply Z.shiftr_div_pow2. assumption. Qed.

Lemma all_from_spec n P : forall start,
  all_from n start P = true -> forall x, start <= x < start + Z.of_nat n -> P x = true.
Proof.
  induction n as [|n IH]; intros start H x Hx; [lia|].
  cbn [all_from] in H. apply andb_true_iff in H. destruct H as (H0 & H1).
  destruct (Z.eq_dec x start) as [->|Hne]; [exact H0|].
  apply (IH (start + 1) H1). lia.
Qed.

Lemma all_upto_spec n P : all_upto n P = true -> forall x, 0 <= x < n -> P x = true.
Proof.
  unfold all_upto. intros H x Hx. apply (all_from_spec _ _ 0 H). lia.
Qed.

Lemma list_eq_total (l k : list Z) :
  length l = length k -> (forall i, (i < length l)%nat -> l !!! i = k !!! i) -> l = k.
Proof.
  intros Hlen H. apply list_eq. intros i.
  destruct (Nat.lt_ge_cases i (length l)) as [Hi|Hi].
  - rewrite (list_lookup_lookup_total_lt l i Hi).
    rewrite (list_lookup_lookup_total_lt k i) by lia. f_equal. apply H, Hi.
  - rewrite !lookup_ge_None_2 by lia. reflexivity.
Qed.

(** Boolean comparisons in hypotheses, as propositions. *)
Ltac to_prop :=
  repeat match goal with
         | H : negb _ = true |- _ => apply negb_true_iff in H
         | H : negb _ = false |- _ => apply negb_false_iff in H
         | H : (_ =? _) = true |- _ => apply Z.eqb_eq in H
         | H : (_ =? _) = false |- _ => apply Z.eqb_neq in H
         | H : (_ <? _) = true |- _ => apply Z.ltb_lt in H
         | H : (_ <? _) = false |- _ => apply Z.ltb_ge in H
         | H : (_ <=? _) = true |- _ => apply Z.leb_le in H
         | H : (_ <=? _) = false |- _ => apply Z.leb_gt in H
         | H : (_ >=? _) = true |- _ => rewrite Z.geb_leb in H; apply Z.leb_le in H
         | H : (_ >=? _) = false |- _ => rewrite Z.geb_leb in H; apply Z.leb_gt in H
         | H : (_ >? _) = true |- _ => rewrite Z.gtb_ltb in H; apply Z.ltb_lt in H
         | H : (_ >? _) = false |- _ => rewrite Z.gtb_ltb in H; apply Z.ltb_ge in H
         end.

End WordFacts.

(** ** Pulse generator: pins, gate and timing *)

Module PulseSafety.
Import Pulse Scenarios.

Ltac pin_bits p :=
  unfold ch_a_all_off, ch_a_positive, ch_a_negative, ch_b_all_off, ch_b_positive,
    ch_b_negative, clear_bits;
  rewrite ?Z.lor_spec, ?Z.land_spec;
  repeat split;
  repeat match goal with |- context [Z.testbit p ?i] => destruct (Z.testbit p i) end;
  reflexivity.

Lemma ch_a_all_off_bits p :
  Z.testbit (ch_a_all_off p) 2 = false /\ Z.testbit (ch_a_all_off p) 3 = false /\
  Z.testbit (ch_a_all_off p) 0 = Z.testbit p 0 /\ Z.testbit (ch_a_all_off p) 1 = Z.testbit p 1.
Proof. pin_bits p. Qed.

Lemma ch_a_positive_bits p :
  Z.testbit (ch_a_positive p) 2 = true /\ Z.testbit (ch_a_positive p) 3 = false /\
  Z.testbit (ch_a_positive p) 0 = Z.testbit p 0 /\ Z.testbit (ch_a_positive p) 1 = Z.testbit p 1.
Proof. pin_bits p. Qed.

Lemma ch_a_negative_bits p :
  Z.testbit (ch_a_negative p) 2 = false /\ Z.testbit (ch_a_negative p) 3 = true /\
  Z.testbit (ch_a_negative p) 0 = Z.testbit p 0 /\ Z.testbit (ch_a_negative p) 1 = Z.testbit p 1.
Proof. pin_bits p. Qed.

Lemma ch_b_all_off_bits p :
  Z.testbit (ch_b_all_off p) 0 = false /\ Z.testbit (ch_b_all_off p) 1 = false /\
  Z.testbit (ch_b_all_off p) 2 = Z.testbit p 2 /\ Z.testbit (ch_b_all_off p) 3 = Z.testbit p 3.
Proof. pin_bits p. Qed.

Lemma ch_b_positive_bits p :
  Z.testbit (ch_b_positive p) 0 = true /\ Z.testbit (ch_b_positive p) 1 = false /\
  Z.testbit (ch_b_positive p) 2 = Z.testbit p 2 /\ Z.testbit (ch_b_positive p) 3 = Z.testbit p 3.
Proof. pin_bits p. Qed.

Lemma ch_b_negative_bits p :
  Z.testbit (ch_b_negative p) 0 = false /\ Z.testbit (ch_b_negative p) 1 = true /\
  Z.testbit (ch_b_negative p) 2 = Z.testbit p 2 /\ Z.testbit (ch_b_negative p) 3 = Z.testbit p 3.
Proof. pin_bits p. Qed.

(** The effect of one event on the four pins and on the two phases. *)
Ltac pin_cases :=
  unfold pins_follow_phase, pin, HBRIDGE_CH_A_POS, HBRIDGE_CH_A_NEG, HBRIDGE_CH_B_POS,
    HBRIDGE_CH_B_NEG in *;
  cbv zeta;
  cbn [PORTB pulse_ch_a pulse_ch_b set_PORTB set_ch_a set_ch_b set_OCR1A set_OCR2 set_ocr1a
       phase with_phase with_gate with_gap_remaining with_pending_width with_pending_period] in *;
  repeat match goal with
         | |- context [ch_a_all_off ?p] =>
             let H := fresh in pose proof (ch_a_all_off_bits p) as H;
             destruct H as (? & ? & ? & ?); generalize dependent (ch_a_all_off p); intros
         | |- context [ch_a_positive ?p] =>
             let H := fresh in pose proof (ch_a_positive_bits p) as H;
             destruct H as (? & ? & ? & ?); generalize dependent (ch_a_positive p); intros
         | |- context [ch_a_negative ?p] =>
             let H := fresh in pose proof (ch_a_negative_bits p) as H;
             destruct H as (? & ? & ? & ?); generalize dependent (ch_a_negative p); intros
         | |- context [ch_b_all_off ?p] =>
             let H := fresh in pose proof (ch_b_all_off_bits p) as H;
             destruct H as (? & ? & ? & ?); generalize dependent (ch_b_all_off p); intros
         | |- context [ch_b_positive ?p] =>
             let H := fresh in pose proof (ch_b_positive_bits p) as H;
             destruct H as (? & ? & ? & ?); generalize dependent (ch_b_positive p); intros
         | |- context [ch_b_negative ?p] =>
             let H := fresh in pose proof (ch_b_negative_bits p) as H;
             destruct H as (? & ? & ? & ?); generalize dependent (ch_b_negative p); intros
         end;
  repeat split; intros;
  first
    [ congruence
    | match goal with H : _ -> ?G |- ?G => apply H; congruence end
    | exfalso;
      match goal with
      | H : _ -> _ = _ |- _ => specialize (H ltac:(congruence)); congruence
      end ].

Lemma latch_phase c : phase (latch_pending c) = phase c.
Proof. unfold latch_pending. destruct (nonzero (params_dirty c)); reflexivity. Qed.

Lemma latch_gate c : gate (latch_pending c) = gate c.
Proof. unfold latch_pending. destruct (nonzero (params_dirty c)); reflexivity. Qed.

Lemma step_pins_follow_phase e g : pins_follow_phase g -> pins_follow_phase (step e g).
Proof.
  intros (Ha & Hb & Hc & Hd).
  destruct e; cbn [step].
  - unfold isr_timer1_compa. destruct (phase (pulse_ch_a g)) eqn:E.
    + pin_cases.
    + pin_cases.
    + pin_cases.
    + pin_cases.
    + cbv zeta. destruct (negb (nonzero (gate (latch_pending (pulse_ch_a g)))));
        pin_cases.
  - unfold isr_timer2_comp. destruct (phase (pulse_ch_b g)) eqn:E.
    + pin_cases.
    + pin_cases.
    + pin_cases.
    + cbv zeta. destruct (_ <=? 250); pin_cases.
    + cbv zeta. destruct (gap_remaining (pulse_ch_b g) >? 0).
      * pin_cases.
      * destruct (negb (nonzero (gate (latch_pending (pulse_ch_b g))))); pin_cases.
  - unfold pulse_set_width_a. pin_cases.
  - unfold pulse_set_width_b. pin_cases.
  - unfold pulse_set_frequency_a. pin_cases.
  - unfold pulse_set_frequency_b. pin_cases.
  - unfold pulse_set_gate_a. cbv zeta. destruct (nonzero on).
    + pin_cases.
    + change (clear_bits ?p _) with (ch_a_all_off p). pin_cases.
  - unfold pulse_set_gate_b. cbv zeta. destruct (nonzero on).
    + pin_cases.
    + change (clear_bits ?p _) with (ch_b_all_off p). pin_cases.
Qed.

(** X1. Along every interleaving of ISR invocations and submissions, a
    bridge pin is high only in the phase that drives it: the positive
    pin only in PH_POSITIVE, the negative pin only in PH_NEGATIVE. So
    the two pins of a channel are never high together, and both are low
    during the dead times and the gap. *)
Theorem pins_follow_phase_invariant (es : list event) (g : PulseGen) :
  pins_follow_phase g ->
  pins_follow_phase (run es g) /\
  pin (run es g) HBRIDGE_CH_A_POS && pin (run es g) HBRIDGE_CH_A_NEG = false /\
  pin (run es g) HBRIDGE_CH_B_POS && pin (run es g) HBRIDGE_CH_B_NEG = false.
Proof.
  intros H.
  assert (Hinv : pins_follow_phase (run es g)).
  { revert g H. induction es as [|e es IH]; intros g H; [exact H|].
    cbn [run fold_left]. apply IH, step_pins_follow_phase, H. }
  split; [exact Hinv|].
  destruct Hinv as (Ha & Hb & Hc & Hd).
  split.
  - destruct (pin (run es g) HBRIDGE_CH_A_POS) eqn:E1; [|reflexivity].
    destruct (pin (run es g) HBRIDGE_CH_A_NEG) eqn:E2; [|reflexivity].
    specialize (Ha eq_refl). specialize (Hb eq_refl). congruence.
  - destruct (pin (run es g) HBRIDGE_CH_B_POS) eqn:E1; [|reflexivity].
    destruct (pin (run es g) HBRIDGE_CH_B_NEG) eqn:E2; [|reflexivity].
    specialize (Hc eq_refl). specialize (Hd eq_refl). congruence.
Qed.

Lemma init_pins_follow_phase p : pins_follow_phase (pulse_gen_init p).
Proof.
  unfold pins_follow_phase, pin, pulse_gen_init, clear_bits. cbn [PORTB].
  rewrite !Z.land_spec.
  repeat split; intros H; exfalso; revert H;
    match goal with |- context [Z.testbit p ?i] => destruct (Z.testbit p i) end;
    vm_compute; discriminate.
Qed.

Lemma pins_follow_phase_invariant_witness :
  pins_follow_phase (run demo_events (pulse_gen_init 0xFF)) /\
  pin (run demo_events (pulse_gen_init 0xFF)) HBRIDGE_CH_A_POS
    && pin (run demo_events (pulse_gen_init 0xFF)) HBRIDGE_CH_A_NEG = false /\
  pin (run demo_events (pulse_gen_init 0xFF)) HBRIDGE_CH_B_POS
    && pin (run demo_events (pulse_gen_init 0xFF)) HBRIDGE_CH_B_NEG = false.
Proof.
  apply pins_follow_phase_invariant.
  vm_compute. repeat split; intros H; discriminate H.
Defined.

(** One event on a channel that idles with its gate off. *)
Lemma step_idle_a e g :
  gate_stays_off_a e ->
  phase (pulse_ch_a g) = PH_GAP -> gate (pulse_ch_a g) = 0 ->
  phase (pulse_ch_a (step e g)) = PH_GAP /\ gate (pulse_ch_a (step e g)) = 0 /\
  (e = IsrA -> OCR1A (step e g) = 250).
Proof.
  intros He Hp Hg. destruct e; cbn [step gate_stays_off_a] in *.
  - unfold isr_timer1_compa. rewrite Hp. cbv zeta.
    rewrite latch_gate, Hg. cbn [nonzero negb Z.eqb].
    change (negb (negb (0 =? 0))) with false. cbv iota.
    cbn [pulse_ch_a set_ocr1a set_OCR1A set_PORTB set_ch_a OCR1A].
    rewrite latch_phase, latch_gate. repeat split; auto.
  - unfold isr_timer2_comp.
    assert (Hfr : forall g', pulse_ch_a g' = pulse_ch_a g ->
              phase (pulse_ch_a g') = PH_GAP /\ gate (pulse_ch_a g') = 0 /\
              (IsrB = IsrA -> OCR1A g' = 250)).
    { intros g' ->. repeat split; auto. discriminate. }
    destruct (phase (pulse_ch_b g)); cbv zeta;
      repeat match goal with |- context [if ?b then _ else _] => destruct b end;
      apply Hfr; reflexivity.
  - unfold pulse_set_width_a. cbn. repeat split; auto; discriminate.
  - unfold pulse_set_width_b. cbn. repeat split; auto; discriminate.
  - unfold pulse_set_frequency_a. cbn. repeat split; auto; discriminate.
  - unfold pulse_set_frequency_b. cbn. repeat split; auto; discriminate.
  - subst on. unfold pulse_set_gate_a. cbn. repeat split; auto; discriminate.
  - unfold pulse_set_gate_b. cbv zeta. destruct (nonzero on); cbn; repeat split; auto; discriminate.
Qed.

Lemma step_idle_b e g :
  gate_stays_off_b e ->
  phase (pulse_ch_b g) = PH_GAP -> gate (pulse_ch_b g) = 0 ->
  phase (pulse_ch_b (step e g)) = PH_GAP /\ gate (pulse_ch_b (step e g)) = 0.
Proof.
  intros He Hp Hg. destruct e; cbn [step gate_stays_off_b] in *.
  - unfold isr_timer1_compa.
    assert (Hfr : forall g', pulse_ch_b g' = pulse_ch_b g ->
              phase (pulse_ch_b g') = PH_GAP /\ gate (pulse_ch_b g') = 0).
    { intros g' ->. auto. }
    destruct (phase (pulse_ch_a g)); cbv zeta;
      repeat match goal with |- context [if ?b then _ else _] => destruct b end;
      apply Hfr; reflexivity.
  - unfold isr_timer2_comp. rewrite Hp. cbv zeta.
    destruct (gap_remaining (pulse_ch_b g) >? 0).
    + cbn. auto.
    + rewrite latch_gate, Hg. change (negb (nonzero 0)) with true. cbv iota.
      cbn [pulse_ch_b set_OCR2 set_PORTB set_ch_b].
      rewrite latch_phase, latch_gate. auto.
  - unfold pulse_set_width_a. cbn. auto.
  - unfold pulse_set_width_b. cbn. auto.
  - unfold pulse_set_frequency_a. cbn. auto.
  - unfold pulse_set_frequency_b. cbn. auto.
  - unfold pulse_set_gate_a. cbv zeta. destruct (nonzero on); cbn; auto.
  - subst on. unfold pulse_set_gate_b. cbn. auto.
Qed.

(** X2. A channel that is in PH_GAP with its gate off stays there, with
    both pins low, through every interleaving that does not switch its
    gate on: the ISR only re-arms its timer. *)
Theorem gate_off_keeps_idle (es : list event) (g : PulseGen) :
  pins_follow_phase g ->
  (Forall gate_stays_off_a es ->
   phase (pulse_ch_a g) = PH_GAP -> gate (pulse_ch_a g) = 0 ->
   phase (pulse_ch_a (run es g)) = PH_GAP /\ gate (pulse_ch_a (run es g)) = 0 /\
   pin (run es g) HBRIDGE_CH_A_POS = false /\ pin (run es g) HBRIDGE_CH_A_NEG = false) /\
  (Forall gate_stays_off_b es ->
   phase (pulse_ch_b g) = PH_GAP -> gate (pulse_ch_b g) = 0 ->
   phase (pulse_ch_b (run es g)) = PH_GAP /\ gate (pulse_ch_b (run es g)) = 0 /\
   pin (run es g) HBRIDGE_CH_B_POS = false /\ pin (run es g) HBRIDGE_CH_B_NEG = false).
Proof.
  intros Hinv.
  assert (Hpins : pins_follow_phase (run es g)).
  { clear -Hinv. revert g Hinv. induction es as [|e es IH]; intros g H; [exact H|].
    cbn [run fold_left]. apply IH, step_pins_follow_phase, H. }
  destruct Hpins as (Ha & Hb & Hc & Hd).
  split.
  - intros Hes Hp Hg.
    assert (H : phase (pulse_ch_a (run es g)) = PH_GAP /\ gate (pulse_ch_a (run es g)) = 0).
    { clear -Hes Hp Hg. revert g Hp Hg.
      induction Hes as [|e es He Hes IH]; intros g Hp Hg; [auto|].
      cbn [run fold_left].
      destruct (step_idle_a e g He Hp Hg) as (Hp' & Hg' & _). apply IH; assumption. }
    destruct H as (Hp' & Hg'). repeat split; auto.
    + destruct (pin (run es g) HBRIDGE_CH_A_POS); [|reflexivity].
      specialize (Ha eq_refl). congruence.
    + destruct (pin (run es g) HBRIDGE_CH_A_NEG); [|reflexivity].
      specialize (Hb eq_refl). congruence.
  - intros Hes Hp Hg.
    assert (H : phase (pulse_ch_b (run es g)) = PH_GAP /\ gate (pulse_ch_b (run es g)) = 0).
    { clear -Hes Hp Hg. revert g Hp Hg.
      induction Hes as [|e es He Hes IH]; intros g Hp Hg; [auto|].
      cbn [run fold_left].
      destruct (step_idle_b e g He Hp Hg) as (Hp' & Hg'). apply IH; assumption. }
    destruct H as (Hp' & Hg'). repeat split; auto.
    + destruct (pin (run es g) HBRIDGE_CH_B_POS); [|reflexivity].
      specialize (Hc eq_refl). congruence.
    + destruct (pin (run es g) HBRIDGE_CH_B_NEG); [|reflexivity].
      specialize (Hd eq_refl). congruence.
Qed.


Lemma gate_off_keeps_idle_witness :
  phase (pulse_ch_a (run idle_events (pulse_gen_init 0xFF))) = PH_GAP /\
  gate (pulse_ch_a (run idle_events (pulse_gen_init 0xFF))) = 0 /\
  pin (run idle_events (pulse_gen_init 0xFF)) HBRIDGE_CH_A_POS = false /\
  pin (run idle_events (pulse_gen_init 0xFF)) HBRIDGE_CH_A_NEG = false.
Proof.
  apply (gate_off_keeps_idle idle_events (pulse_gen_init 0xFF)).
  - vm_compute. repeat split; intros H; discriminate H.
  - repeat constructor.
  - reflexivity.
  - reflexivity.
Defined.

(** The ISRs phase by phase. *)
Lemma isr_a_positive g :
  phase (pulse_ch_a g) = PH_POSITIVE ->
  isr_timer1_compa g =
    set_ch_a (with_phase PH_DEADTIME1 (pulse_ch_a g))
      (set_ocr1a DEAD_TIME_TICKS (set_PORTB (ch_a_all_off (PORTB g)) g)).
Proof. intros H. unfold isr_timer1_compa. rewrite H. reflexivity. Qed.

Lemma isr_a_deadtime1 g :
  phase (pulse_ch_a g) = PH_DEADTIME1 ->
  isr_timer1_compa g =
    set_ch_a (with_phase PH_NEGATIVE (pulse_ch_a g))
      (set_ocr1a (width_ticks (pulse_ch_a g)) (set_PORTB (ch_a_negative (PORTB g)) g)).
Proof. intros H. unfold isr_timer1_compa. rewrite H. reflexivity. Qed.

Lemma isr_a_negative g :
  phase (pulse_ch_a g) = PH_NEGATIVE ->
  isr_timer1_compa g =
    set_ch_a (with_phase PH_DEADTIME2 (pulse_ch_a g))
      (set_ocr1a DEAD_TIME_TICKS (set_PORTB (ch_a_all_off (PORTB g)) g)).
Proof. intros H. unfold isr_timer1_compa. rewrite H. reflexivity. Qed.

Lemma isr_a_deadtime2 g :
  phase (pulse_ch_a g) = PH_DEADTIME2 ->
  isr_timer1_compa g =
    set_ch_a (with_phase PH_GAP (pulse_ch_a g))
      (set_ocr1a (gap_ticks (width_ticks (pulse_ch_a g)) (period_ticks (pulse_ch_a g))) g).
Proof. intros H. unfold isr_timer1_compa. rewrite H. reflexivity. Qed.

Lemma isr_a_gap_on g :
  phase (pulse_ch_a g) = PH_GAP -> gate (pulse_ch_a g) <> 0 ->
  isr_timer1_compa g =
    set_ch_a (with_phase PH_POSITIVE (latch_pending (pulse_ch_a g)))
      (set_ocr1a (width_ticks (latch_pending (pulse_ch_a g)))
         (set_PORTB (ch_a_positive (PORTB g)) (set_ch_a (latch_pending (pulse_ch_a g)) g))).
Proof.
  intros H Hg. unfold isr_timer1_compa. rewrite H. cbv zeta. rewrite latch_gate.
  unfold nonzero. destruct (Z.eqb_spec (gate (pulse_ch_a g)) 0); [contradiction|]. reflexivity.
Qed.

Lemma isr_b_positive g :
  phase (pulse_ch_b g) = PH_POSITIVE ->
  isr_timer2_comp g =
    set_ch_b (with_phase PH_DEADTIME1 (pulse_ch_b g))
      (set_OCR2 DEAD_TIME_TICKS (set_PORTB (ch_b_all_off (PORTB g)) g)).
Proof. intros H. unfold isr_timer2_comp. rewrite H. reflexivity. Qed.

Lemma isr_b_deadtime1 g :
  phase (pulse_ch_b g) = PH_DEADTIME1 ->
  isr_timer2_comp g =
    set_ch_b (with_phase PH_NEGATIVE (pulse_ch_b g))
      (set_OCR2 (width_ticks (pulse_ch_b g)) (set_PORTB (ch_b_negative (PORTB g)) g)).
Proof. intros H. unfold isr_timer2_comp. rewrite H. reflexivity. Qed.

Lemma isr_b_negative g :
  phase (pulse_ch_b g) = PH_NEGATIVE ->
  isr_timer2_comp g =
    set_ch_b (with_phase PH_DEADTIME2 (pulse_ch_b g))
      (set_OCR2 DEAD_TIME_TICKS (set_PORTB (ch_b_all_off (PORTB g)) g)).
Proof. intros H. unfold isr_timer2_comp. rewrite H. reflexivity. Qed.

Lemma isr_b_gap_on g :
  phase (pulse_ch_b g) = PH_GAP -> gap_remaining (pulse_ch_b g) = 0 ->
  gate (pulse_ch_b g) <> 0 ->
  isr_timer2_comp g =
    set_ch_b (with_phase PH_POSITIVE (latch_pending (pulse_ch_b g)))
      (set_OCR2 (width_ticks (latch_pending (pulse_ch_b g)))
         (set_PORTB (ch_b_positive (PORTB g)) (set_ch_b (latch_pending (pulse_ch_b g)) g))).
Proof.
  intros H Hr Hg. unfold isr_timer2_comp. rewrite H, Hr. cbv zeta.
  change (0 >? 0) with false. cbv iota. rewrite latch_gate.
  unfold nonzero. destruct (Z.eqb_spec (gate (pulse_ch_b g)) 0); [contradiction|]. reflexivity.
Qed.

Lemma set_ocr1a_PORTB v g : PORTB (set_ocr1a v g) = PORTB g.
Proof. reflexivity. Qed.

(** X3. The gate is looked at in PH_GAP only. [pulse_set_gate_a(PULSE_OFF)]
    during the positive half drives both pins low at once, but the next
    two ISR invocations carry the cycle on: the negative pin is driven
    high for the full width although the gate is off. *)
Theorem gate_off_in_pulse_completes_cycle (g : PulseGen) :
  phase (pulse_ch_a g) = PH_POSITIVE -> 0 <= width_ticks (pulse_ch_a g) <= 255 ->
  let g1 := pulse_set_gate_a PULSE_OFF g in
  let g3 := isr_timer1_compa (isr_timer1_compa g1) in
  (pin g1 HBRIDGE_CH_A_POS = false /\ pin g1 HBRIDGE_CH_A_NEG = false) /\
  gate (pulse_ch_a g3) = PULSE_OFF /\
  phase (pulse_ch_a g3) = PH_NEGATIVE /\
  pin g3 HBRIDGE_CH_A_NEG = true /\
  OCR1A g3 = width_ticks (pulse_ch_a g).
Proof.
  intros Hp Hw g1 g3.
  assert (H1 : pulse_ch_a g1 = with_gate PULSE_OFF (pulse_ch_a g)) by reflexivity.
  assert (P1 : PORTB g1 = ch_a_all_off (PORTB g)) by reflexivity.
  destruct (ch_a_all_off_bits (PORTB g)) as (B2 & B3 & _ & _).
  split; [unfold pin; rewrite P1; auto|].
  subst g3. generalize dependent g1. intros g1 H1 P1.
  rewrite (isr_a_positive g1) by (rewrite H1; exact Hp).
  rewrite isr_a_deadtime1 by reflexivity.
  cbn [pulse_ch_a set_ch_a PORTB OCR1A].
  rewrite PulseFacts.set_ocr1a_value
    by (rewrite H1; cbn [width_ticks with_phase with_gate]; lia).
  rewrite H1. cbn [gate with_phase with_gate phase width_ticks].
  unfold pin. cbn [PORTB set_ch_a]. rewrite set_ocr1a_PORTB. cbn [PORTB set_PORTB].
  destruct (ch_a_negative_bits (PORTB (set_ocr1a DEAD_TIME_TICKS
              (set_PORTB (ch_a_all_off (PORTB g1)) g1)))) as (_ & N3 & _ & _).
  repeat split; auto.
Qed.

Lemma gate_off_in_pulse_completes_cycle_witness :
  let g := run [SetGateA 1; IsrA] (pulse_gen_init 0) in
  let g3 := isr_timer1_compa (isr_timer1_compa (pulse_set_gate_a PULSE_OFF g)) in
  gate (pulse_ch_a g3) = PULSE_OFF /\ pin g3 HBRIDGE_CH_A_NEG = true.
Proof.
  intros g g3.
  assert (Hp : phase (pulse_ch_a g) = PH_POSITIVE) by reflexivity.
  assert (Hw : 0 <= width_ticks (pulse_ch_a g) <= 255) by (vm_compute; split; discriminate).
  pose proof (gate_off_in_pulse_completes_cycle g Hp Hw) as H.
  cbv zeta in H. destruct H as (_ & H1 & _ & H2 & _). split; assumption.
Defined.


Lemma latch_in_range c : state_in_range c -> state_in_range (latch_pending c).
Proof.
  unfold latch_pending, state_in_range. destruct (nonzero (params_dirty c)); cbn; intuition lia.
Qed.

Lemma gap_total w p :
  0 <= w <= 255 -> 0 <= p <= 65535 ->
  w + DEAD_TIME_TICKS + w + DEAD_TIME_TICKS + gap_ticks w p
    = if p >? 2 * w + 8 then p else 2 * w + 12.
Proof.
  intros Hw Hp. destruct (PulseFacts.gap_ticks_cases w p Hw Hp) as (_ & H1 & H2).
  unfold DEAD_TIME_TICKS in *. destruct (Z.gtb_spec p (2 * w + 8)).
  - rewrite H2 by lia. lia.
  - rewrite H1 by lia. lia.
Qed.

(** X4. One cycle of channel A, from PH_GAP with the gate on: the five
    ISR invocations drive positive for [w], nothing for the dead time,
    negative for the same [w], nothing for the dead time and nothing for
    the gap, [w] and [p] being the pair latched at the start. The five
    times add up to the period when it exceeds [2 * w + 8], and to
    [2 * w + 12] otherwise. *)
Theorem biphasic_cycle (g : PulseGen) :
  state_in_range (pulse_ch_a g) -> phase (pulse_ch_a g) = PH_GAP ->
  gate (pulse_ch_a g) <> 0 ->
  let w := width_ticks (latch_pending (pulse_ch_a g)) in
  let p := period_ticks (latch_pending (pulse_ch_a g)) in
  let g1 := isr_timer1_compa g in
  let g2 := isr_timer1_compa g1 in
  let g3 := isr_timer1_compa g2 in
  let g4 := isr_timer1_compa g3 in
  let g5 := isr_timer1_compa g4 in
  map drive_a [g1; g2; g3; g4; g5] =
    [ (true, false, w); (false, false, DEAD_TIME_TICKS); (false, true, w);
      (false, false, DEAD_TIME_TICKS); (false, false, gap_ticks w p) ] /\
  phase (pulse_ch_a g5) = PH_GAP /\
  w + DEAD_TIME_TICKS + w + DEAD_TIME_TICKS + gap_ticks w p
    = (if p >? 2 * w + 8 then p else 2 * w + 12).
Proof.
  intros Hr Hp Hg w p g1 g2 g3 g4 g5.
  pose proof (latch_in_range _ Hr) as (Hw & Hpp & _).
  fold w in Hw. fold p in Hpp.
  assert (E1 : g1 = set_ch_a (with_phase PH_POSITIVE (latch_pending (pulse_ch_a g)))
      (set_ocr1a w (set_PORTB (ch_a_positive (PORTB g))
         (set_ch_a (latch_pending (pulse_ch_a g)) g)))) by (apply isr_a_gap_on; assumption).
  assert (E2 : g2 = set_ch_a (with_phase PH_DEADTIME1 (pulse_ch_a g1))
      (set_ocr1a DEAD_TIME_TICKS (set_PORTB (ch_a_all_off (PORTB g1)) g1))).
  { apply isr_a_positive. rewrite E1. reflexivity. }
  assert (E3 : g3 = set_ch_a (with_phase PH_NEGATIVE (pulse_ch_a g2))
      (set_ocr1a (width_ticks (pulse_ch_a g2)) (set_PORTB (ch_a_negative (PORTB g2)) g2))).
  { apply isr_a_deadtime1. rewrite E2. reflexivity. }
  assert (E4 : g4 = set_ch_a (with_phase PH_DEADTIME2 (pulse_ch_a g3))
      (set_ocr1a DEAD_TIME_TICKS (set_PORTB (ch_a_all_off (PORTB g3)) g3))).
  { apply isr_a_negative. rewrite E3. reflexivity. }
  assert (E5 : g5 = set_ch_a (with_phase PH_GAP (pulse_ch_a g4))
      (set_ocr1a (gap_ticks (width_ticks (pulse_ch_a g4)) (period_ticks (pulse_ch_a g4))) g4)).
  { apply isr_a_deadtime2. rewrite E4. reflexivity. }
  assert (W1 : width_ticks (pulse_ch_a g1) = w /\ period_ticks (pulse_ch_a g1) = p)
    by (rewrite E1; split; reflexivity).
  assert (W2 : width_ticks (pulse_ch_a g2) = w /\ period_ticks (pulse_ch_a g2) = p)
    by (rewrite E2; exact W1).
  assert (W3 : width_ticks (pulse_ch_a g3) = w /\ period_ticks (pulse_ch_a g3) = p)
    by (rewrite E3; exact W2).
  assert (W4 : width_ticks (pulse_ch_a g4) = w /\ period_ticks (pulse_ch_a g4) = p)
    by (rewrite E4; exact W3).
  destruct W2 as (W2 & _). destruct W4 as (W4 & P4).
  rewrite W2 in E3. rewrite W4, P4 in E5.
  clearbody g1 g2 g3 g4 g5.
  split; [|split].
  - cbn [map]. unfold drive_a, pin.
    destruct (ch_a_positive_bits (PORTB g)) as (A1 & A2 & _).
    destruct (ch_a_all_off_bits (PORTB g1)) as (B1 & B2 & _).
    destruct (ch_a_negative_bits (PORTB g2)) as (C1 & C2 & _).
    destruct (ch_a_all_off_bits (PORTB g3)) as (D1 & D2 & _).
    assert (O1 : OCR1A g1 = w) by (rewrite E1; apply PulseFacts.set_ocr1a_value; lia).
    assert (O2 : OCR1A g2 = DEAD_TIME_TICKS)
      by (rewrite E2; apply PulseFacts.set_ocr1a_value; unfold DEAD_TIME_TICKS; lia).
    assert (O3 : OCR1A g3 = w) by (rewrite E3; apply PulseFacts.set_ocr1a_value; lia).
    assert (O4 : OCR1A g4 = DEAD_TIME_TICKS)
      by (rewrite E4; apply PulseFacts.set_ocr1a_value; unfold DEAD_TIME_TICKS; lia).
    assert (O5 : OCR1A g5 = gap_ticks w p)
      by (rewrite E5; apply PulseFacts.set_ocr1a_value, PulseFacts.gap_ticks_range).
    assert (Q1 : PORTB g1 = ch_a_positive (PORTB g)) by (rewrite E1; reflexivity).
    assert (Q2 : PORTB g2 = ch_a_all_off (PORTB g1)) by (rewrite E2; reflexivity).
    assert (Q3 : PORTB g3 = ch_a_negative (PORTB g2)) by (rewrite E3; reflexivity).
    assert (Q4 : PORTB g4 = ch_a_all_off (PORTB g3)) by (rewrite E4; reflexivity).
    assert (Q5 : PORTB g5 = PORTB g4) by (rewrite E5; reflexivity).
    rewrite O1, O2, O3, O4, O5, Q5, Q4, Q3, Q2, Q1 in *.
    unfold HBRIDGE_CH_A_POS, HBRIDGE_CH_A_NEG.
    rewrite A1, A2, B1, B2, C1, C2, D1, D2. reflexivity.
  - rewrite E5. reflexivity.
  - apply gap_total; lia.
Qed.

Lemma biphasic_cycle_witness :
  let g := run [SetWidthA 200; SetFrequencyA 1000; SetGateA 1] (pulse_gen_init 0) in
  map drive_a
    [ run [IsrA] g; run [IsrA; IsrA] g; run [IsrA; IsrA; IsrA] g;
      run [IsrA; IsrA; IsrA; IsrA] g; run [IsrA; IsrA; IsrA; IsrA; IsrA] g ] =
    [ (true, false, 200); (false, false, 4); (false, true, 200); (false, false, 4);
      (false, false, 592) ].
Proof.
  intros g.
  assert (Hr : state_in_range (pulse_ch_a g)) by (vm_compute; intuition discriminate).
  assert (Hp : phase (pulse_ch_a g) = PH_GAP) by reflexivity.
  assert (Hg : gate (pulse_ch_a g) <> 0) by (vm_compute; discriminate).
  exact (proj1 (biphasic_cycle g Hr Hp Hg)).
Defined.


Lemma latch_clamped c : clamped c -> clamped (latch_pending c).
Proof.
  unfold latch_pending, clamped. destruct (nonzero (params_dirty c)); cbn; intuition lia.
Qed.

Lemma step_clamped e g :
  event_in_range e -> clamped (pulse_ch_a g) -> clamped (pulse_ch_b g) ->
  clamped (pulse_ch_a (step e g)) /\ clamped (pulse_ch_b (step e g)).
Proof.
  intros He Ha Hb. destruct e; cbn [step event_in_range] in *.
  - unfold isr_timer1_compa. pose proof (latch_clamped _ Ha) as Hl.
    destruct (phase (pulse_ch_a g)); cbv zeta;
      repeat match goal with |- context [if ?b then _ else _] => destruct b end;
      cbn [pulse_ch_a pulse_ch_b set_ch_a set_ocr1a set_OCR1A set_PORTB];
      split; auto.
  - unfold isr_timer2_comp. pose proof (latch_clamped _ Hb) as Hl.
    destruct (phase (pulse_ch_b g)); cbv zeta;
      repeat match goal with |- context [if ?b then _ else _] => destruct b end;
      cbn [pulse_ch_a pulse_ch_b set_ch_b set_OCR2 set_PORTB];
      split; auto.
  - unfold pulse_set_width_a, clamped in *. cbn. destruct (Z.ltb_spec w 70); intuition lia.
  - unfold pulse_set_width_b, clamped in *. cbn. destruct (Z.ltb_spec w 70); intuition lia.
  - unfold pulse_set_frequency_a, clamped in *. cbn. destruct (Z.ltb_spec p 500); intuition lia.
  - unfold pulse_set_frequency_b, clamped in *. cbn. destruct (Z.ltb_spec p 500); intuition lia.
  - unfold pulse_set_gate_a. cbv zeta. destruct (nonzero on); cbn; auto.
  - unfold pulse_set_gate_b. cbv zeta. destruct (nonzero on); cbn; auto.
Qed.

(** X5. From [pulse_gen_init] on, whatever is submitted in whatever
    interleaving, the active and the pending width stay in 70..255 and
    the active and the pending period in 500..65535, on both channels. *)
Theorem active_parameters_clamped (es : list event) (portb : Z) :
  Forall event_in_range es ->
  clamped (pulse_ch_a (run es (pulse_gen_init portb))) /\
  clamped (pulse_ch_b (run es (pulse_gen_init portb))).
Proof.
  intros Hes.
  assert (H0 : clamped (pulse_ch_a (pulse_gen_init portb)) /\
               clamped (pulse_ch_b (pulse_gen_init portb))).
  { unfold clamped. cbn. lia. }
  revert H0. generalize (pulse_gen_init portb).
  induction Hes as [|e es He Hes IH]; intros g (Ha & Hb); [auto|].
  cbn [run fold_left]. apply IH, step_clamped; assumption.
Qed.

Lemma active_parameters_clamped_witness :
  clamped (pulse_ch_a (run narrow_gap_events (pulse_gen_init 0))) /\
  clamped (pulse_ch_b (run narrow_gap_events (pulse_gen_init 0))).
Proof.
  apply active_parameters_clamped.
  repeat (apply List.Forall_cons; [cbn; lia|]). apply List.Forall_nil.
Defined.

Lemma with_gap_remaining_same c : with_gap_remaining (gap_remaining c) c = c.
Proof. destruct c; reflexivity. Qed.

Lemma gap_countdown_steps n : forall g,
  phase (pulse_ch_b g) = PH_GAP -> 0 <= gap_remaining (pulse_ch_b g) <= 65535 ->
  Z.of_nat n = (gap_remaining (pulse_ch_b g) + 249) / 250 ->
  let '(l, g') := isr_b_chunks n g in
  Forall (fun c => 1 <= c <= 250) l /\
  fold_right Z.add 0 l = gap_remaining (pulse_ch_b g) /\
  pulse_ch_b g' = with_gap_remaining 0 (pulse_ch_b g) /\
  pulse_ch_a g' = pulse_ch_a g /\ PORTB g' = PORTB g /\ OCR1A g' = OCR1A g.
Proof.
  induction n as [|n IH]; intros g Hp Hr Hn.
  - cbn [isr_b_chunks].
    assert (gap_remaining (pulse_ch_b g) = 0).
    { destruct (Z.eq_dec (gap_remaining (pulse_ch_b g)) 0) as [|Hne]; [assumption|].
      assert (1 <= (gap_remaining (pulse_ch_b g) + 249) / 250)
        by (apply Z.div_le_lower_bound; lia).
      lia. }
    repeat split; auto.
    rewrite <- H at 1. symmetry. apply with_gap_remaining_same.
  - cbn [isr_b_chunks].
    set (r := gap_remaining (pulse_ch_b g)) in *.
    assert (Hpos : 0 < r).
    { destruct (Z.eq_dec r 0) as [E|]; [|lia]. rewrite E in Hn. vm_compute in Hn. lia. }
    assert (Hisr : isr_timer2_comp g =
      set_ch_b (with_gap_remaining (r - (if r >? 250 then 250 else r)) (pulse_ch_b g))
        (set_OCR2 (if r >? 250 then 250 else r) g)).
    { unfold isr_timer2_comp. rewrite Hp. cbv zeta. fold r.
      destruct (Z.gtb_spec r 0); [|lia].
      destruct (Z.gtb_spec r 250).
      - unfold u8, u16. rewrite !Z.mod_small by lia. reflexivity.
      - unfold u8, u16. rewrite Z.sub_diag. rewrite !Z.mod_small by lia. reflexivity. }
    rewrite Hisr.
    set (chunk := if r >? 250 then 250 else r) in *.
    assert (Hc : 1 <= chunk <= 250 /\ chunk <= r).
    { unfold chunk. destruct (Z.gtb_spec r 250); lia. }
    set (g1 := set_ch_b (with_gap_remaining (r - chunk) (pulse_ch_b g)) (set_OCR2 chunk g)).
    specialize (IH g1).
    assert (Hr1 : gap_remaining (pulse_ch_b g1) = r - chunk) by reflexivity.
    rewrite Hr1 in IH.
    assert (Hn1 : Z.of_nat n = (r - chunk + 249) / 250).
    { unfold chunk. destruct (Z.gtb_spec r 250).
      - replace (r - 250 + 249) with ((r + 249) + (-1) * 250) by lia.
        rewrite Z.div_add by lia. lia.
      - replace (r - r + 249) with 249 by lia.
        assert ((r + 249) / 250 = 1).
        { symmetry. apply (Z.div_unique_pos _ _ 1 (r - 1)); lia. }
        change (249 / 250) with 0. lia. }
    specialize (IH ltac:(exact Hp) ltac:(lia) Hn1).
    destruct (isr_b_chunks n g1) as (l, g').
    destruct IH as (Hl & Hs & Hb & Ha & Hpb & Ho).
    split; [|split; [|split; [|split; [|split]]]].
    + apply List.Forall_cons; [cbn; lia | exact Hl].
    + cbn [fold_right OCR2 g1 set_ch_b set_OCR2]. rewrite Hs. lia.
    + rewrite Hb. reflexivity.
    + rewrite Ha. reflexivity.
    + rewrite Hpb. reflexivity.
    + rewrite Ho. reflexivity.
Qed.

(** X6. The countdown of channel B's gap: with [r] microseconds left in
    [gap_remaining], the next [ceil(r / 250)] ISR invocations program
    compare values between 1 and 250 that add up to [r], leave
    [gap_remaining] at 0 and change nothing else: no latch, no pin, no
    phase, nothing of channel A. *)
Theorem gap_countdown_b (g : PulseGen) :
  phase (pulse_ch_b g) = PH_GAP -> 0 <= gap_remaining (pulse_ch_b g) <= 65535 ->
  let n := Z.to_nat ((gap_remaining (pulse_ch_b g) + 249) / 250) in
  let l := fst (isr_b_chunks n g) in
  let g' := snd (isr_b_chunks n g) in
  Forall (fun c => 1 <= c <= 250) l /\
  fold_right Z.add 0 l = gap_remaining (pulse_ch_b g) /\
  pulse_ch_b g' = with_gap_remaining 0 (pulse_ch_b g) /\
  pulse_ch_a g' = pulse_ch_a g /\ PORTB g' = PORTB g /\ OCR1A g' = OCR1A g.
Proof.
  intros Hp Hr n l g'.
  pose proof (gap_countdown_steps n g Hp Hr) as H.
  assert (Hn : Z.of_nat n = (gap_remaining (pulse_ch_b g) + 249) / 250).
  { unfold n. rewrite Z2Nat.id; [reflexivity|]. apply Z.div_pos; lia. }
  specialize (H Hn). subst l g'. destruct (isr_b_chunks n g). exact H.
Qed.


Lemma gap_countdown_b_witness :
  fold_right Z.add 0 (fst (isr_b_chunks 19 in_long_gap)) = 4542 /\
  gap_remaining (pulse_ch_b (snd (isr_b_chunks 19 in_long_gap))) = 0.
Proof.
  assert (Hp : phase (pulse_ch_b in_long_gap) = PH_GAP) by reflexivity.
  assert (Hr : 0 <= gap_remaining (pulse_ch_b in_long_gap) <= 65535)
    by (vm_compute; split; discriminate).
  pose proof (gap_countdown_b in_long_gap Hp Hr) as H. cbv zeta in H.
  destruct H as (_ & H1 & H2 & _). split.
  - exact H1.
  - change (Z.to_nat ((gap_remaining (pulse_ch_b in_long_gap) + 249) / 250)) with 19%nat in H2.
    rewrite H2. reflexivity.
Defined.

(** The ISRs never write a gate. *)
Lemma step_gate_off_a e g :
  gate_stays_off_a e -> gate (pulse_ch_a g) = PULSE_OFF ->
  gate (pulse_ch_a (step e g)) = PULSE_OFF.
Proof.
  intros He Hg. destruct e; cbn [step gate_stays_off_a] in *.
  - unfold isr_timer1_compa. destruct (phase (pulse_ch_a g)); cbv zeta;
      repeat match goal with |- context [if ?b then _ else _] => destruct b end;
      cbn; rewrite ?latch_gate; exact Hg.
  - unfold isr_timer2_comp. destruct (phase (pulse_ch_b g)); cbv zeta;
      repeat match goal with |- context [if ?b then _ else _] => destruct b end;
      exact Hg.
  - exact Hg.
  - exact Hg.
  - exact Hg.
  - exact Hg.
  - subst on. reflexivity.
  - unfold pulse_set_gate_b. cbv zeta. destruct (nonzero on); exact Hg.
Qed.

Lemma step_gate_off_b e g :
  gate_stays_off_b e -> gate (pulse_ch_b g) = PULSE_OFF ->
  gate (pulse_ch_b (step e g)) = PULSE_OFF.
Proof.
  intros He Hg. destruct e; cbn [step gate_stays_off_b] in *.
  - unfold isr_timer1_compa. destruct (phase (pulse_ch_a g)); cbv zeta;
      repeat match goal with |- context [if ?b then _ else _] => destruct b end;
      exact Hg.
  - unfold isr_timer2_comp. destruct (phase (pulse_ch_b g)); cbv zeta;
      repeat match goal with |- context [if ?b then _ else _] => destruct b end;
      cbn; rewrite ?latch_gate; exact Hg.
  - exact Hg.
  - exact Hg.
  - exact Hg.
  - exact Hg.
  - unfold pulse_set_gate_a. cbv zeta. destruct (nonzero on); exact Hg.
  - subst on. reflexivity.
Qed.

Lemma run_gate_off es : forall g,
  (Forall gate_stays_off_a es -> gate (pulse_ch_a g) = PULSE_OFF ->
   gate (pulse_ch_a (run es g)) = PULSE_OFF) /\
  (Forall gate_stays_off_b es -> gate (pulse_ch_b g) = PULSE_OFF ->
   gate (pulse_ch_b (run es g)) = PULSE_OFF).
Proof.
  induction es as [|e es IH]; intros g; [split; intros _ H; exact H|].
  change (run (e :: es) g) with (run es (step e g)).
  destruct (IH (step e g)) as [IHa IHb]. split; intros Hes Hg.
  - inversion Hes; subst. apply IHa; [assumption|]. apply step_gate_off_a; assumption.
  - inversion Hes; subst. apply IHb; [assumption|]. apply step_gate_off_b; assumption.
Qed.

End PulseSafety.

(** ** Output stage: level, DAC words and the output copy *)

Module LevelFacts.
Import ChannelMem Pulse Dac MainLoop Scenarios WordFacts.

Lemma dac_value_bounds base modulation v iv rv mr :
  0 <= v <= 1023 -> 0 <= iv <= 255 -> 0 <= rv <= 255 -> 0 <= mr <= 255 ->
  0 <= base -> 0 <= modulation -> base + modulation <= 1023 ->
  let d := channel_dac_value base modulation v iv rv mr in
  base <= d <= 1023 /\
  (iv = 0 \/ rv = 0 \/ mr = 0 -> d = 1023).
Proof.
  intros Hv Hiv Hrv Hmr Hb Hm Hbm d. subst d. unfold channel_dac_value.
  unfold DAC_MAX_VALUE.
  assert (E1 : u16 (1023 - v) = 1023 - v) by (unfold u16; apply Z.mod_small; lia).
  rewrite E1.
  assert (Hq : 0 <= modulation * (1023 - v) / 1024 <= modulation).
  { split; [apply Z.div_pos; nia|]. apply Z.div_le_upper_bound; nia. }
  assert (E2 : (modulation * (1023 - v)) mod 2 ^ 32 = modulation * (1023 - v)).
  { apply Z.mod_small. change (2 ^ 32) with 4294967296. nia. }
  rewrite E2.
  set (q := modulation * (1023 - v) / 1024) in *.
  assert (E3 : u16 (base + q) = base + q) by (unfold u16; apply Z.mod_small; lia).
  rewrite E3.
  destruct (Z.gtb_spec (base + q) 1023) as [Hgt|Hle]; [lia|].
  set (d0 := base + q) in *.
  set (i1 := ramp_scale_intensity iv rv).
  assert (Hi1 : 0 <= i1 <= 255) by apply u8_range.
  set (i2 := u8 (u16 (i1 * mr) / 100)).
  assert (Hi2 : 0 <= i2 <= 255) by apply u8_range.
  assert (E4 : u16 (1023 - d0) = 1023 - d0) by (unfold u16; apply Z.mod_small; lia).
  rewrite E4.
  assert (E5 : ((1023 - d0) * i2) mod 2 ^ 32 = (1023 - d0) * i2).
  { apply Z.mod_small. change (2 ^ 32) with 4294967296. nia. }
  rewrite E5, shiftr_div by lia. change (2 ^ 8) with 256.
  assert (Hs : 0 <= (1023 - d0) * i2 / 256 <= 1023 - d0).
  { split; [apply Z.div_pos; nia|]. apply Z.div_le_upper_bound; nia. }
  set (a := (1023 - d0) * i2 / 256) in *.
  assert (E6 : u16 a = a) by (unfold u16; apply Z.mod_small; lia).
  rewrite E6.
  assert (E7 : u16 (1023 - a) = 1023 - a) by (unfold u16; apply Z.mod_small; lia).
  rewrite E7. split; [lia|].
  intros Hz.
  assert (i2 = 0).
  { unfold i2.
    assert (Hi10 : iv = 0 \/ rv = 0 -> i1 = 0).
    { intros [-> | ->]; unfold i1, ramp_scale_intensity; rewrite ?Z.mul_0_l, ?Z.mul_0_r;
        reflexivity. }
    destruct Hz as [Hz | [Hz | Hz]].
    - rewrite Hi10 by auto. reflexivity.
    - rewrite Hi10 by auto. reflexivity.
    - subst mr. rewrite Z.mul_0_r. reflexivity. }
  unfold a. rewrite H, Z.mul_0_r. reflexivity.
Qed.

Lemma applyPowerLevel_applied pl ps :
  pl <> last_power_level ps \/ power_applied ps -> power_applied (applyPowerLevel pl ps).
Proof.
  intros H. unfold applyPowerLevel.
  destruct (Z.eqb_spec pl (last_power_level ps)) as [E|E].
  - destruct H as [H|H]; [contradiction|exact H].
  - unfold power_applied. destruct (pl =? 0); [|destruct (pl =? 2)]; cbn; intuition.
Qed.

Lemma apply_levels_applied pls : forall ps,
  power_applied ps -> power_applied (fold_left (fun s pl => applyPowerLevel pl s) pls ps).
Proof.
  induction pls as [|pl pls IH]; intros ps H; [exact H|].
  cbn [fold_left]. apply IH, applyPowerLevel_applied. right. exact H.
Qed.

Lemma apply_levels_boot pls :
  (Exists (fun pl => pl <> 0xFF) pls ->
   power_applied (fold_left (fun s pl => applyPowerLevel pl s) pls boot_power)) /\
  (Forall (fun pl => pl = 0xFF) pls ->
   fold_left (fun s pl => applyPowerLevel pl s) pls boot_power = boot_power).
Proof.
  induction pls as [|pl pls [IHe IHf]].
  - split; [intros H; inversion H | reflexivity].
  - cbn [fold_left]. split.
    + intros H. destruct (Z.eq_dec pl 0xFF) as [->|Hne].
      * change (applyPowerLevel 255 boot_power) with boot_power. apply IHe.
        inversion H; subst; [contradiction|assumption].
      * apply apply_levels_applied, applyPowerLevel_applied. left. exact Hne.
    + intros H. inversion H; subst.
      change (applyPowerLevel 255 boot_power) with boot_power. apply IHf. assumption.
Qed.

Lemma apply_levels_cases pls :
  fold_left (fun s pl => applyPowerLevel pl s) pls boot_power = boot_power \/
  power_applied (fold_left (fun s pl => applyPowerLevel pl s) pls boot_power).
Proof.
  induction pls as [|pl pls IH]; [left; reflexivity|].
  cbn [fold_left]. destruct (Z.eq_dec pl 0xFF) as [->|Hne].
  - exact IH.
  - right. apply apply_levels_applied, applyPowerLevel_applied. left. exact Hne.
Qed.

Lemma level_written c lockout menu_ramp v ps r spi :
  ChannelAPwrBase ps = ChannelBPwrBase ps ->
  ChannelAModulationBase ps = ChannelBModulationBase ps ->
  let ch := if c =? 0 then channel_a r else channel_b r in
  let res := readAndUpdateChannel c lockout menu_ramp v ps r spi in
  let d := channel_dac_value (ChannelAPwrBase ps) (ChannelAModulationBase ps) v
             (fld ch o_intensity_value) (fld ch o_ramp_value) menu_ramp in
  0 <= fst res <= 99 /\
  (Z.land lockout 1 <> 0 -> res = (0, spi)) /\
  (Z.land lockout 1 = 0 ->
   snd res = (if c =? 0 then dac_write_channel_a d spi else dac_write_channel_b d spi)).
Proof.
  intros Eb Em ch res d. subst res d ch. unfold readAndUpdateChannel, nonzero.
  destruct (Z.eqb_spec (Z.land lockout 1) 0) as [E0|E0]; cbn [negb fst snd].
  - assert (Hbv : forall x, 0 <= Z.min 99 (Z.max 0 (u8 x)) <= 99).
    { intros x. pose proof (u8_range x). lia. }
    destruct (Z.eqb_spec c 0) as [Ec|Ec]; cbn [fst snd].
    + split; [apply Hbv|]. split; [intros; contradiction|]. intros _. reflexivity.
    + split; [apply Hbv|]. split; [intros; contradiction|]. intros _.
      rewrite <- Eb, <- Em. reflexivity.
  - split; [lia|]. split; [reflexivity|]. intros; contradiction.
Qed.

(** X7. The DAC value [readAndUpdateChannel] writes for a 10-bit pot
    reading and byte registers, after any sequence of [applyPowerLevel]
    calls from the boot state: it is at most 1023, and 1023 (output
    off) when the intensity value, the ramp value or the menu ramp is
    0. Once one of the calls had a power level other than 0xFF, the
    initial value of [last_power_level], one of the three table pairs
    is in force and the value is at least the power level's base, which
    is at least 500. As long as every call had power level 0xFF the
    call returned at once, the bases are still 0, and with full
    intensity and ramp and menu ramp 100 the value is 8, whatever the
    pot reading. With the pot lockout bit set nothing is written and 0
    is returned; the returned display value never exceeds 99. *)
Theorem output_level_bounded (pls : list Z) (c lockout menu_ramp v : Z)
    (r : Regs) (spi : list Z) :
  0 <= v <= 1023 -> 0 <= menu_ramp <= 255 ->
  0 <= fld (channel_a r) o_intensity_value <= 255 ->
  0 <= fld (channel_a r) o_ramp_value <= 255 ->
  0 <= fld (channel_b r) o_intensity_value <= 255 ->
  0 <= fld (channel_b r) o_ramp_value <= 255 ->
  let ps := fold_left (fun s pl => applyPowerLevel pl s) pls boot_power in
  let ch := if c =? 0 then channel_a r else channel_b r in
  let res := readAndUpdateChannel c lockout menu_ramp v ps r spi in
  0 <= fst res <= 99 /\
  (Z.land lockout 1 <> 0 -> res = (0, spi)) /\
  (Z.land lockout 1 = 0 ->
   exists d,
     snd res = (if c =? 0 then dac_write_channel_a d spi else dac_write_channel_b d spi) /\
     0 <= d <= DAC_MAX_VALUE /\
     (fld ch o_intensity_value = 0 \/ fld ch o_ramp_value = 0 \/ menu_ramp = 0 ->
      d = DAC_MAX_VALUE) /\
     (Exists (fun pl => pl <> 0xFF) pls ->
      power_applied ps /\ 500 <= ChannelAPwrBase ps <= d) /\
     (Forall (fun pl => pl = 0xFF) pls ->
      ps = boot_power /\
      (fld ch o_intensity_value = 255 -> fld ch o_ramp_value = 255 -> menu_ramp = 100 ->
       d = 8))).
Proof.
  intros Hv Hmr Hia Hra Hib Hrb ps ch res.
  destruct (apply_levels_boot pls) as [Hex Hall]. fold ps in Hex, Hall.
  assert (Hps : ps = boot_power \/ power_applied ps).
  { apply apply_levels_cases. }
  assert (Hsame : ChannelAPwrBase ps = ChannelBPwrBase ps /\
                  ChannelAModulationBase ps = ChannelBModulationBase ps).
  { destruct Hps as [->|[H _]]; [split; reflexivity|exact H]. }
  assert (Hbase : 0 <= ChannelAPwrBase ps /\ 0 <= ChannelAModulationBase ps /\
                  ChannelAPwrBase ps + ChannelAModulationBase ps <= 1023 /\
                  (power_applied ps -> 500 <= ChannelAPwrBase ps)).
  { destruct Hps as [->|[_ Htab]].
    - cbn. repeat split; try lia. intros [_ Htab]. cbn in Htab.
      unfold PWR_LEVEL_LOW_BASE, PWR_LEVEL_NORMAL_BASE, PWR_LEVEL_HIGH_BASE in Htab. lia.
    - unfold PWR_LEVEL_LOW_BASE, PWR_LEVEL_LOW_MOD, PWR_LEVEL_NORMAL_BASE,
        PWR_LEVEL_NORMAL_MOD, PWR_LEVEL_HIGH_BASE, PWR_LEVEL_HIGH_MOD in Htab. lia. }
  destruct Hsame as [Eb Em].
  destruct (level_written c lockout menu_ramp v ps r spi Eb Em) as (Hbv & Hlock & Hw).
  fold res in Hbv, Hlock, Hw. fold ch in Hw.
  split; [exact Hbv|]. split; [exact Hlock|]. intros Hl.
  eexists. split; [apply Hw, Hl|].
  assert (Hch : 0 <= fld ch o_intensity_value <= 255 /\ 0 <= fld ch o_ramp_value <= 255).
  { unfold ch. destruct (c =? 0); split; assumption. }
  destruct Hch as [Hi Hr].
  pose proof (dac_value_bounds (ChannelAPwrBase ps) (ChannelAModulationBase ps) v
                _ _ menu_ramp Hv Hi Hr Hmr ltac:(lia) ltac:(lia) ltac:(lia)) as H.
  cbv zeta in H. destruct H as [Hd Hz]. change DAC_MAX_VALUE with 1023.
  split; [lia|]. split; [exact Hz|]. split.
  - intros He. pose proof (Hex He) as Happ. split; [exact Happ|].
    split; [apply Hbase, Happ | lia].
  - intros Ha. split; [apply Hall, Ha|]. intros -> -> ->.
    rewrite (Hall Ha). unfold channel_dac_value, boot_power.
    cbn [ChannelAPwrBase ChannelAModulationBase].
    rewrite Z.mul_0_l. reflexivity.
Qed.

Lemma output_level_bounded_witness :
  500 <= ChannelAPwrBase (fold_left (fun s pl => applyPowerLevel pl s) [0xFF; 1] boot_power) /\
  snd (readAndUpdateChannel 0 0 100 512 (applyPowerLevel 0xFF boot_power)
         (mkRegs (set_fld o_intensity_value 255 (set_fld o_ramp_value 255 channel_defaults))
                 channel_defaults 0) [])
    = dac_write_channel_a 8 [].
Proof.
  split.
  - pose proof (output_level_bounded [0xFF; 1] 0 0 100 512
                  (mkRegs channel_defaults channel_defaults 0) []
                  ltac:(lia) ltac:(lia)
                  ltac:(vm_compute; split; discriminate) ltac:(vm_compute; split; discriminate)
                  ltac:(vm_compute; split; discriminate) ltac:(vm_compute; split; discriminate))
      as H.
    cbv zeta in H. destruct H as (_ & _ & H).
    destruct (H eq_refl) as (d & _ & _ & _ & He & _).
    destruct He as (_ & Hb & _).
    + apply Exists_cons_tl, Exists_cons_hd. discriminate.
    + exact Hb.
  - pose proof (output_level_bounded [0xFF] 0 0 100 512
                  (mkRegs (set_fld o_intensity_value 255
                             (set_fld o_ramp_value 255 channel_defaults))
                          channel_defaults 0) []
                  ltac:(lia) ltac:(lia)
                  ltac:(vm_compute; split; discriminate) ltac:(vm_compute; split; discriminate)
                  ltac:(vm_compute; split; discriminate) ltac:(vm_compute; split; discriminate))
      as H.
    cbv zeta in H. destruct H as (_ & _ & H).
    destruct (H eq_refl) as (d & Hw & _ & _ & _ & Ha).
    destruct (Ha (List.Forall_cons _ _ _ eq_refl (List.Forall_nil _))) as (_ & Hd).
    cbn [fold_left] in Hw. rewrite Hw. rewrite (Hd eq_refl eq_refl eq_refl). reflexivity.
Defined.

Lemma dac_word_check_all :
  all_upto 16 (fun c => all_upto 1024 (fun v => dac_word_check c v)) = true.
Proof. vm_compute. reflexivity. Qed.

Lemma dac_send_word_app cmd value spi :
  dac_send_word cmd value spi = spi ++ dac_send_word cmd value [].
Proof. reflexivity. Qed.

Lemma dac_send_word_clamps cmd value spi :
  dac_send_word cmd value spi = dac_send_word cmd (Z.min value DAC_MAX_VALUE) spi.
Proof.
  unfold dac_send_word, DAC_MAX_VALUE.
  destruct (Z.gtb_spec value 1023); destruct (Z.gtb_spec (Z.min value 1023) 1023);
    try lia.
  - rewrite Z.min_r by lia. reflexivity.
  - rewrite Z.min_l by lia. reflexivity.
Qed.

(** X8. The two bytes [dac_send_word] puts on the SPI bus carry the
    command nibble and the value clamped to 1023: they read back as
    [[CMD3:CMD0][D9:D6]] and [[D5:D0][XX]]. *)
Theorem dac_word_roundtrip (cmd value : Z) (spi : list Z) :
  0 <= cmd <= 255 -> Z.land cmd 0x0F = 0 -> 0 <= value ->
  exists hi lo,
    dac_send_word cmd value spi = spi ++ [hi; lo] /\
    0 <= hi <= 255 /\ 0 <= lo <= 255 /\
    dac_word_cmd hi = cmd /\
    dac_word_value hi lo = Z.min value DAC_MAX_VALUE.
Proof.
  intros Hc Hn Hv.
  rewrite dac_send_word_clamps, dac_send_word_app.
  set (v := Z.min value DAC_MAX_VALUE).
  assert (Hvr : 0 <= v < 1024) by (unfold v, DAC_MAX_VALUE; lia).
  assert (Hcm : cmd = (cmd / 16) * 16).
  { change 0x0F with (Z.ones 4) in Hn. rewrite Z.land_ones in Hn by lia.
    change (2 ^ 4) with 16 in Hn. pose proof (Z.div_mod cmd 16). lia. }
  assert (Hcr : 0 <= cmd / 16 < 16).
  { split; [apply Z.div_pos; lia|]. apply Z.div_lt_upper_bound; lia. }
  pose proof (all_upto_spec _ _ dac_word_check_all (cmd / 16) ltac:(lia)) as H.
  cbv beta in H.
  pose proof (all_upto_spec _ _ H v ltac:(lia)) as H'. cbv beta in H'.
  unfold dac_word_check in H'. rewrite <- Hcm in H'.
  destruct (dac_send_word cmd v []) as [|hi [|lo [|]]]; try discriminate.
  rewrite !andb_true_iff in H'.
  destruct H' as ((((((A & B) & C) & D) & E) & F) & G).
  exists hi, lo. split; [reflexivity|]. lia.
Qed.

Lemma dac_word_roundtrip_witness :
  exists hi lo,
    dac_send_word DAC_CMD_LOUPB 700 [] = [] ++ [hi; lo] /\
    0 <= hi <= 255 /\ 0 <= lo <= 255 /\
    dac_word_cmd hi = DAC_CMD_LOUPB /\
    dac_word_value hi lo = Z.min 700 DAC_MAX_VALUE.
Proof.
  apply (dac_word_roundtrip DAC_CMD_LOUPB 700 []).
  - unfold DAC_CMD_LOUPB. lia.
  - reflexivity.
  - lia.
Defined.

Lemma set_gate_a_ch on g :
  pulse_ch_a (pulse_set_gate_a on g) = with_gate on (pulse_ch_a g) /\
  pulse_ch_b (pulse_set_gate_a on g) = pulse_ch_b g.
Proof. unfold pulse_set_gate_a. cbv zeta. destruct (nonzero on); split; reflexivity. Qed.

Lemma set_gate_b_ch on g :
  pulse_ch_b (pulse_set_gate_b on g) = with_gate on (pulse_ch_b g) /\
  pulse_ch_a (pulse_set_gate_b on g) = pulse_ch_a g.
Proof. unfold pulse_set_gate_b. cbv zeta. destruct (nonzero on); split; reflexivity. Qed.

Lemma period_us_value f :
  0 <= f <= 255 ->
  period_us f = (if f <? 2 then 65000 else 256 * f) /\ 512 <= period_us f <= 65280.
Proof.
  intros Hf. unfold period_us. destruct (Z.ltb_spec f 2); [lia|].
  assert ((f * 256) mod 2 ^ 32 = f * 256)
    by (apply Z.mod_small; change (2 ^ 32) with 4294967296; lia).
  rewrite H0, u16_small by lia. lia.
Qed.

(** The channel states [output_copy] leaves behind. *)
Lemma output_copy_channels on r g :
  let left_behind (ch : list Z) (c : ChannelPulseState) :=
    let f := fld ch o_freq_value in
    let w := width_us (fld ch o_width_value) in
    mkChannelPulseState
      (if on && nonzero (Z.land (fld ch o_gate_value) GATE_ON_BIT) && (f >=? 2)
       then PULSE_ON else PULSE_OFF)
      (width_ticks c) (period_ticks c) (phase c) (gap_remaining c)
      (if w <? 70 then 70 else w)
      (if period_us f <? 500 then 500 else period_us f) 1 in
  pulse_ch_a (output_copy on r g) = left_behind (channel_a r) (pulse_ch_a g) /\
  pulse_ch_b (output_copy on r g) = left_behind (channel_b r) (pulse_ch_b g).
Proof.
  intros left_behind. unfold output_copy. cbv zeta.
  rewrite (proj2 (set_gate_b_ch _ _)), (proj1 (set_gate_b_ch _ _)).
  rewrite (proj1 (set_gate_a_ch _ _)), (proj2 (set_gate_a_ch _ _)).
  split; reflexivity.
Qed.

(** X9. What the output copy of [loop()] submits, for every content of
    the registers: a pending width between 70 and 179, a pending period
    of [256 * freq] (65000 below 2), hence a gap of at least 146 us that
    the ISR computes without its guard; the gate is on exactly when the
    output is enabled, the gate bit is set and [freq >= 2]. The active
    pair, the phase and the gap countdown are left alone. *)
Theorem output_copy_keeps_gap (on : bool) (r : Regs) (g : PulseGen) :
  0 <= fld (channel_a r) o_freq_value <= 255 ->
  0 <= fld (channel_a r) o_width_value <= 255 ->
  0 <= fld (channel_b r) o_freq_value <= 255 ->
  0 <= fld (channel_b r) o_width_value <= 255 ->
  let g' := output_copy on r g in
  let ok (ch : list Z) (c c' : ChannelPulseState) :=
    let f := fld ch o_freq_value in
    params_dirty c' = 1 /\
    70 <= pending_width c' <= 179 /\
    pending_period c' = (if f <? 2 then 65000 else 256 * f) /\
    gap_ticks (pending_width c') (pending_period c')
      = pending_period c' - 2 * pending_width c' - 2 * DEAD_TIME_TICKS /\
    146 <= gap_ticks (pending_width c') (pending_period c') /\
    (gate c' <> PULSE_OFF <->
     on = true /\ Z.land (fld ch o_gate_value) GATE_ON_BIT <> 0 /\ 2 <= f) /\
    (width_ticks c', period_ticks c', phase c', gap_remaining c')
      = (width_ticks c, period_ticks c, phase c, gap_remaining c) in
  ok (channel_a r) (pulse_ch_a g) (pulse_ch_a g') /\
  ok (channel_b r) (pulse_ch_b g) (pulse_ch_b g').
Proof.
  intros Hfa Hwa Hfb Hwb g' ok.
  pose proof (output_copy_channels on r g) as Hch. cbv zeta in Hch.
  match type of Hch with
  | _ = ?lb _ _ /\ _ =>
      assert (Hok : forall ch c, 0 <= fld ch o_freq_value <= 255 ->
                0 <= fld ch o_width_value <= 255 -> ok ch c (lb ch c))
  end.
  { clear Hch. intros ch c Hf Hw. unfold ok.
    cbn [params_dirty pending_width pending_period gate width_ticks period_ticks phase
         gap_remaining].
    destruct (OutputFacts.width_us_value _ Hw) as (_ & Hwr).
    destruct (period_us_value _ Hf) as (Hpv & Hpr).
    set (w := width_us (fld ch o_width_value)) in *.
    set (p := period_us (fld ch o_freq_value)) in *.
    set (f := fld ch o_freq_value) in *.
    destruct (Z.ltb_spec p 500); [lia|].
    assert (Hpw : 70 <= (if w <? 70 then 70 else w) <= 179)
      by (destruct (Z.ltb_spec w 70); lia).
    set (pw := if w <? 70 then 70 else w) in *.
    destruct (PulseFacts.gap_ticks_cases pw p ltac:(lia) ltac:(lia)) as (_ & _ & Hgap).
    unfold DEAD_TIME_TICKS in *. rewrite Hgap by lia.
    repeat split; try lia.
    - destruct on; cbn [andb] in *; [|contradiction]. reflexivity.
    - unfold nonzero in H0. destruct on; cbn [andb] in *; [|contradiction].
      destruct (Z.eqb_spec (Z.land (fld ch o_gate_value) GATE_ON_BIT) 0);
        cbn [negb andb] in *; [contradiction|assumption].
    - destruct on; cbn [andb] in *; [|contradiction].
      destruct (nonzero _); cbn [andb] in *; [|contradiction].
      destruct (Z.geb_spec f 2); [lia|contradiction].
    - intros (-> & Hg & Hf2). unfold nonzero.
      destruct (Z.eqb_spec (Z.land (fld ch o_gate_value) GATE_ON_BIT) 0); [contradiction|].
      destruct (Z.geb_spec f 2); [|lia]. cbn. unfold PULSE_ON, PULSE_OFF. lia. }
  destruct Hch as (Ea & Eb).
  subst g'. rewrite Ea, Eb. split; apply Hok; assumption.
Qed.

Lemma output_copy_keeps_gap_witness :
  146 <= gap_ticks
           (pending_width (pulse_ch_a (output_copy true
              (mkRegs channel_defaults channel_defaults 0) (pulse_gen_init 0))))
           (pending_period (pulse_ch_a (output_copy true
              (mkRegs channel_defaults channel_defaults 0) (pulse_gen_init 0)))).
Proof.
  pose proof (output_copy_keeps_gap true (mkRegs channel_defaults channel_defaults 0)
                (pulse_gen_init 0)
                ltac:(vm_compute; split; discriminate) ltac:(vm_compute; split; discriminate)
                ltac:(vm_compute; split; discriminate) ltac:(vm_compute; split; discriminate))
    as H.
  cbv zeta in H. destruct H as ((_ & _ & _ & _ & H & _) & _). exact H.
Defined.

End LevelFacts.

(** ** User programs in the cache and in the EEPROM *)

Module UserProgramFacts.
Import Eeprom UserPrograms Scenarios WordFacts.

Lemma length_write_bytes l : forall base (ee : list Z),
  length (write_bytes base l ee) = length ee.
Proof.
  induction l as [|b l IH]; intros base ee; cbn [write_bytes]; [reflexivity|].
  rewrite IH. unfold mk312bt_eeprom_write_byte. apply length_insert.
Qed.

Lemma lookup_write_bytes l : forall base (ee : list Z) (j : nat),
  0 <= base -> (Z.to_nat base + length l <= length ee)%nat ->
  write_bytes base l ee !!! j =
    if ((Z.to_nat base <=? j) && (j <? Z.to_nat base + length l))%nat
    then l !!! (j - Z.to_nat base)%nat else ee !!! j.
Proof.
  induction l as [|b l IH]; intros base ee j Hb Hlen; cbn [write_bytes length] in *.
  - destruct (Nat.leb_spec (Z.to_nat base) j), (Nat.ltb_spec j (Z.to_nat base + 0));
      cbn; try reflexivity; lia.
  - rewrite IH by (unfold mk312bt_eeprom_write_byte; rewrite ?length_insert; lia).
    replace (Z.to_nat (base + 1)) with (S (Z.to_nat base)) by lia.
    unfold mk312bt_eeprom_write_byte.
    destruct (Nat.leb_spec (S (Z.to_nat base)) j), (Nat.ltb_spec j (S (Z.to_nat base) + length l));
      destruct (Nat.leb_spec (Z.to_nat base) j), (Nat.ltb_spec j (Z.to_nat base + S (length l)));
      cbn [andb]; try lia.
    + assert (E : (j - Z.to_nat base)%nat = S (j - S (Z.to_nat base))) by (clear -H; lia).
      rewrite E. reflexivity.
    + apply list_lookup_total_insert_ne. lia.
    + assert (j = Z.to_nat base) by lia. subst j.
      rewrite Nat.sub_diag. cbn. apply list_lookup_total_insert_eq. lia.
    + apply list_lookup_total_insert_ne. lia.
Qed.

Lemma lookup_read_bytes n : forall base (ee : list Z) (i : nat),
  0 <= base -> (i < n)%nat ->
  read_bytes base n ee !!! i = ee !!! (Z.to_nat base + i)%nat.
Proof.
  induction n as [|n IH]; intros base ee i Hb Hi; [lia|].
  cbn [read_bytes]. destruct i as [|i].
  - cbn. unfold mk312bt_eeprom_read_byte. f_equal. lia.
  - cbn [lookup_total list_lookup_total]. rewrite IH by lia. f_equal. lia.
Qed.

Lemma length_read_bytes n : forall base (ee : list Z), length (read_bytes base n ee) = n.
Proof. induction n as [|n IH]; intros; cbn; [reflexivity|]. rewrite IH. reflexivity. Qed.


(** Reading a range that a write did not touch, and the range it wrote. *)
Lemma read_write_disjoint l n base0 base (ee : list Z) :
  0 <= base0 -> 0 <= base -> (Z.to_nat base + length l <= length ee)%nat ->
  (Z.to_nat base0 + n <= Z.to_nat base \/ Z.to_nat base + length l <= Z.to_nat base0)%nat ->
  read_bytes base0 n (write_bytes base l ee) = read_bytes base0 n ee.
Proof.
  intros H0 Hb Hlen Hdis. apply list_eq_total; rewrite !length_read_bytes; [reflexivity|].
  intros i Hi. rewrite !lookup_read_bytes by lia.
  rewrite lookup_write_bytes by lia.
  destruct (Nat.leb_spec (Z.to_nat base) (Z.to_nat base0 + i)),
    (Nat.ltb_spec (Z.to_nat base0 + i) (Z.to_nat base + length l)); cbn [andb];
    try reflexivity; lia.
Qed.

Lemma read_write_same l base (ee : list Z) :
  0 <= base -> (Z.to_nat base + length l <= length ee)%nat ->
  read_bytes base (length l) (write_bytes base l ee) = l.
Proof.
  intros Hb Hlen. apply list_eq_total; rewrite !length_read_bytes; [reflexivity|].
  intros i Hi. rewrite lookup_read_bytes by lia.
  rewrite lookup_write_bytes by lia.
  destruct (Nat.leb_spec (Z.to_nat base) (Z.to_nat base + i)),
    (Nat.ltb_spec (Z.to_nat base + i) (Z.to_nat base + length l)); cbn [andb]; try lia.
  f_equal. lia.
Qed.

Lemma user_prog_addr_value slot :
  0 <= slot < USER_PROG_SLOT_COUNT -> user_prog_addr slot = 32 + 32 * slot.
Proof.
  unfold USER_PROG_SLOT_COUNT, user_prog_addr, EEPROM_USER_PROG_BASE, USER_PROG_SLOT_SIZE, u16.
  intros H. rewrite (Z.mod_small (slot * 32)) by lia. rewrite Z.mod_small by lia. lia.
Qed.

Lemma slot_cases slot :
  0 <= slot < USER_PROG_SLOT_COUNT ->
  slot = 0 \/ slot = 1 \/ slot = 2 \/ slot = 3 \/ slot = 4 \/ slot = 5 \/ slot = 6.
Proof. unfold USER_PROG_SLOT_COUNT. lia. Qed.

Lemma user_programs_init_slot (ee : list Z) (pc : list (list Z)) slot :
  length pc = 7%nat -> 0 <= slot < USER_PROG_SLOT_COUNT ->
  user_programs_init ee pc !!! Z.to_nat slot = read_bytes (user_prog_addr slot) 32 ee.
Proof.
  intros Hlen Hs.
  destruct pc as [|p0 [|p1 [|p2 [|p3 [|p4 [|p5 [|p6 [|]]]]]]]]; try discriminate.
  destruct (slot_cases slot Hs) as [-> | [-> | [-> | [-> | [-> | [-> | ->]]]]]];
    reflexivity.
Qed.

Lemma length_user_programs_init (ee : list Z) (pc : list (list Z)) :
  length (user_programs_init ee pc) = length pc.
Proof.
  unfold user_programs_init. cbn [fold_left]. rewrite !length_insert. reflexivity.
Qed.

(** A write inside one user-program slot leaves the configuration block,
    the split-mode bytes and the other slots as they were. *)
Lemma slot_write_frame slot l (ee : list Z) :
  0 <= slot < USER_PROG_SLOT_COUNT -> (length l <= 32)%nat -> length ee = 512%nat ->
  let ee' := write_bytes (user_prog_addr slot) l ee in
  eeprom_load_config ee' = eeprom_load_config ee /\
  eeprom_load_split_modes ee' = eeprom_load_split_modes ee /\
  (forall s, 0 <= s < USER_PROG_SLOT_COUNT -> s <> slot ->
     read_bytes (user_prog_addr s) 32 ee' = read_bytes (user_prog_addr s) 32 ee).
Proof.
  intros Hs Hl Hee ee'. subst ee'.
  pose proof (user_prog_addr_value slot Hs) as Ea.
  unfold USER_PROG_SLOT_COUNT in *.
  split; [|split].
  - unfold eeprom_load_config, EEPROM_CONFIG_BASE, config_size.
    rewrite read_write_disjoint; [reflexivity| lia | lia | lia | lia].
  - unfold eeprom_load_split_modes, mk312bt_eeprom_read_byte, EEPROM_SPLIT_A_MODE,
      EEPROM_SPLIT_B_MODE.
    rewrite !lookup_write_bytes by lia.
    destruct (Nat.leb_spec (Z.to_nat (user_prog_addr slot)) (Z.to_nat 22));
      destruct (Nat.leb_spec (Z.to_nat (user_prog_addr slot)) (Z.to_nat 23));
      cbn [andb]; try reflexivity; lia.
  - intros s Hs' Hne.
    pose proof (user_prog_addr_value s ltac:(unfold USER_PROG_SLOT_COUNT; lia)) as Eb.
    apply read_write_disjoint; lia.
Qed.

(** X10. [user_prog_write] on a slot 0..6: the cache holds the buffer
    with its last byte forced to 0, and so does the cache that
    [user_programs_init] loads from the EEPROM after a restart; the slot
    is valid exactly when the buffer starts with the marker 0xE3. The
    other slots, the configuration block and the split-mode bytes are
    not touched. *)
Theorem user_prog_write_persists (slot : Z) (buf : list Z) (pc pc0 : list (list Z))
    (ee : list Z) :
  0 <= slot < USER_PROG_SLOT_COUNT ->
  length buf = 32%nat -> length pc = 7%nat -> length pc0 = 7%nat -> length ee = 512%nat ->
  let prog := <[31%nat := 0]> buf in
  let pc' := fst (user_prog_write slot buf pc ee) in
  let ee' := snd (user_prog_write slot buf pc ee) in
  pc' !!! Z.to_nat slot = prog /\
  user_programs_init ee' pc0 !!! Z.to_nat slot = prog /\
  user_prog_is_valid slot pc' = (buf !!! 0%nat =? USER_PROG_MAGIC) /\
  (forall s, 0 <= s < USER_PROG_SLOT_COUNT -> s <> slot ->
     pc' !!! Z.to_nat s = pc !!! Z.to_nat s /\
     user_programs_init ee' pc0 !!! Z.to_nat s = user_programs_init ee pc0 !!! Z.to_nat s) /\
  eeprom_load_config ee' = eeprom_load_config ee /\
  eeprom_load_split_modes ee' = eeprom_load_split_modes ee.
Proof.
  intros Hs Hbuf Hpc Hpc0 Hee prog pc' ee'.
  assert (Hw : user_prog_write slot buf pc ee =
            (<[Z.to_nat slot := prog]> pc, write_bytes (user_prog_addr slot) prog ee)).
  { unfold user_prog_write, eeprom_save_user_prog.
    destruct (Z.leb_spec USER_PROG_SLOT_COUNT slot); [lia|].
    cbv zeta. change (Z.to_nat USER_PROG_SLOT_SIZE) with 32%nat.
    change (Z.to_nat (USER_PROG_SLOT_SIZE - 1)) with 31%nat.
    rewrite (take_ge buf) by lia. fold prog.
    rewrite (take_ge prog) by (unfold prog; rewrite length_insert; lia). reflexivity. }
  subst pc' ee'. rewrite Hw. cbn [fst snd].
  assert (Hprog : length prog = 32%nat) by (unfold prog; rewrite length_insert; exact Hbuf).
  pose proof (user_prog_addr_value slot Hs) as Ea.
  destruct (slot_write_frame slot prog ee Hs ltac:(lia) Hee) as (Hc & Hsp & Hothers).
  cbv zeta in Hc, Hsp, Hothers.
  assert (Hslot : (Z.to_nat slot < length pc)%nat) by (unfold USER_PROG_SLOT_COUNT in Hs; lia).
  split; [apply list_lookup_total_insert_eq; exact Hslot|].
  split.
  { rewrite user_programs_init_slot by assumption.
    rewrite <- Hprog at 1. apply read_write_same; unfold USER_PROG_SLOT_COUNT in Hs; lia. }
  split.
  { unfold user_prog_is_valid. destruct (Z.leb_spec USER_PROG_SLOT_COUNT slot); [lia|].
    rewrite list_lookup_total_insert_eq by exact Hslot.
    unfold prog. rewrite list_lookup_total_insert_ne by lia. reflexivity. }
  split; [|split; assumption].
  intros s Hs' Hne. split.
  - apply list_lookup_total_insert_ne. unfold USER_PROG_SLOT_COUNT in *. lia.
  - rewrite !user_programs_init_slot by assumption. apply Hothers; assumption.
Qed.

(** X11. [user_prog_erase] on a slot 0..6: the cached slot is all 0xFF
    and invalid, and the slot is invalid after a restart too; in the
    EEPROM only the marker byte is overwritten, so the reloaded slot is
    the old one with 0xFF in front. The other slots, the configuration
    block and the split-mode bytes are not touched. *)
Theorem user_prog_erase_marks_only (slot : Z) (pc pc0 : list (list Z)) (ee : list Z) :
  0 <= slot < USER_PROG_SLOT_COUNT ->
  length pc = 7%nat -> length pc0 = 7%nat -> length ee = 512%nat ->
  let pc' := fst (user_prog_erase slot pc ee) in
  let ee' := snd (user_prog_erase slot pc ee) in
  pc' !!! Z.to_nat slot = repeat 0xFF 32 /\
  user_prog_is_valid slot pc' = false /\
  user_prog_is_valid slot (user_programs_init ee' pc0) = false /\
  user_programs_init ee' pc0 !!! Z.to_nat slot
    = <[0%nat := 0xFF]> (user_programs_init ee pc0 !!! Z.to_nat slot) /\
  (forall s, 0 <= s < USER_PROG_SLOT_COUNT -> s <> slot ->
     pc' !!! Z.to_nat s = pc !!! Z.to_nat s /\
     user_programs_init ee' pc0 !!! Z.to_nat s = user_programs_init ee pc0 !!! Z.to_nat s) /\
  eeprom_load_config ee' = eeprom_load_config ee /\
  eeprom_load_split_modes ee' = eeprom_load_split_modes ee.
Proof.
  intros Hs Hpc Hpc0 Hee pc' ee'.
  assert (Hw : user_prog_erase slot pc ee =
            (<[Z.to_nat slot := repeat 0xFF 32]> pc,
             write_bytes (user_prog_addr slot) [0xFF] ee)).
  { unfold user_prog_erase, eeprom_erase_user_prog.
    destruct (Z.leb_spec USER_PROG_SLOT_COUNT slot); [lia|]. reflexivity. }
  subst pc' ee'. rewrite Hw. cbn [fst snd].
  pose proof (user_prog_addr_value slot Hs) as Ea.
  destruct (slot_write_frame slot [0xFF] ee Hs ltac:(cbn; lia) Hee) as (Hc & Hsp & Hothers).
  cbv zeta in Hc, Hsp, Hothers.
  assert (Hslot : (Z.to_nat slot < length pc)%nat) by (unfold USER_PROG_SLOT_COUNT in Hs; lia).
  assert (Hnew : user_programs_init (write_bytes (user_prog_addr slot) [0xFF] ee) pc0
                   !!! Z.to_nat slot
                 = <[0%nat := 0xFF]> (user_programs_init ee pc0 !!! Z.to_nat slot)).
  { rewrite !user_programs_init_slot by assumption.
    apply list_eq_total; rewrite ?length_insert, !length_read_bytes; [reflexivity|].
    intros i Hi. rewrite lookup_read_bytes by (unfold USER_PROG_SLOT_COUNT in Hs; lia).
    rewrite lookup_write_bytes by (cbn [length]; unfold USER_PROG_SLOT_COUNT in Hs; lia).
    cbn [length].
    destruct i as [|i].
    - rewrite list_lookup_total_insert_eq by (rewrite length_read_bytes; lia).
      destruct (Nat.leb_spec (Z.to_nat (user_prog_addr slot)) (Z.to_nat (user_prog_addr slot) + 0)),
        (Nat.ltb_spec (Z.to_nat (user_prog_addr slot) + 0) (Z.to_nat (user_prog_addr slot) + 1));
        cbn [andb]; try lia.
      replace (Z.to_nat (user_prog_addr slot) + 0 - Z.to_nat (user_prog_addr slot))%nat
        with 0%nat by lia. reflexivity.
    - rewrite list_lookup_total_insert_ne by lia.
      rewrite lookup_read_bytes by (unfold USER_PROG_SLOT_COUNT in Hs; lia).
      destruct (Nat.leb_spec (Z.to_nat (user_prog_addr slot))
                  (Z.to_nat (user_prog_addr slot) + S i)),
        (Nat.ltb_spec (Z.to_nat (user_prog_addr slot) + S i)
           (Z.to_nat (user_prog_addr slot) + 1));
        cbn [andb]; try lia; reflexivity. }
  split; [apply list_lookup_total_insert_eq; exact Hslot|].
  split.
  { unfold user_prog_is_valid. destruct (Z.leb_spec USER_PROG_SLOT_COUNT slot); [lia|].
    rewrite list_lookup_total_insert_eq by exact Hslot. reflexivity. }
  split.
  { unfold user_prog_is_valid. destruct (Z.leb_spec USER_PROG_SLOT_COUNT slot); [lia|].
    rewrite Hnew.
    rewrite list_lookup_total_insert_eq
      by (rewrite user_programs_init_slot by assumption; rewrite length_read_bytes; lia).
    reflexivity. }
  split; [exact Hnew|].
  split; [|split; assumption].
  intros s Hs' Hne. split.
  - apply list_lookup_total_insert_ne. unfold USER_PROG_SLOT_COUNT in *. lia.
  - rewrite !user_programs_init_slot by assumption. apply Hothers; assumption.
Qed.

Lemma user_prog_write_persists_witness :
  user_programs_init (snd (user_prog_write 2 user_demo_prog empty_cache blank_store))
    empty_cache !!! Z.to_nat 2 = <[31%nat := 0]> user_demo_prog /\
  user_prog_is_valid 2 (fst (user_prog_write 2 user_demo_prog empty_cache blank_store))
    = (user_demo_prog !!! 0%nat =? USER_PROG_MAGIC).
Proof.
  pose proof (user_prog_write_persists 2 user_demo_prog empty_cache empty_cache blank_store
                ltac:(unfold USER_PROG_SLOT_COUNT; lia) eq_refl eq_refl eq_refl eq_refl) as H.
  cbv zeta in H. destruct H as (_ & H1 & H2 & _). split; [exact H1 | exact H2].
Defined.

Lemma user_prog_erase_marks_only_witness :
  let ee := snd (user_prog_write 2 user_demo_prog empty_cache blank_store) in
  user_prog_is_valid 2 (user_programs_init (snd (user_prog_erase 2 empty_cache ee)) empty_cache)
    = false.
Proof.
  intros ee.
  pose proof (user_prog_erase_marks_only 2 empty_cache empty_cache ee
                ltac:(unfold USER_PROG_SLOT_COUNT; lia) eq_refl eq_refl eq_refl) as H.
  cbv zeta in H. destruct H as (_ & _ & H & _). exact H.
Defined.

End UserProgramFacts.

(** ** Parameter engine: scaling, group steps and the tick *)

Module ModulationFacts.
Import ChannelMem ParamEngine Scenarios EngineFacts WordFacts.

(** *** Knob scaling *)
Lemma scale_bounds K d : 0 <= K <= 255 -> 0 <= d <= 255 ->
  0 <= K * d / 255 <= d /\ 0 <= K * d / 256 <= d /\ K * d <= 65535.
Proof.
  intros HK Hd. repeat split.
  - apply Z.div_pos; nia.
  - apply Z.div_le_upper_bound; nia.
  - apply Z.div_pos; nia.
  - apply Z.div_le_upper_bound; nia.
  - nia.
Qed.

Lemma engine_map_ma_value K high low :
  0 <= K <= 255 -> 0 <= low <= 255 -> 0 <= high <= 255 ->
  ParamEngine.map_ma K high low =
    if high >=? low then low + K * (high - low) / 255 else low - K * (low - high) / 255.
Proof.
  intros HK Hl Hh. unfold ParamEngine.map_ma.
  destruct (Z.geb_spec high low).
  - destruct (scale_bounds K (high - low) HK ltac:(lia)) as (H1 & _ & H3).
    rewrite (u16_small (K * (high - low))) by nia.
    rewrite (u8_small (K * (high - low) / 255)) by lia.
    apply u8_small. lia.
  - destruct (scale_bounds K (low - high) HK ltac:(lia)) as (H1 & _ & H3).
    rewrite (u16_small (K * (low - high))) by nia.
    rewrite (u8_small (K * (low - high) / 255)) by lia.
    apply u8_small. lia.
Qed.

(** X12. Both copies of [map_ma] scale the knob into the range between
    the two range registers, from [low] at knob 0. The engine's copy
    reaches [high] at knob 255 and moves away from [low] monotonically;
    the dispatcher's copy stops one short of [high]. *)
Theorem knob_scaling_range (K high low : Z) :
  0 <= K <= 255 -> 0 <= low <= 255 -> 0 <= high <= 255 ->
  Z.min low high <= ParamEngine.map_ma K high low <= Z.max low high /\
  Z.min low high <= Dispatcher.map_ma K high low <= Z.max low high /\
  ParamEngine.map_ma 0 high low = low /\ Dispatcher.map_ma 0 high low = low /\
  ParamEngine.map_ma 255 high low = high /\
  (high <> low -> Z.abs (high - Dispatcher.map_ma 255 high low) = 1) /\
  (forall K', K <= K' <= 255 ->
     Z.abs (ParamEngine.map_ma K high low - low)
       <= Z.abs (ParamEngine.map_ma K' high low - low)).
Proof.
  intros HK Hl Hh.
  assert (HD : forall k, 0 <= k <= 255 ->
            Dispatcher.map_ma k high low =
              if high >=? low then low + k * (high - low) / 256
              else low - k * (low - high) / 256).
  { intros k Hk. rewrite dispatcher_map_ma_spec by lia. unfold spec_knob_scale.
    rewrite !Z.shiftr_div_pow2 by lia. reflexivity. }
  rewrite !engine_map_ma_value by lia. rewrite !HD by lia.
  destruct (Z.geb_spec high low).
  - destruct (scale_bounds K (high - low) HK ltac:(lia)) as (H1 & H2 & _).
    split; [lia|]. split; [lia|].
    rewrite !Z.mul_0_l. change (0 / 255) with 0. change (0 / 256) with 0.
    split; [lia|]. split; [lia|].
    split.
    { replace (255 * (high - low)) with ((high - low) * 255) by lia.
      rewrite Z.div_mul by lia. lia. }
    split.
    { intros Hne.
      assert (255 * (high - low) / 256 = high - low - 1).
      { symmetry. apply (Z.div_unique_pos _ _ _ (256 - (high - low))); lia. }
      lia. }
    intros K' HK'. rewrite engine_map_ma_value by lia.
    destruct (Z.geb_spec high low); [|lia].
    destruct (scale_bounds K' (high - low) ltac:(lia) ltac:(lia)) as (H1' & _).
    assert (K * (high - low) / 255 <= K' * (high - low) / 255)
      by (apply Z.div_le_mono; nia).
    lia.
  - destruct (scale_bounds K (low - high) HK ltac:(lia)) as (H1 & H2 & _).
    split; [lia|]. split; [lia|].
    rewrite !Z.mul_0_l. change (0 / 255) with 0. change (0 / 256) with 0.
    split; [lia|]. split; [lia|].
    split.
    { replace (255 * (low - high)) with ((low - high) * 255) by lia.
      rewrite Z.div_mul by lia. lia. }
    split.
    { intros Hne.
      assert (255 * (low - high) / 256 = low - high - 1).
      { symmetry. apply (Z.div_unique_pos _ _ _ (256 - (low - high))); lia. }
      lia. }
    intros K' HK'. rewrite engine_map_ma_value by lia.
    destruct (Z.geb_spec high low); [lia|].
    destruct (scale_bounds K' (low - high) ltac:(lia) ltac:(lia)) as (H1' & _).
    assert (K * (low - high) / 255 <= K' * (low - high) / 255)
      by (apply Z.div_le_mono; nia).
    lia.
Qed.

Lemma knob_scaling_range_witness :
  Z.min 10 200 <= ParamEngine.map_ma 128 200 10 <= Z.max 10 200 /\
  ParamEngine.map_ma 255 200 10 = 200 /\
  Z.abs (200 - Dispatcher.map_ma 255 200 10) = 1.
Proof.
  pose proof (knob_scaling_range 128 200 10 ltac:(lia) ltac:(lia) ltac:(lia)) as H.
  destruct H as (H1 & _ & _ & _ & H5 & H6 & _).
  split; [exact H1|]. split; [exact H5|]. apply H6. lia.
Defined.

(** *** One step of a parameter group *)

Ltac step_cases :=
  unfold step_group, do_action; cbv zeta;
  repeat match goal with
         | |- context [if ?b then _ else _] => destruct b eqn:?
         end;
  cbn [fst snd].

Lemma step_group_writes (tick : Z) (off : nat) (ch : list Z)
    (ma adv_min adv_rate other dir : Z) (j : nat) :
  let ch' := fst (fst (step_group tick off ch ma adv_min adv_rate other dir)) in
  length ch' = length ch /\
  (j <> (off + g_value)%nat -> j <> (off + g_min)%nat -> j <> (off + g_select)%nat ->
   j <> (off + g_timer)%nat -> j <> o_gate_value -> fld ch' j = fld ch j) /\
  (block_ok ch -> (o_gate_value < off \/ off + g_timer < o_gate_value)%nat ->
   fld ch' o_gate_value = fld ch o_gate_value \/
   fld ch' o_gate_value = Z.lxor (fld ch o_gate_value) GATE_ALT_POL).
Proof.
  intros ch'. subst ch'. unfold g_value, g_min, g_select, g_timer, o_gate_value.
  split; [|split].
  - step_cases; rewrite ?length_set_fld; reflexivity.
  - intros H1 H2 H3 H4 H5. step_cases; unfold g_value, g_min, g_select, g_timer, g_max,
      o_gate_value in *; fld_simpl; reflexivity.
  - intros Hok Hoff. unfold block_ok in Hok.
    step_cases; unfold g_value, g_min, g_select, g_timer, g_max, o_gate_value in *;
      fld_simpl; auto.
Qed.

(** X13. What [step_group] can write: the value, the minimum, the select
    byte and the timer of the group it steps, and the gate value of the
    block, of which it can only flip the polarity bit. Every other
    byte of the block, the other groups and the group's own maximum,
    rate, step and actions included, is left as it was. *)
Theorem step_group_frame (tick : Z) (off : nat) (ch : list Z)
    (ma adv_min adv_rate other dir : Z) (j : nat) :
  let ch' := fst (fst (step_group tick off ch ma adv_min adv_rate other dir)) in
  length ch' = length ch /\
  (j <> (off + g_value)%nat -> j <> (off + g_min)%nat -> j <> (off + g_select)%nat ->
   j <> (off + g_timer)%nat -> j <> o_gate_value -> fld ch' j = fld ch j) /\
  (block_ok ch -> (o_gate_value < off \/ off + g_timer < o_gate_value)%nat ->
   fld ch' o_gate_value = fld ch o_gate_value \/
   fld ch' o_gate_value = Z.lxor (fld ch o_gate_value) GATE_ALT_POL).
Proof. exact (step_group_writes tick off ch ma adv_min adv_rate other dir j). Qed.

Lemma step_group_frame_witness :
  fld (fst (fst (step_group 0 OFF_INTENSITY loop_block 0 0 0 0 DIR_UP))) o_freq_value
    = fld loop_block o_freq_value.
Proof.
  pose proof (step_group_frame 0 OFF_INTENSITY loop_block 0 0 0 0 DIR_UP o_freq_value) as H.
  cbv zeta in H. destruct H as (_ & H & _).
  apply H; vm_compute; discriminate.
Defined.

Ltac fld_simpl_in H :=
  repeat first
    [ rewrite fld_set_eq in H by (rewrite ?length_set_fld; lia)
    | rewrite fld_set_ne in H by lia ].

Ltac fld_simpl_all :=
  repeat match goal with
         | H : context [fld (set_fld _ _ _) _] |- _ => progress fld_simpl_in H
         end;
  fld_simpl.

Lemma group_offset_range off : is_group_offset off -> (28 <= off <= 55)%nat.
Proof. intros [-> | [-> | [-> | ->]]]; vm_compute; lia. Qed.

(** X14. No overshoot: a group whose minimum is its own register and
    whose value lies between its minimum and its maximum still has it
    there after [step_group], whatever the direction, the step size and
    the actions at the ends; minimum and maximum are unchanged. *)
Theorem step_group_within_bounds (tick : Z) (off : nat) (ch : list Z)
    (ma adv_min adv_rate other dir : Z) :
  is_group_offset off -> block_ok ch ->
  0 <= fld ch (off + g_min) <= fld ch (off + g_value) ->
  fld ch (off + g_value) <= fld ch (off + g_max) <= 255 ->
  0 <= fld ch (off + g_step) <= 255 ->
  Z.land (Z.shiftr (fld ch (off + g_select)) 2) 0x07 = 0 ->
  let ch' := fst (fst (step_group tick off ch ma adv_min adv_rate other dir)) in
  fld ch' (off + g_min) = fld ch (off + g_min) /\
  fld ch' (off + g_max) = fld ch (off + g_max) /\
  fld ch (off + g_min) <= fld ch' (off + g_value) <= fld ch (off + g_max).
Proof.
  intros Hoff Hok Hlo Hhi Hst Hsrc ch'. subst ch'.
  apply group_offset_range in Hoff. unfold block_ok in Hok.
  unfold g_value, g_min, g_select, g_timer, g_max, g_step in *.
  unfold step_group, do_action. cbv zeta.
  unfold g_value, g_min, g_select, g_timer, g_max, g_step, g_rate, g_action_min,
    g_action_max, o_gate_value in *.
  rewrite Hsrc. change (negb (0 =? 0)) with false. cbv iota.
  repeat match goal with
         | |- context [if ?b then _ else _] => destruct b eqn:?
         end;
    cbn [fst snd]; to_prop; fld_simpl_all;
    rewrite ?u16_small in * by lia; rewrite ?u8_small by lia; try lia.
Qed.

Lemma step_group_within_bounds_witness :
  10 <= fld (fst (fst (step_group 0 OFF_INTENSITY loop_block 0 0 0 0 DIR_UP)))
          (OFF_INTENSITY + g_value) <= 20.
Proof.
  pose proof (step_group_within_bounds 0 OFF_INTENSITY loop_block 0 0 0 0 DIR_UP) as H.
  cbv zeta in H.
  specialize (H ltac:(right; left; reflexivity) ltac:(reflexivity)
                ltac:(vm_compute; split; discriminate) ltac:(vm_compute; split; discriminate)
                ltac:(vm_compute; split; discriminate) ltac:(reflexivity)).
  destruct H as (_ & _ & H). exact H.
Defined.

Lemma static_step tick off (ch : list Z) ma adv_min adv_rate other dir :
  Z.land (fld ch (off + g_select)) SEL_TIMER_MASK = 0 ->
  Z.land (Z.shiftr (fld ch (off + g_select)) 2) 0x07 = 0 ->
  step_group tick off ch ma adv_min adv_rate other dir = (ch, dir, 0xFF).
Proof.
  intros H1 H2. unfold step_group. cbv zeta. rewrite H1, H2. reflexivity.
Qed.

Lemma static_steps n : forall tick off (ch : list Z) ma adv_min adv_rate other dir,
  Z.land (fld ch (off + g_select)) SEL_TIMER_MASK = 0 ->
  Z.land (Z.shiftr (fld ch (off + g_select)) 2) 0x07 = 0 ->
  step_group_n n tick off ch ma adv_min adv_rate other dir = (ch, dir, repeat 0xFF n).
Proof.
  induction n as [|n IH]; intros; cbn [step_group_n repeat]; [reflexivity|].
  rewrite static_step by assumption. rewrite IH by assumption. reflexivity.
Qed.

Lemma stop_select_bits sel :
  0 <= sel <= 255 ->
  Z.land (clear_bits sel SEL_TIMER_MASK) SEL_TIMER_MASK = 0 /\
  Z.shiftr (clear_bits sel SEL_TIMER_MASK) 2 = Z.shiftr sel 2.
Proof.
  intros H.
  pose proof (BitFacts.all_bytes_spec
    (fun s => (Z.land (clear_bits s SEL_TIMER_MASK) SEL_TIMER_MASK =? 0)
              && (Z.shiftr (clear_bits s SEL_TIMER_MASK) 2 =? Z.shiftr s 2))
    ltac:(vm_compute; reflexivity) sel H) as E.
  cbv beta in E. apply andb_true_iff in E. destruct E as (E1 & E2).
  split; [apply Z.eqb_eq, E1 | apply Z.eqb_eq, E2].
Qed.

Lemma source_step tick off (ch : list Z) ma adv_min adv_rate other dir :
  Z.land (fld ch (off + g_select)) SEL_TIMER_MASK = 0 ->
  let src_bits := Z.land (Z.shiftr (fld ch (off + g_select)) 2) 0x07 in
  step_group tick off ch ma adv_min adv_rate other dir
    = (if src_bits =? 0 then ch
       else set_fld (off + g_value)
              (resolve_source src_bits (fld ch (off + g_value)) adv_min ma other) ch,
       dir, 0xFF).
Proof.
  intros H1 src_bits. unfold step_group. cbv zeta. rewrite H1. fold src_bits.
  change (0 =? SEL_TIMER_NONE) with true. cbv iota.
  destruct (src_bits =? 0); reflexivity.
Qed.

Lemma source_steps n : forall tick off (ch : list Z) ma adv_min adv_rate other dir,
  Z.land (fld ch (off + g_select)) SEL_TIMER_MASK = 0 ->
  let src_bits := Z.land (Z.shiftr (fld ch (off + g_select)) 2) 0x07 in
  exists ch2,
    step_group_n n tick off ch ma adv_min adv_rate other dir = (ch2, dir, repeat 0xFF n) /\
    length ch2 = length ch /\
    (forall j, j <> (off + g_value)%nat -> fld ch2 j = fld ch j) /\
    (src_bits <> 0 -> (off + g_value < length ch)%nat ->
     fld ch2 (off + g_value)
       = Nat.iter n (fun v => resolve_source src_bits v adv_min ma other)
           (fld ch (off + g_value))).
Proof.
  induction n as [|n IH]; intros tick off ch ma adv_min adv_rate other dir H1 src_bits.
  - exists ch. cbn [step_group_n repeat Nat.iter]. repeat split; reflexivity.
  - cbn [step_group_n repeat]. rewrite source_step by exact H1. fold src_bits.
    set (ch1 := if src_bits =? 0 then ch else _).
    assert (Hsel : fld ch1 (off + g_select) = fld ch (off + g_select)).
    { unfold ch1. destruct (src_bits =? 0); [reflexivity|].
      apply fld_set_ne. unfold g_value, g_select. lia. }
    assert (Hlen : length ch1 = length ch).
    { unfold ch1. destruct (src_bits =? 0); [reflexivity|apply length_set_fld]. }
    destruct (IH (u8 (tick + 1)) off ch1 ma adv_min adv_rate other dir
                ltac:(rewrite Hsel; exact H1)) as (ch2 & E & L & Hfr & Hval).
    rewrite E. exists ch2. split; [reflexivity|]. split; [congruence|]. split.
    + intros j Hj. rewrite (Hfr j Hj). unfold ch1.
      destruct (src_bits =? 0); [reflexivity|]. apply fld_set_ne. lia.
    + intros Hsrc Hin. rewrite Hsel in Hval. fold src_bits in Hval.
      rewrite (Hval Hsrc ltac:(lia)). rewrite Nat.iter_succ_r. f_equal.
      unfold ch1. destruct (Z.eqb_spec src_bits 0); [contradiction|].
      apply fld_set_eq. exact Hin.
Qed.

(** X15. STOP, for a group of a 64-byte block: a call of [step_group]
    that changes the select byte of the group (only the STOP action
    does) has cleared its timer bits, left the value at the end that
    was reached (the maximum, or the minimum as this call resolved it),
    asked for no module and kept the direction. Every later call, at
    whatever tick and with whatever inputs, asks for no module and
    leaves the direction and every byte other than the group's value
    as they are. When the source bits of the select byte are 0 (the
    group's own register) the block does not change at all; otherwise
    each later call overwrites the value with the source these bits
    select. *)
Theorem stop_freezes_group (tick : Z) (off : nat) (ch : list Z)
    (ma adv_min adv_rate other dir : Z) :
  is_group_offset off -> block_ok ch ->
  0 <= fld ch (off + g_select) <= 255 ->
  let ch1 := fst (fst (step_group tick off ch ma adv_min adv_rate other dir)) in
  let dir1 := snd (fst (step_group tick off ch ma adv_min adv_rate other dir)) in
  let src_bits := Z.land (Z.shiftr (fld ch (off + g_select)) 2) 0x07 in
  fld ch1 (off + g_select) <> fld ch (off + g_select) ->
  (fld ch1 (off + g_select) = clear_bits (fld ch (off + g_select)) SEL_TIMER_MASK /\
   Z.land (fld ch1 (off + g_select)) SEL_TIMER_MASK = SEL_TIMER_NONE /\
   (fld ch1 (off + g_value) = fld ch (off + g_max) \/
    fld ch1 (off + g_value) = fld ch1 (off + g_min)) /\
   (src_bits = 0 -> fld ch1 (off + g_min) = fld ch (off + g_min)) /\
   snd (step_group tick off ch ma adv_min adv_rate other dir) = 0xFF /\ dir1 = dir) /\
  forall n tick' ma' adv_min' adv_rate' other',
    exists ch2,
      step_group_n n tick' off ch1 ma' adv_min' adv_rate' other' dir1
        = (ch2, dir1, repeat 0xFF n) /\
      (forall j, j <> (off + g_value)%nat -> fld ch2 j = fld ch1 j) /\
      (src_bits = 0 -> ch2 = ch1) /\
      (src_bits <> 0 ->
       fld ch2 (off + g_value)
         = Nat.iter n (fun v => resolve_source src_bits v adv_min' ma' other')
             (fld ch1 (off + g_value))).
Proof.
  intros Hoff Hok Hsel ch1 dir1 src_bits Hchg.
  apply group_offset_range in Hoff. unfold block_ok in Hok.
  destruct (stop_select_bits _ Hsel) as (B1 & B2).
  assert (Hstop : fld ch1 (off + g_select) = clear_bits (fld ch (off + g_select)) SEL_TIMER_MASK /\
            (fld ch1 (off + g_value) = fld ch (off + g_max) \/
             fld ch1 (off + g_value) = fld ch1 (off + g_min)) /\
            (src_bits = 0 -> fld ch1 (off + g_min) = fld ch (off + g_min)) /\
            snd (step_group tick off ch ma adv_min adv_rate other dir) = 0xFF /\ dir1 = dir).
  { revert Hchg. subst ch1 dir1.
    unfold step_group, do_action. cbv zeta. fold src_bits.
    unfold g_value, g_min, g_select, g_timer, g_max, g_step, g_rate, g_action_min,
      g_action_max, o_gate_value in *.
    repeat match goal with
           | |- context [if ?b then _ else _] => destruct b eqn:?
           end;
      cbn [fst snd]; fld_simpl; intros Hchg; try (exfalso; apply Hchg; reflexivity);
      to_prop; repeat split; auto; try (intros; congruence). }
  destruct Hstop as (S1 & S2 & S3 & S4 & S5).
  assert (Hlen : length ch1 = 64%nat).
  { unfold ch1. rewrite (proj1 (step_group_writes tick off ch ma adv_min adv_rate other dir 0%nat)).
    exact Hok. }
  assert (T1 : Z.land (fld ch1 (off + g_select)) SEL_TIMER_MASK = 0)
    by (rewrite S1; exact B1).
  assert (Hsrc1 : Z.land (Z.shiftr (fld ch1 (off + g_select)) 2) 0x07 = src_bits)
    by (rewrite S1, B2; reflexivity).
  split.
  - repeat split; auto.
  - intros n tick' ma' adv_min' adv_rate' other'.
    destruct (source_steps n tick' off ch1 ma' adv_min' adv_rate' other' dir1 T1)
      as (ch2 & E & L & Hfr & Hval).
    rewrite Hsrc1 in Hval.
    exists ch2. split; [exact E|]. split; [exact Hfr|]. split.
    + intros H0. pose proof (static_steps n tick' off ch1 ma' adv_min' adv_rate' other' dir1
                               T1 ltac:(rewrite Hsrc1; exact H0)) as E'.
      rewrite E in E'. congruence.
    + intros Hne. apply Hval; [exact Hne|]. unfold g_value. lia.
Qed.

Lemma stop_freezes_group_witness :
  let ch1 := fst (fst (step_group 1 OFF_RAMP ramp_end_block 0 0 0 0 DIR_UP)) in
  fld ch1 (OFF_RAMP + g_value) = 0xFF /\
  step_group_n 100 2 OFF_RAMP ch1 0 0 0 0 DIR_UP = (ch1, DIR_UP, repeat 0xFF 100).
Proof.
  intros ch1.
  pose proof (stop_freezes_group 1 OFF_RAMP ramp_end_block 0 0 0 0 DIR_UP) as H.
  cbv zeta in H.
  specialize (H ltac:(left; reflexivity) ltac:(reflexivity)
                ltac:(vm_compute; split; discriminate)
                ltac:(vm_compute; discriminate)).
  destruct H as (_ & H). split; [reflexivity|].
  destruct (H 100%nat 2 0 0 0 0) as (ch2 & E & _ & H0 & _).
  rewrite (H0 eq_refl) in E. exact E.
Defined.

Lemma no_timer_no_request tick off (ch : list Z) ma adv_min adv_rate other dir :
  Z.land (fld ch (off + g_select)) SEL_TIMER_MASK = SEL_TIMER_NONE ->
  snd (step_group tick off ch ma adv_min adv_rate other dir) = 0xFF.
Proof.
  intros H. unfold step_group. cbv zeta. rewrite H.
  change (SEL_TIMER_NONE =? SEL_TIMER_NONE) with true. cbv iota.
  destruct (negb _); reflexivity.
Qed.

Lemma raise_none trigger : raise_trigger 0xFF trigger = trigger.
Proof. reflexivity. Qed.

(** X16. [step_channel] does not look at the byte returned for the ramp
    group: when the intensity, frequency and width groups have no timer,
    the trigger comes back as it went in, whatever the ramp group's
    actions are. *)
Theorem ramp_request_discarded (tick : Z) (cfg : Config.system_config_t)
    (ch other : list Z) (ma_raw flags trigger : Z) :
  Z.land (fld ch o_intensity_select) SEL_TIMER_MASK = SEL_TIMER_NONE ->
  Z.land (fld ch o_freq_select) SEL_TIMER_MASK = SEL_TIMER_NONE ->
  Z.land (fld ch o_width_select) SEL_TIMER_MASK = SEL_TIMER_NONE ->
  snd (step_channel tick cfg ch other ma_raw flags trigger) = trigger.
Proof.
  intros Hi Hf Hw. unfold step_channel. cbv zeta.
  set (ma := ParamEngine.map_ma _ _ _).
  destruct (step_group tick OFF_RAMP ch ma _ _ _ _) as [[ch1 d1] m1] eqn:E1.
  destruct (step_group tick OFF_INTENSITY ch1 ma _ _ _ _) as [[ch2 d2] m2] eqn:E2.
  destruct (step_group tick OFF_FREQ ch2 ma _ _ _ _) as [[ch3 d3] m3] eqn:E3.
  destruct (step_group tick OFF_WIDTH ch3 ma _ _ _ _) as [[ch4 d4] m4] eqn:E4.
  cbn [snd].
  assert (F1 : forall j, j = o_intensity_select \/ j = o_freq_select \/ j = o_width_select ->
             fld ch1 j = fld ch j).
  { intros j Hj.
    pose proof (step_group_writes tick OFF_RAMP ch ma (Config.adv_ramp_level cfg)
      (Config.adv_ramp_time cfg) (fld other o_ramp_value) (dir_of_flags flags DIR_BIT_RAMP) j)
      as H. cbv zeta in H. rewrite E1 in H. cbn [fst] in H.
    destruct H as (_ & H & _). apply H; destruct Hj as [-> | [-> | ->]]; vm_compute; lia. }
  assert (M2 : m2 = 0xFF).
  { change m2 with (snd (ch2, d2, m2)). rewrite <- E2. apply no_timer_no_request.
    change (OFF_INTENSITY + g_select)%nat with o_intensity_select. rewrite F1 by auto. exact Hi. }
  assert (F2 : forall j, j = o_freq_select \/ j = o_width_select -> fld ch2 j = fld ch j).
  { intros j Hj. rewrite <- F1 by tauto.
    match type of E2 with step_group _ _ _ _ ?a ?b ?c ?d = _ =>
      pose proof (step_group_writes tick OFF_INTENSITY ch1 ma a b c d j) as H end.
    cbv zeta in H. rewrite E2 in H. cbn [fst] in H.
    destruct H as (_ & H & _). apply H; destruct Hj as [-> | ->]; vm_compute; lia. }
  assert (M3 : m3 = 0xFF).
  { change m3 with (snd (ch3, d3, m3)). rewrite <- E3. apply no_timer_no_request.
    change (OFF_FREQ + g_select)%nat with o_freq_select. rewrite F2 by auto. exact Hf. }
  assert (F3 : fld ch3 o_width_select = fld ch o_width_select).
  { rewrite <- F2 by tauto.
    match type of E3 with step_group _ _ _ _ ?a ?b ?c ?d = _ =>
      pose proof (step_group_writes tick OFF_FREQ ch2 ma a b c d o_width_select) as H end.
    cbv zeta in H. rewrite E3 in H. cbn [fst] in H.
    destruct H as (_ & H & _). apply H; vm_compute; lia. }
  assert (M4 : m4 = 0xFF).
  { change m4 with (snd (ch4, d4, m4)). rewrite <- E4. apply no_timer_no_request.
    change (OFF_WIDTH + g_select)%nat with o_width_select. rewrite F3. exact Hw. }
  subst m2 m3 m4. rewrite !raise_none. reflexivity.
Qed.


Lemma ramp_request_discarded_witness :
  snd (step_group 1 OFF_RAMP ramp_module_block 0 0 0 0 DIR_UP) = 5 /\
  snd (step_channel 1 Config.config_set_defaults ramp_module_block channel_defaults
         128 0 0xFF) = 0xFF.
Proof.
  split; [reflexivity|].
  apply ramp_request_discarded; reflexivity.
Defined.

Lemma tick_counters cfg r e :
  let e' := snd (param_engine_tick cfg r e) in
  tick_counter e' = u8 (tick_counter e + 1) /\
  master_sub e' = (if u8 (master_sub e + 1) >=? 128 then 0 else u8 (master_sub e + 1)) /\
  master_timer e' =
    (if u8 (master_sub e + 1) >=? 128 then u16 (master_timer e + 1) else master_timer e).
Proof.
  unfold param_engine_tick. cbv zeta.
  destruct (u8 (master_sub e + 1) >=? 128);
    repeat match goal with
           | |- context [let '(_, _) := ?x in _] => destruct x
           end; cbn; auto.
Qed.

Lemma all_bytes_firings :
  all_bytes (fun t => (timer_firings 256 t SEL_TIMER_244HZ =? 256)%nat
                      && (timer_firings 256 t SEL_TIMER_30HZ =? 32)%nat
                      && (timer_firings 256 t SEL_TIMER_1HZ =? 1)%nat
                      && (timer_firings 256 t SEL_TIMER_NONE =? 0)%nat) = true.
Proof. vm_compute. reflexivity. Qed.

Lemma ticks_counters n : forall cfg r e,
  0 <= tick_counter e <= 255 -> 0 <= master_sub e < 128 -> 0 <= master_timer e <= 65535 ->
  let e' := snd (param_engine_ticks n cfg r e) in
  tick_counter e' = (tick_counter e + Z.of_nat n) mod 256 /\
  master_sub e' = (master_sub e + Z.of_nat n) mod 128 /\
  master_timer e' = (master_timer e + (master_sub e + Z.of_nat n) / 128) mod 65536.
Proof.
  induction n as [|n IH]; intros cfg r e Ht Hs Hm.
  - cbn [param_engine_ticks snd]. rewrite !Z.add_0_r.
    rewrite (Z.div_small (master_sub e)) by lia. rewrite Z.add_0_r.
    rewrite !Z.mod_small by lia. auto.
  - cbn [param_engine_ticks].
    pose proof (tick_counters cfg r e) as H. cbv zeta in H.
    destruct (param_engine_tick cfg r e) as [r1 e1]. cbn [snd] in H.
    destruct H as (T1 & S1 & M1).
    assert (Hs1 : u8 (master_sub e + 1) = master_sub e + 1) by (apply u8_small; lia).
    rewrite Hs1 in S1, M1.
    assert (R1 : 0 <= tick_counter e1 <= 255) by (rewrite T1; apply u8_range).
    assert (R2 : 0 <= master_sub e1 < 128 /\ 0 <= master_timer e1 <= 65535 /\
                 master_sub e1 = (master_sub e + 1) mod 128 /\
                 master_timer e1 = (master_timer e + (master_sub e + 1) / 128) mod 65536).
    { destruct (Z.geb_spec (master_sub e + 1) 128).
      - assert (master_sub e = 127) by lia.
        rewrite S1, M1, H0. change ((127 + 1) mod 128) with 0. change ((127 + 1) / 128) with 1.
        pose proof (u16_range (master_timer e + 1)). unfold u16 in *. lia.
      - rewrite S1, M1. rewrite (Z.mod_small (master_sub e + 1)) by lia.
        rewrite (Z.div_small (master_sub e + 1)) by lia. rewrite Z.add_0_r.
        rewrite (Z.mod_small (master_timer e)) by lia. lia. }
    destruct R2 as (R2 & R3 & S1' & M1').
    specialize (IH cfg r1 e1 R1 R2 R3). cbv zeta in IH.
    destruct IH as (IT & IS & IM).
    rewrite IT, IS, IM, T1, S1', M1'. unfold u8.
    replace (Z.of_nat (S n)) with (1 + Z.of_nat n) by lia.
    split; [|split].
    + rewrite Zplus_mod_idemp_l. f_equal. lia.
    + rewrite Zplus_mod_idemp_l. f_equal. lia.
    + rewrite Zplus_mod_idemp_l. f_equal.
      pose proof (Z.div_mod (master_sub e + 1) 128 ltac:(lia)) as D.
      set (q := (master_sub e + 1) / 128) in *.
      set (s' := (master_sub e + 1) mod 128) in *.
      replace (master_sub e + (1 + Z.of_nat n)) with (q * 128 + (s' + Z.of_nat n)) by lia.
      rewrite Z.div_add_l by lia. lia.
Qed.

(** X17. The time base of [param_engine_tick]: after [n] ticks the tick
    counter has advanced by [n] modulo 256 and the master timer by one
    for every 128 ticks; during any 256 consecutive ticks the 244 Hz
    source fires 256 times, the 30 Hz source 32 times and the 1 Hz
    source once. *)
Theorem engine_time_base (n : nat) (cfg : Config.system_config_t) (r : Regs) (e : Engine) :
  0 <= tick_counter e <= 255 -> 0 <= master_sub e < 128 -> 0 <= master_timer e <= 65535 ->
  let e' := snd (param_engine_ticks n cfg r e) in
  (tick_counter e' = (tick_counter e + Z.of_nat n) mod 256 /\
   master_sub e' = (master_sub e + Z.of_nat n) mod 128 /\
   master_timer e' = (master_timer e + (master_sub e + Z.of_nat n) / 128) mod 65536) /\
  (timer_firings 256 (tick_counter e) SEL_TIMER_244HZ = 256 /\
   timer_firings 256 (tick_counter e) SEL_TIMER_30HZ = 32 /\
   timer_firings 256 (tick_counter e) SEL_TIMER_1HZ = 1 /\
   timer_firings 256 (tick_counter e) SEL_TIMER_NONE = 0)%nat.
Proof.
  intros Ht Hs Hm e'. split; [apply ticks_counters; assumption|].
  pose proof (BitFacts.all_bytes_spec _ all_bytes_firings (tick_counter e) Ht) as H.
  cbv beta in H. rewrite !andb_true_iff in H.
  destruct H as (((H1 & H2) & H3) & H4).
  repeat split; apply Nat.eqb_eq; assumption.
Qed.

Lemma engine_time_base_witness :
  master_timer (snd (param_engine_ticks 300 Config.config_set_defaults
                       (mkRegs channel_defaults channel_defaults 0)
                       (mkEngine 0 0xFF 0xFF 0 0 0 0 0 0 0 0))) = 2.
Proof.
  pose proof (engine_time_base 300 Config.config_set_defaults
                (mkRegs channel_defaults channel_defaults 0)
                (mkEngine 0 0xFF 0xFF 0 0 0 0 0 0 0 0)
                ltac:(cbn; lia) ltac:(cbn; lia) ltac:(cbn; lia)) as H.
  cbv zeta in H. destruct H as ((_ & _ & H) & _). rewrite H. reflexivity.
Defined.

End ModulationFacts.

(** ** Bytecode interpreter *)

Module BytecodeFacts.
Import ChannelMem Dispatcher Scenarios BitFacts InterpFacts WordFacts.

Lemma same_blocks_refl r : same_blocks r r.
Proof. split; reflexivity. Qed.

Lemma same_blocks_trans r1 r2 r3 : same_blocks r1 r2 -> same_blocks r2 r3 -> same_blocks r1 r3.
Proof. intros [A B] [C D]. split; congruence. Qed.

Lemma same_blocks_sym r1 r2 : same_blocks r1 r2 -> same_blocks r2 r1.
Proof. intros [A B]. split; congruence. Qed.

Lemma get_reg_ptr_same addr r1 r2 :
  same_blocks r1 r2 ->
  fst (channel_get_reg_ptr addr r1) = fst (channel_get_reg_ptr addr r2) /\
  same_blocks (snd (channel_get_reg_ptr addr r1)) (snd (channel_get_reg_ptr addr r2)) /\
  (forall v, same_blocks (store (fst (channel_get_reg_ptr addr r1)) v
                            (snd (channel_get_reg_ptr addr r1)))
                         (store (fst (channel_get_reg_ptr addr r2)) v
                            (snd (channel_get_reg_ptr addr r2)))) /\
  load (fst (channel_get_reg_ptr addr r1)) (snd (channel_get_reg_ptr addr r1))
    = load (fst (channel_get_reg_ptr addr r2)) (snd (channel_get_reg_ptr addr r2)).
Proof.
  intros [Ha Hb]. unfold channel_get_reg_ptr.
  destruct (_ && _); [|destruct (_ && _)]; cbn [fst snd load store];
    unfold same_blocks, set_channel_a, set_channel_b; cbn [channel_a channel_b scratch_byte];
    rewrite ?Ha, ?Hb; auto.
Qed.

Lemma write_reg_same addr v r1 r2 :
  same_blocks r1 r2 -> same_blocks (write_reg addr v r1) (write_reg addr v r2).
Proof.
  intros H. destruct (get_reg_ptr_same addr r1 r2 H) as (_ & _ & Hs & _).
  unfold write_reg.
  destruct (channel_get_reg_ptr addr r1), (channel_get_reg_ptr addr r2). apply Hs.
Qed.

Lemma read_reg_same addr r1 r2 :
  same_blocks r1 r2 ->
  fst (read_reg addr r1) = fst (read_reg addr r2) /\
  same_blocks (snd (read_reg addr r1)) (snd (read_reg addr r2)).
Proof.
  intros H. destruct (get_reg_ptr_same addr r1 r2 H) as (_ & Hb & _ & Hl).
  unfold read_reg.
  destruct (channel_get_reg_ptr addr r1), (channel_get_reg_ptr addr r2). cbn [fst snd] in *.
  auto.
Qed.

Lemma copy_reg_same dst src r1 r2 :
  same_blocks r1 r2 -> same_blocks (copy_reg dst src r1) (copy_reg dst src r2).
Proof.
  intros H. destruct (read_reg_same src r1 r2 H) as (Hv & Hr). unfold copy_reg.
  destruct (read_reg src r1), (read_reg src r2). cbn [fst snd] in *. subst.
  apply write_reg_same, Hr.
Qed.

Lemma update_reg_same addr f r1 r2 :
  same_blocks r1 r2 -> same_blocks (update_reg addr f r1) (update_reg addr f r2).
Proof.
  intros H. destruct (get_reg_ptr_same addr r1 r2 H) as (_ & _ & Hs & Hl).
  unfold update_reg.
  destruct (channel_get_reg_ptr addr r1), (channel_get_reg_ptr addr r2). cbn [fst snd] in *.
  rewrite Hl. apply Hs.
Qed.

Lemma copy_loop_same data : forall addr i r1 r2,
  same_blocks r1 r2 -> same_blocks (copy_loop addr i data r1) (copy_loop addr i data r2).
Proof.
  induction data as [|b data IH]; intros addr i r1 r2 H; cbn [copy_loop]; [exact H|].
  apply IH, write_reg_same, H.
Qed.

Lemma apply_flags_same addr r1 r2 :
  same_blocks r1 r2 -> apply_flags addr r1 = apply_flags addr r2.
Proof. intros [Ha Hb]. unfold apply_flags. rewrite Ha. reflexivity. Qed.

Ltac same_ifs :=
  repeat match goal with
         | |- same_blocks (if ?b then _ else _) (if ?b then _ else _) => destruct b
         | |- same_blocks (write_reg _ _ _) (write_reg _ _ _) => apply write_reg_same
         | |- same_blocks (copy_reg _ _ _) (copy_reg _ _ _) => apply copy_reg_same
         | |- same_blocks (update_reg _ _ _) (update_reg _ _ _) => apply update_reg_same
         end; try assumption.

Lemma exec_instr_same knob i s1 s2 :
  same_state s1 s2 -> same_state (exec_instr knob i s1) (exec_instr knob i s2).
Proof.
  intros [Hr Hp]. pose proof Hr as [Ha Hb].
  destruct i; cbn [exec_instr]; try (split; assumption).
  - split; [|exact Hp]. cbn [regs set_regs]. apply copy_loop_same, Hr.
  - unfold exec_memop. rewrite (apply_flags_same addr _ _ Hr).
    destruct (apply_flags addr (regs s2)) as [fa fb].
    destruct (op =? 0); [split; [cbn [regs set_regs]; same_ifs | exact Hp]|].
    destruct (op =? 1); [split; [cbn [regs set_regs]; same_ifs | exact Hp]|].
    destruct (op =? 2); [split; [cbn [regs set_regs]; same_ifs | exact Hp]|].
    destruct (op =? 3); [|split; assumption].
    rewrite Ha, Hb, Hp.
    destruct (if _ >? _ then _ else _) as [rv pr].
    split; [cbn [regs]; same_ifs | reflexivity].
  - unfold exec_mathop. rewrite (apply_flags_same addr _ _ Hr).
    destruct (apply_flags addr (regs s2)) as [fa fb].
    split; [cbn [regs set_regs]; same_ifs | exact Hp].
  - unfold exec_load_ma. rewrite Ha.
    split; [cbn [regs set_regs] | exact Hp].
    destruct (nonzero (Z.land _ 1)).
    + assert (H1 : same_blocks
        (write_reg 140 (map_ma knob (fld (channel_a (regs s2)) o_ma_range_high)
           (fld (channel_a (regs s2)) o_ma_range_low)) (regs s1))
        (write_reg 140 (map_ma knob (fld (channel_a (regs s2)) o_ma_range_high)
           (fld (channel_a (regs s2)) o_ma_range_low)) (regs s2)))
        by (apply write_reg_same, Hr).
      destruct (nonzero (Z.land _ 2)); [|exact H1].
      destruct H1 as [Ha1 Hb1]. rewrite Hb1. apply write_reg_same. split; assumption.
    + destruct (nonzero (Z.land _ 2)); [|exact Hr].
      rewrite Hb. apply write_reg_same, Hr.
  - unfold exec_set. rewrite Ha.
    split; [cbn [regs set_regs]; same_ifs | exact Hp].
Qed.

Lemma run_same knob prog fuel : forall pc s1 s2,
  same_state s1 s2 ->
  match run fuel knob prog pc s1, run fuel knob prog pc s2 with
  | Some s1', Some s2' => same_state s1' s2'
  | None, None => True
  | _, _ => False
  end.
Proof.
  induction fuel as [|fuel IH]; intros pc s1 s2 H; cbn [run]; [exact I|].
  destruct (decode prog pc) as [[i pc']|]; [|exact I].
  destruct i; try (apply IH, exec_instr_same, H). exact H.
Qed.

Lemma execute_module_same idx knob s1 s2 :
  same_state s1 s2 ->
  match execute_module idx knob s1, execute_module idx knob s2 with
  | Some s1', Some s2' => same_state s1' s2'
  | None, None => True
  | _, _ => False
  end.
Proof.
  intros H. unfold execute_module. destruct (_ <=? idx); [exact H|]. apply run_same, H.
Qed.

Lemma user_prog_loop_same code : forall r1 r2,
  same_blocks r1 r2 ->
  same_blocks (UserPrograms.user_prog_loop code r1) (UserPrograms.user_prog_loop code r2).
Proof.
  induction code as [code IH] using (induction_ltof1 _ (@length Z)).
  unfold ltof in IH. intros r1 r2 H.
  destruct code as [|opcode rest]; cbn [UserPrograms.user_prog_loop]; [exact H|].
  destruct (opcode =? 0); [exact H|].
  destruct (nonzero (Z.land opcode 128)); [|exact H].
  destruct rest as [|value rest']; [exact H|].
  apply IH; [cbn; lia|].
  destruct H as [Ha Hb]. rewrite Ha.
  same_ifs; split; assumption.
Qed.

Lemma same_result_bind (o1 o2 : option Interp) (f g : Interp -> option Interp) :
  same_result o1 o2 ->
  (forall a b, same_state a b -> same_result (f a) (g b)) ->
  same_result (o1 ≫= f) (o2 ≫= g).
Proof.
  intros H Hf. destruct o1 as [a|], o2 as [b|]; cbn in *; try contradiction; auto.
Qed.

Lemma execute_module_same_result idx knob s1 s2 :
  same_state s1 s2 -> same_result (execute_module idx knob s1) (execute_module idx knob s2).
Proof. apply execute_module_same. Qed.

Lemma on_channel_a_same f s1 s2 :
  same_state s1 s2 -> same_state (on_channel_a f s1) (on_channel_a f s2).
Proof.
  intros [[Ha Hb] Hp]. unfold on_channel_a, same_state, same_blocks. cbn. rewrite Ha. auto.
Qed.

Lemma on_channel_b_same f s1 s2 :
  same_state s1 s2 -> same_state (on_channel_b f s1) (on_channel_b f s2).
Proof.
  intros [[Ha Hb] Hp]. unfold on_channel_b, same_state, same_blocks. cbn. rewrite Hb. auto.
Qed.

Lemma setup_mode_modules_same mode knob cache s1 s2 :
  same_state s1 s2 ->
  same_result (setup_mode_modules mode knob cache s1) (setup_mode_modules mode knob cache s2).
Proof.
  intros H. unfold setup_mode_modules.
  destruct (_ && _).
  { cbn. destruct H as [Hr Hp]. split; [|exact Hp]. cbn [regs set_regs].
    unfold UserPrograms.user_prog_execute. destruct (negb _); [exact Hr|].
    apply user_prog_loop_same, Hr. }
  destruct (_ <=? mode).
  { cbn. apply on_channel_b_same, on_channel_a_same, H. }
  destruct (mode_modules !!! Z.to_nat mode) as [m0 m1].
  apply same_result_bind.
  { destruct (negb _); [apply execute_module_same_result, H | exact H]. }
  intros a b Hab. apply same_result_bind.
  { destruct (negb _); [apply execute_module_same_result, Hab | exact Hab]. }
  intros a1 b1 Hab1. apply same_result_bind.
  { destruct (_ =? _); [apply execute_module_same_result, Hab1 | exact Hab1]. }
  intros a2 b2 Hab2.
  repeat match goal with
         | |- same_result (if ?c then _ else _) (if ?c then _ else _) => destruct c
         end; cbn [same_result];
    repeat first [apply on_channel_a_same | apply on_channel_b_same]; exact Hab2.
Qed.

Lemma reload_blocks_same apply s1 s2 :
  prng_state s1 = prng_state s2 ->
  same_state (reload_blocks apply s1) (reload_blocks apply s2).
Proof. intros H. unfold reload_blocks, same_state, same_blocks. cbn. auto. Qed.

Lemma init_mode_modules_same mode knob cache s1 s2 :
  prng_state s1 = prng_state s2 ->
  same_result (init_mode_modules mode knob cache s1) (init_mode_modules mode knob cache s2).
Proof.
  intros H. unfold init_mode_modules. cbv zeta.
  apply same_result_bind.
  { apply execute_module_same_result, reload_blocks_same, H. }
  intros a b Hab. apply same_result_bind.
  { apply setup_mode_modules_same, Hab. }
  intros a1 b1 Hab1. cbn [same_result]. apply on_channel_a_same, Hab1.
Qed.

Lemma init_split_mode_same ma mb knob cache s1 s2 :
  prng_state s1 = prng_state s2 ->
  same_result (init_split_mode ma mb knob cache s1) (init_split_mode ma mb knob cache s2).
Proof.
  intros H. unfold init_split_mode. cbv zeta.
  apply same_result_bind.
  { apply execute_module_same_result, reload_blocks_same, H. }
  intros a b Hab. apply same_result_bind.
  { apply setup_mode_modules_same, Hab. }
  intros a1 b1 Hab1.
  destruct Hab1 as [[Ha1 Hb1] Hp1]. rewrite Ha1.
  apply same_result_bind.
  { apply execute_module_same_result, reload_blocks_same, Hp1. }
  intros a2 b2 Hab2. apply same_result_bind.
  { apply setup_mode_modules_same, Hab2. }
  intros a3 b3 [[Ha3 Hb3] Hp3]. cbn [same_result].
  apply on_channel_a_same. split; [|exact Hp3]. split; [reflexivity|]. cbn. exact Hb3.
Qed.

(** X18. [mode_dispatcher_select_mode] starts from defaults: two
    machines that agree on the knob, the user-program cache, the split
    modes and the PRNG state enter a mode with the same two channel
    blocks, the same PRNG state, the same output flags and the same
    direction flags, whatever their registers, engine and outputs were
    before. *)
Theorem mode_entry_forgets_registers (n : Z) (m1 m2 : Machine) :
  Config.multi_adjust (config m1) = Config.multi_adjust (config m2) ->
  prog_cache m1 = prog_cache m2 ->
  split_mode_a m1 = split_mode_a m2 -> split_mode_b m1 = split_mode_b m2 ->
  prng_state (interp m1) = prng_state (interp m2) ->
  exists m1' m2',
    mode_dispatcher_select_mode n m1 = Some m1' /\
    mode_dispatcher_select_mode n m2 = Some m2' /\
    channel_a (regs (interp m1')) = channel_a (regs (interp m2')) /\
    channel_b (regs (interp m1')) = channel_b (regs (interp m2')) /\
    prng_state (interp m1') = prng_state (interp m2') /\
    output_control_flags m1' = output_control_flags m2' /\
    ParamEngine.dir_flags_a (engine m1') = ParamEngine.dir_flags_a (engine m2') /\
    ParamEngine.dir_flags_b (engine m1') = ParamEngine.dir_flags_b (engine m2').
Proof.
  intros Hk Hc Hsa Hsb Hp.
  destruct (DispatcherFacts.select_mode_total n m1) as (m1' & E1 & _).
  destruct (DispatcherFacts.select_mode_total n m2) as (m2' & E2 & _).
  exists m1', m2'. split; [exact E1|]. split; [exact E2|].
  unfold mode_dispatcher_select_mode in E1, E2. cbv zeta in E1, E2.
  rewrite <- Hk, <- Hc, <- Hsa, <- Hsb in E2.
  set (n' := if Modes.MODE_COUNT <=? n then 0 else n) in *.
  set (knob := Config.multi_adjust (config m1)) in *.
  assert (Hsame : same_result
    (if n' =? Modes.MODE_RANDOM1
     then Some (set_regs (channel_mem_init (regs (interp m1))) (interp m1))
     else if n' =? Modes.MODE_SPLIT
          then init_split_mode (split_mode_a m1) (split_mode_b m1) knob (prog_cache m1)
                 (interp m1)
          else init_mode_modules n' knob (prog_cache m1) (interp m1))
    (if n' =? Modes.MODE_RANDOM1
     then Some (set_regs (channel_mem_init (regs (interp m2))) (interp m2))
     else if n' =? Modes.MODE_SPLIT
          then init_split_mode (split_mode_a m1) (split_mode_b m1) knob (prog_cache m1)
                 (interp m2)
          else init_mode_modules n' knob (prog_cache m1) (interp m2))).
  { destruct (n' =? Modes.MODE_RANDOM1).
    - cbn. split; [split; reflexivity | exact Hp].
    - destruct (n' =? Modes.MODE_SPLIT).
      + apply init_split_mode_same, Hp.
      + apply init_mode_modules_same, Hp. }
  destruct (n' =? Modes.MODE_RANDOM1).
  - cbn in E1, E2. injection E1 as <-. injection E2 as <-. cbn. auto 10.
  - destruct (n' =? Modes.MODE_SPLIT).
    + destruct (init_split_mode _ _ _ _ (interp m1)) as [a|];
        destruct (init_split_mode _ _ _ _ (interp m2)) as [b|]; cbn in *;
        try contradiction; try discriminate.
      injection E1 as <-. injection E2 as <-. cbn.
      destruct Hsame as [[Ha Hb] Hq]. rewrite Ha, Hb. auto 10.
    + destruct (init_mode_modules _ _ _ (interp m1)) as [a|];
        destruct (init_mode_modules _ _ _ (interp m2)) as [b|]; cbn in *;
        try contradiction; try discriminate.
      injection E1 as <-. injection E2 as <-. cbn.
      destruct Hsame as [[Ha Hb] Hq]. rewrite Ha, Hb. auto 10.
Qed.


Lemma mode_entry_forgets_registers_witness :
  exists m1' m2',
    mode_dispatcher_select_mode Modes.MODE_STROKE boot_machine = Some m1' /\
    mode_dispatcher_select_mode Modes.MODE_STROKE scrambled_machine = Some m2' /\
    channel_a (regs (interp m1')) = channel_a (regs (interp m2')) /\
    channel_b (regs (interp m1')) = channel_b (regs (interp m2')) /\
    prng_state (interp m1') = prng_state (interp m2') /\
    output_control_flags m1' = output_control_flags m2' /\
    ParamEngine.dir_flags_a (engine m1') = ParamEngine.dir_flags_a (engine m2') /\
    ParamEngine.dir_flags_b (engine m1') = ParamEngine.dir_flags_b (engine m2').
Proof.
  apply mode_entry_forgets_registers; reflexivity.
Defined.

(** ** SET *)
Lemma set_opcode_class opcode :
  0x80 <= opcode <= 0xFF ->
  Z.land opcode 0xE0 <> 0x00 /\ Z.land opcode 0xE0 <> 0x20 /\
  Z.land opcode 0xF0 <> 0x40 /\ Z.land opcode 0xF0 <> 0x50 /\ opcode <> 0x60 /\
  Z.land opcode 0x80 <> 0 /\ 0 <= Z.land opcode 0x3F <= 63.
Proof.
  intros H.
  pose proof (all_bytes_spec
    (fun o => (o <? 0x80) ||
       (negb (Z.land o 0xE0 =? 0x00) && negb (Z.land o 0xE0 =? 0x20)
        && negb (Z.land o 0xF0 =? 0x40) && negb (Z.land o 0xF0 =? 0x50)
        && negb (Z.land o 0x80 =? 0) && (0 <=? Z.land o 0x3F) && (Z.land o 0x3F <=? 63)))
    ltac:(vm_compute; reflexivity) opcode ltac:(lia)) as E.
  cbv beta in E. destruct (Z.ltb_spec opcode 0x80); [lia|]. cbn [orb] in E.
  rewrite !andb_true_iff, !negb_true_iff in E.
  destruct E as ((((((E1 & E2) & E3) & E4) & E5) & E6) & E7).
  apply Z.eqb_neq in E1, E2, E3, E4, E5. apply Z.leb_le in E6, E7.
  repeat split; try assumption; lia.
Qed.

Lemma decode_set prog pc opcode value :
  pgm_read_byte prog pc = Some opcode -> 0x80 <= opcode <= 0xFF ->
  pgm_read_byte prog (pc + 1) = Some value ->
  decode prog pc = Some (ISet opcode value, (pc + 2)%nat).
Proof.
  intros H1 Ho H2. destruct (set_opcode_class opcode Ho) as (A & B & C & D & E & F & _).
  unfold decode. rewrite H1. cbn [mbind option_bind].
  destruct (Z.eqb_spec (Z.land opcode 224) 0); [contradiction|].
  destruct (Z.eqb_spec (Z.land opcode 224) 32); [contradiction|].
  destruct (Z.eqb_spec (Z.land opcode 240) 64); [contradiction|].
  destruct (Z.eqb_spec (Z.land opcode 240) 80); [contradiction|].
  destruct (Z.eqb_spec opcode 96); [contradiction|].
  unfold nonzero. destruct (Z.eqb_spec (Z.land opcode 128) 0); [contradiction|].
  cbn [negb]. rewrite H2. reflexivity.
Qed.

(** X19. The SET instruction (opcode 0x80..0xFF followed by a value
    byte) takes two bytes and writes at most two registers: with bit 6
    clear, offset [opcode & 0x3F] of each channel block selected by the
    apply-channel byte; with bit 6 set, that offset of channel B alone.
    Every other mapped register and the PRNG state are left as they
    were. *)
Theorem set_routing (knob : Z) (prog : list Z) (pc : nat) (opcode value : Z)
    (fuel : nat) (s : Interp) :
  pgm_read_byte prog pc = Some opcode -> 0x80 <= opcode <= 0xFF ->
  pgm_read_byte prog (pc + 1) = Some value ->
  regs_ok (regs s) ->
  let f := Z.land opcode 0x3F in
  let ac := fld (channel_a (regs s)) o_apply_channel in
  let s' := exec_instr knob (ISet opcode value) s in
  run (S fuel) knob prog pc s = run fuel knob prog (pc + 2) s' /\
  regs_ok (regs s') /\ prng_state s' = prng_state s /\
  forall a, mapped a ->
    peek a (regs s') =
      if Z.land opcode 0x40 =? 0
      then if ((a =? 0x80 + f) && nonzero (Z.land ac 0x01))
              || ((a =? 0x180 + f) && nonzero (Z.land ac 0x02))
           then value else peek a (regs s)
      else if a =? 0x180 + f then value else peek a (regs s).
Proof.
  intros H1 Ho H2 Hok f ac s'.
  destruct (set_opcode_class opcode Ho) as (_ & _ & _ & _ & _ & _ & Hf). fold f in Hf.
  split.
  { cbn [run]. rewrite (decode_set prog pc opcode value H1 Ho H2). reflexivity. }
  subst s'. cbn [exec_instr]. unfold exec_set. cbv zeta. fold f. fold ac.
  cbn [regs set_regs prng_state].
  change (nonzero (Z.land opcode 64)) with (negb (Z.land opcode 64 =? 0)).
  destruct (Z.eqb_spec (Z.land opcode 64) 0) as [E|E]; cbn [negb].
  - destruct (nonzero (Z.land ac 1)) eqn:A1; destruct (nonzero (Z.land ac 2)) eqn:A2.
    + split; [apply write_reg_regs_ok, write_reg_regs_ok, Hok|]. split; [reflexivity|].
      intros a Ha. rewrite peek_write_reg by (try apply write_reg_regs_ok; assumption).
      rewrite peek_write_reg by assumption.
      destruct (Z.eqb_spec a (384 + f)), (Z.eqb_spec a (128 + f)); cbn; try reflexivity; lia.
    + split; [apply write_reg_regs_ok, Hok|]. split; [reflexivity|].
      intros a Ha. rewrite peek_write_reg by assumption.
      destruct (Z.eqb_spec a (384 + f)), (Z.eqb_spec a (128 + f)); cbn; try reflexivity; lia.
    + split; [apply write_reg_regs_ok, Hok|]. split; [reflexivity|].
      intros a Ha. rewrite peek_write_reg by assumption.
      destruct (Z.eqb_spec a (384 + f)), (Z.eqb_spec a (128 + f)); cbn; try reflexivity; lia.
    + split; [exact Hok|]. split; [reflexivity|].
      intros a Ha.
      destruct (Z.eqb_spec a (384 + f)), (Z.eqb_spec a (128 + f)); cbn; reflexivity.
  - split; [apply write_reg_regs_ok, Hok|]. split; [reflexivity|].
    intros a Ha. rewrite peek_write_reg by assumption. reflexivity.
Qed.

Lemma set_routing_witness :
  let s' := exec_instr 0 (ISet 0x90 0x06) boot_interp in
  run 3 0 [0x90; 0x06; 0x00] 0 boot_interp = run 2 0 [0x90; 0x06; 0x00] 2 s' /\
  peek 0x90 (regs s') = 0x06 /\ peek 0x190 (regs s') = 0x06.
Proof.
  intros s'.
  pose proof (set_routing 0 [0x90; 0x06; 0x00] 0 0x90 0x06 2 boot_interp
                eq_refl ltac:(lia) eq_refl ltac:(split; reflexivity)) as H.
  cbv zeta in H. destruct H as (H1 & _ & _ & H2). subst s'.
  split; [exact H1|]. split.
  - rewrite (H2 0x90) by (left; lia). reflexivity.
  - rewrite (H2 0x190) by (right; lia). reflexivity.
Defined.

(** ** RAND *)
(** X20. RAND on a channel-A address stores one value [v] with
    [random_min <= v <= max random_min random_max] in the channels the
    apply-channel byte selects; when the maximum does not exceed the
    minimum the value is the minimum and the PRNG is not advanced,
    otherwise the PRNG advances by exactly one step. *)
Theorem rand_within_bounds (addr : Z) (s : Interp) :
  0x80 <= addr < 0xC0 ->
  let lo := fld (channel_a (regs s)) o_random_min in
  let hi := fld (channel_a (regs s)) o_random_max in
  let ac := fld (channel_a (regs s)) o_apply_channel in
  0 <= lo <= 255 -> 0 <= hi <= 255 ->
  let s' := exec_memop 3 addr s in
  exists v,
    lo <= v <= Z.max lo hi /\
    (hi <= lo -> v = lo /\ prng_state s' = prng_state s) /\
    (lo < hi -> prng_state s' = snd (Prng.prng_next16 (prng_state s))) /\
    regs s' =
      (let r := if nonzero (Z.land ac 0x01) then write_reg addr v (regs s) else regs s in
       if nonzero (Z.land ac 0x02) then write_reg (addr + 0x100) v r else r).
Proof.
  intros Ha lo hi ac Hlo Hhi s'. subst s'. unfold exec_memop. cbv zeta.
  assert (Hfl : apply_flags addr (regs s) = (nonzero (Z.land ac 1), nonzero (Z.land ac 2))).
  { unfold apply_flags. destruct (Z.leb_spec 128 addr); [|lia].
    destruct (Z.ltb_spec addr 192); [|lia]. reflexivity. }
  rewrite Hfl. cbv iota.
  change (3 =? 0) with false. change (3 =? 1) with false. change (3 =? 2) with false.
  change (3 =? 3) with true. cbv iota.
  assert (Hsrc : nonzero (Z.land addr 256) = false).
  { pose proof (all_bytes_spec (fun a => (a <? 0x80) || (0xC0 <=? a) || (Z.land a 256 =? 0))
                  ltac:(vm_compute; reflexivity) addr ltac:(lia)) as E.
    cbv beta in E. destruct (Z.ltb_spec addr 128); [lia|].
    destruct (Z.leb_spec 192 addr); [lia|]. cbn [orb] in E.
    unfold nonzero. rewrite E. reflexivity. }
  rewrite Hsrc. fold lo hi.
  assert (Hu : u16 (addr + 256) = addr + 256) by (apply u16_small; lia).
  rewrite Hu.
  destruct (Z.gtb_spec hi lo) as [Hgt|Hle].
  - unfold Prng.prng_next.
    destruct (Prng.prng_next16 (prng_state s)) as [val st] eqn:En.
    set (x := u8 (Z.shiftr val 8)).
    assert (Hx : 0 <= x <= 255) by apply u8_range.
    assert (Hr : u16 (hi - lo + 1) = hi - lo + 1) by (apply u16_small; lia).
    rewrite Hr.
    pose proof (Z.mod_pos_bound x (hi - lo + 1) ltac:(lia)) as Hm.
    assert (E1 : u8 (x mod (hi - lo + 1)) = x mod (hi - lo + 1)) by (apply u8_small; lia).
    rewrite E1.
    assert (E2 : u8 (lo + x mod (hi - lo + 1)) = lo + x mod (hi - lo + 1))
      by (apply u8_small; lia).
    rewrite E2.
    exists (lo + x mod (hi - lo + 1)). cbn [regs prng_state].
    split; [lia|]. split; [lia|]. split; [reflexivity|]. reflexivity.
  - exists lo. cbn [regs prng_state].
    split; [lia|]. split; [auto|]. split; [lia|]. reflexivity.
Qed.

Lemma rand_within_bounds_witness :
  exists v,
    0 <= v <= Z.max 0 8 /\
    regs (exec_memop 3 0xA5 boot_interp) =
      write_reg (0xA5 + 0x100) v (write_reg 0xA5 v (regs boot_interp)).
Proof.
  pose proof (rand_within_bounds 0xA5 boot_interp ltac:(lia)) as H. cbv zeta in H.
  specialize (H ltac:(vm_compute; split; discriminate) ltac:(vm_compute; split; discriminate)).
  destruct H as (v & Hv & _ & _ & Hr). exists v. split; [exact Hv|exact Hr].
Defined.

(** ** Addresses outside channel A in MEMOP and MATHOP *)
Lemma write_reg_unmapped b v r : ~ mapped b -> same_blocks (write_reg b v r) r.
Proof. intros H. rewrite write_reg_scratch by exact H. split; reflexivity. Qed.

Lemma update_reg_unmapped b f r : ~ mapped b -> same_blocks (update_reg b f r) r.
Proof.
  intros H. unfold update_reg. rewrite get_reg_ptr_scratch by exact H. split; reflexivity.
Qed.

Lemma copy_reg_to_unmapped dst src r : ~ mapped dst -> same_blocks (copy_reg dst src r) r.
Proof.
  intros H. unfold copy_reg.
  pose proof (read_reg_same src r r (same_blocks_refl r)) as _.
  destruct (read_reg src r) as [v r'] eqn:E.
  assert (Hr' : same_blocks r' r).
  { unfold read_reg in E. destruct (channel_get_reg_ptr src r) as [p r''] eqn:Ep.
    injection E as _ <-. unfold channel_get_reg_ptr in Ep.
    destruct (_ && _); [injection Ep as _ <-; apply same_blocks_refl|].
    destruct (_ && _); injection Ep as _ <-; split; reflexivity. }
  eapply same_blocks_trans; [apply write_reg_unmapped, H | exact Hr'].
Qed.

Lemma copy_reg_from_unmapped dst src r :
  ~ mapped src -> same_blocks (copy_reg dst src r) (write_reg dst 0 r).
Proof.
  intros H. unfold copy_reg, read_reg. rewrite get_reg_ptr_scratch by exact H.
  cbn [load scratch_byte]. apply write_reg_same. split; reflexivity.
Qed.

Lemma unmapped_target (op addr value : Z) (s : Interp) :
  0 <= addr < 0x400 -> ~ (0x80 <= addr < 0xC0) ->
  let in_b := (0x180 <=? addr) && (addr <? 0x1C0) in
  same_state (exec_mathop op addr value s) s /\
  (op <> 1 -> same_blocks (regs (exec_memop op addr s)) (regs s)) /\
  same_state (exec_memop 1 addr s)
    (set_regs (write_reg (if in_b then 0x18C else 0x08C) 0 (regs s)) s).
Proof.
  intros Hr Hna in_b.
  assert (Hfl : apply_flags addr (regs s) = (negb in_b, in_b)).
  { unfold apply_flags, in_b.
    destruct (Z.leb_spec 128 addr), (Z.ltb_spec addr 192); cbn [andb]; try lia;
      destruct (_ && _); reflexivity. }
  assert (Htarget : if in_b then ~ mapped (u16 (addr + 0x100)) else ~ mapped addr).
  { unfold in_b, mapped.
    destruct (Z.leb_spec 384 addr), (Z.ltb_spec addr 448); cbn [andb]; try lia.
    rewrite u16_small by lia. lia. }
  split; [|split].
  - unfold exec_mathop. rewrite Hfl. cbv zeta iota.
    assert (Hb' : in_b && (128 <=? addr) && (addr <? 192) = false).
    { destruct in_b; [|reflexivity]. cbn [andb].
      destruct (Z.leb_spec 128 addr), (Z.ltb_spec addr 192); cbn [andb]; try reflexivity; lia. }
    rewrite Hb'. split; [|reflexivity]. cbn [regs set_regs].
    destruct in_b; cbn [negb]; [apply same_blocks_refl|].
    apply update_reg_unmapped, Htarget.
  - intros Hop. unfold exec_memop. rewrite Hfl. cbv zeta iota.
    destruct (op =? 0).
    { cbn [regs set_regs]. destruct in_b; cbn [negb].
      - apply copy_reg_to_unmapped, Htarget.
      - apply copy_reg_to_unmapped, Htarget. }
    destruct (Z.eqb_spec op 1); [contradiction|].
    destruct (op =? 2).
    { cbn [regs set_regs]. destruct in_b; cbn [negb]; apply update_reg_unmapped, Htarget. }
    destruct (op =? 3); [|apply same_blocks_refl].
    destruct (if _ >? _ then _ else _) as [rv pr]. cbn [regs].
    destruct in_b; cbn [negb]; apply write_reg_unmapped, Htarget.
  - unfold exec_memop. rewrite Hfl. cbv zeta iota.
    change (1 =? 0) with false. change (1 =? 1) with true. cbv iota.
    split; [|reflexivity]. cbn [regs set_regs].
    destruct in_b; cbn [negb]; apply copy_reg_from_unmapped, Htarget.
Qed.

(** X21. Outside 0x80..0xBF the memory and arithmetic opcodes reach no
    register: MATHOP changes neither channel block, every MEMOP other
    than LOAD changes neither channel block (for a channel-B address
    0x180..0x1BF the target is [addr + 0x100]), and LOAD puts 0 into the
    bank register of channel A, or of channel B for a channel-B
    address. *)
Theorem memop_mathop_outside_channel_a (op addr value : Z) (s : Interp) :
  0 <= addr < 0x400 -> ~ (0x80 <= addr < 0xC0) ->
  let in_b := (0x180 <=? addr) && (addr <? 0x1C0) in
  same_state (exec_mathop op addr value s) s /\
  (op <> 1 -> same_blocks (regs (exec_memop op addr s)) (regs s)) /\
  same_state (exec_memop 1 addr s)
    (set_regs (write_reg (if in_b then 0x18C else 0x08C) 0 (regs s)) s).
Proof. exact (unmapped_target op addr value s). Qed.

Lemma memop_mathop_outside_channel_a_witness :
  same_state (exec_mathop 0 0x1A5 7 boot_interp) boot_interp /\
  same_state (exec_memop 1 0x1A5 boot_interp)
    (set_regs (write_reg 0x18C 0 (regs boot_interp)) boot_interp).
Proof.
  pose proof (memop_mathop_outside_channel_a 0 0x1A5 7 boot_interp ltac:(lia) ltac:(lia)) as H.
  cbv zeta in H. destruct H as (H1 & _ & H3). split; [exact H1|exact H3].
Defined.

(** ** Progress of the interpreter loop *)
Lemma pgm_read_byte_lt prog pc b : pgm_read_byte prog pc = Some b -> (pc < length prog)%nat.
Proof. unfold pgm_read_byte. intros H. apply lookup_lt_Some in H. exact H. Qed.

Lemma decode_advances prog pc i pc' :
  decode prog pc = Some (i, pc') ->
  (pc < length prog)%nat /\ (i = IEnd \/ pc < pc')%nat.
Proof.
  unfold decode. destruct (pgm_read_byte prog pc) as [opcode|] eqn:E; [|discriminate].
  cbn [mbind option_bind]. apply pgm_read_byte_lt in E. intros H. split; [exact E|].
  repeat match type of H with
         | (if ?b then _ else _) = _ => destruct b
         | context [pgm_read_byte ?p ?q] => destruct (pgm_read_byte p q); cbn in H
         | context [pgm_read_bytes ?p ?q ?n] => destruct (pgm_read_bytes p q n); cbn in H
         end;
    try discriminate; injection H as <- <-; auto; right; lia.
Qed.

(** X22. The interpreter loop needs at most one iteration per remaining
    program byte: a run that ends gives the same result with any bound
    above [length prog - pc]. *)
Theorem run_fuel_adequate (knob : Z) (prog : list Z) (fuel : nat) :
  forall (pc : nat) (s s' : Interp),
    run fuel knob prog pc s = Some s' ->
    forall fuel', (length prog - pc < fuel')%nat -> run fuel' knob prog pc s = Some s'.
Proof.
  induction fuel as [|fuel IH]; intros pc s s' H fuel' Hf; [discriminate|].
  cbn [run] in H.
  destruct (decode prog pc) as [[i pc']|] eqn:E; [|discriminate].
  destruct (decode_advances _ _ _ _ E) as (Hlt & Hadv).
  destruct fuel' as [|fuel']; [lia|]. cbn [run]. rewrite E.
  destruct i; try exact H;
    (destruct Hadv as [Hadv|Hadv]; [discriminate|]; apply (IH _ _ _ H); lia).
Qed.

Lemma run_fuel_adequate_witness :
  run 6 0 skip_demo 0 boot_interp = run 3 0 skip_demo 0 boot_interp.
Proof.
  destruct (run 3 0 skip_demo 0 boot_interp) as [s'|] eqn:E; [|discriminate E].
  apply (run_fuel_adequate 0 skip_demo 3 0 boot_interp s' E 6%nat). cbn. lia.
Defined.

(** ** User programs and the built-in interpreter *)
Lemma end_opcode_class opcode :
  0 <= opcode <= 255 -> Z.land opcode 0xE0 = 0 ->
  opcode = 0 \/ nonzero (Z.land opcode 0x80) = false.
Proof.
  intros H E.
  pose proof (all_bytes_spec
    (fun o => negb (Z.land o 0xE0 =? 0) || negb (nonzero (Z.land o 0x80)))
    ltac:(vm_compute; reflexivity) opcode H) as A.
  cbv beta in A. rewrite E in A. cbn in A. right. apply negb_true_iff in A. exact A.
Qed.

Lemma set_bit_range opcode :
  0 <= opcode <= 255 -> nonzero (Z.land opcode 0x80) = true -> 0x80 <= opcode <= 0xFF.
Proof.
  intros H E.
  pose proof (all_bytes_spec
    (fun o => negb (nonzero (Z.land o 0x80)) || (0x80 <=? o))
    ltac:(vm_compute; reflexivity) opcode H) as A.
  cbv beta in A. rewrite E in A. cbn in A. apply Z.leb_le in A. lia.
Qed.

Lemma user_program_agrees_at knob prng code : forall pre r fuel,
  Forall (fun b => 0 <= b <= 255) code -> set_terminated code = true ->
  (length code < fuel)%nat ->
  run fuel knob (pre ++ code) (length pre) (mkInterp r prng)
    = Some (mkInterp (UserPrograms.user_prog_loop code r) prng).
Proof.
  induction code as [code IH] using (induction_ltof1 _ (@length Z)). unfold ltof in IH.
  intros pre r fuel Hb Ht Hf.
  destruct code as [|opcode rest]; [discriminate|].
  destruct fuel as [|fuel]; [lia|].
  assert (Hop : pgm_read_byte (pre ++ opcode :: rest) (length pre) = Some opcode).
  { unfold pgm_read_byte. rewrite lookup_app_r by lia. rewrite Nat.sub_diag. reflexivity. }
  inversion Hb as [|? ? Hbo Hbr]; subst.
  cbn [set_terminated] in Ht. cbn [UserPrograms.user_prog_loop].
  destruct (Z.eqb_spec (Z.land opcode 224) 0) as [E|E].
  - cbn [run]. rewrite (decode_end _ _ _ Hop E).
    destruct (end_opcode_class opcode Hbo E) as [-> | Hn]; [reflexivity|].
    rewrite Hn. destruct (opcode =? 0); reflexivity.
  - destruct (nonzero (Z.land opcode 128)) eqn:Hset; [|discriminate].
    destruct rest as [|value rest']; [discriminate|].
    pose proof (set_bit_range opcode Hbo Hset) as Hr.
    assert (Hval : pgm_read_byte (pre ++ opcode :: value :: rest') (length pre + 1)
                   = Some value).
    { unfold pgm_read_byte. rewrite lookup_app_r by lia.
      replace (length pre + 1 - length pre)%nat with 1%nat by lia. reflexivity. }
    cbn [run]. rewrite (decode_set _ _ _ _ Hop Hr Hval).
    destruct (Z.eqb_spec opcode 0); [lia|].
    inversion Hbr as [|? ? _ Hbr']; subst.
    specialize (IH rest' ltac:(cbn; lia) (pre ++ [opcode; value])).
    replace (pre ++ opcode :: value :: rest') with ((pre ++ [opcode; value]) ++ rest')
      by (rewrite <- app_assoc; reflexivity).
    replace (length pre + 2)%nat with (length (pre ++ [opcode; value]))
      by (rewrite length_app; cbn; lia).
    cbn [exec_instr]. unfold exec_set. cbv zeta. cbn [regs set_regs prng_state].
    apply IH; [exact Hbr' | exact Ht | cbn in Hf; lia].
Qed.

(** X23. The two interpreters agree: on a program made of SET pairs
    followed by an END opcode, the loop of [user_prog_execute] and the
    dispatcher's bytecode interpreter leave the same registers, and the
    PRNG state is not touched. *)
Theorem user_program_agrees (knob prng : Z) (code : list Z) (r : Regs) :
  Forall (fun b => 0 <= b <= 255) code -> set_terminated code = true ->
  run (S (length code)) knob code 0 (mkInterp r prng)
    = Some (mkInterp (UserPrograms.user_prog_loop code r) prng).
Proof.
  intros Hb Ht.
  apply (user_program_agrees_at knob prng code [] r (S (length code)) Hb Ht). lia.
Qed.

Lemma user_program_agrees_witness :
  run 6 0 [0x90; 0x06; 0xD0; 0x05; 0x00] 0 (mkInterp (regs boot_interp) 1)
    = Some (mkInterp
              (UserPrograms.user_prog_loop [0x90; 0x06; 0xD0; 0x05; 0x00] (regs boot_interp))
              1).
Proof.
  apply (user_program_agrees 0 1 [0x90; 0x06; 0xD0; 0x05; 0x00] (regs boot_interp)).
  - repeat (apply List.Forall_cons; [lia|]). apply List.Forall_nil.
  - reflexivity.
Defined.

(** ** Built-in modules *)
Lemma run_instructions knob prog fuel : forall pc s,
  halts fuel prog pc = true ->
  run fuel knob prog pc s
    = Some (fold_left (fun s i => exec_instr knob i s) (instructions fuel prog pc) s).
Proof.
  induction fuel as [|fuel IH]; intros pc s H; [discriminate|].
  cbn [halts run instructions] in *.
  destruct (decode prog pc) as [[i pc']|]; [|discriminate].
  destruct i; cbn [fold_left exec_instr]; try (apply IH; exact H). reflexivity.
Qed.

(** X24. The built-in module table: [execute_module] on a valid index is
    the left-to-right execution of the decoded instruction list of the
    module, and does nothing on an index past the table. Of all the
    memory and arithmetic instructions in the 36 modules only seven
    address a register outside channel A, all of them RAND on a
    channel-B address, in modules 28 and 32; such an instruction leaves
    both channel blocks unchanged. *)
Theorem builtin_modules_audit (idx knob : Z) (s : Interp) :
  let prog := ModePrograms.module_table !!! Z.to_nat idx in
  (0 <= idx < ModePrograms.MODULE_COUNT ->
   execute_module idx knob s
     = Some (fold_left (fun s i => exec_instr knob i s)
               (instructions (S (length prog)) prog 0) s)) /\
  (ModePrograms.MODULE_COUNT <= idx -> execute_module idx knob s = Some s) /\
  map (fun prog => filter outside_channel_a (instructions (S (length prog)) prog 0))
      ModePrograms.module_table
    = repeat [] 28
      ++ [[IMemOp 3 0x195; IMemOp 3 0x197]] ++ repeat [] 3
      ++ [[IMemOp 3 0x1B2; IMemOp 3 0x1A8; IMemOp 3 0x1B1; IMemOp 3 0x1BA; IMemOp 3 0x195]]
      ++ repeat [] 3 /\
  forall addr, 0x180 <= addr < 0x1C0 ->
    same_blocks (regs (exec_instr knob (IMemOp 3 addr) s)) (regs s).
Proof.
  intros prog. split; [|split; [|split]].
  - intros Hidx. unfold execute_module.
    destruct (Z.leb_spec ModePrograms.MODULE_COUNT idx); [lia|]. fold prog.
    apply run_instructions.
    pose proof DispatcherFacts.module_table_halts as Hall.
    rewrite forallb_forall in Hall. apply Hall.
    apply list_elem_of_In. apply list_elem_of_lookup_total_2.
    unfold ModePrograms.MODULE_COUNT in Hidx.
    change (length ModePrograms.module_table) with 36%nat. lia.
  - intros H. unfold execute_module.
    destruct (Z.leb_spec ModePrograms.MODULE_COUNT idx); [|lia]. reflexivity.
  - vm_compute. reflexivity.
  - intros addr Ha. cbn [exec_instr].
    destruct (unmapped_target 3 addr 0 s ltac:(lia) ltac:(lia)) as (_ & H & _).
    apply H. lia.
Qed.

Lemma builtin_modules_audit_witness :
  execute_module 28 0 boot_interp
    = Some (fold_left (fun s i => exec_instr 0 i s)
              (instructions 41 (ModePrograms.module_table !!! 28%nat) 0) boot_interp) /\
  same_blocks (regs (exec_instr 0 (IMemOp 3 0x195) boot_interp)) (regs boot_interp).
Proof.
  pose proof (builtin_modules_audit 28 0 boot_interp) as H. cbv zeta in H.
  destruct H as (H1 & _ & _ & H4). split.
  - apply H1. unfold ModePrograms.MODULE_COUNT. lia.
  - apply H4. lia.
Defined.

End BytecodeFacts.

(** ** Mode dispatcher *)

Module ModeFacts.
Import ChannelMem Dispatcher Scenarios ParamEngine Eeprom UserPrograms.
Import WordFacts PulseSafety UserProgramFacts BytecodeFacts.

(** *** Silence on mode change *)

Lemma select_mode_outputs n m m' :
  mode_dispatcher_select_mode n m = Some m' ->
  pulse m' = Pulse.pulse_set_gate_b Pulse.PULSE_OFF
               (Pulse.pulse_set_gate_a Pulse.PULSE_OFF (pulse m)) /\
  spi m' = Dac.dac_update_both_channels Dac.DAC_MAX_VALUE Dac.DAC_MAX_VALUE (spi m) /\
  config m' = config m /\ prog_cache m' = prog_cache m /\
  split_mode_a m' = split_mode_a m /\ split_mode_b m' = split_mode_b m /\
  dispatcher_paused m' = dispatcher_paused m /\
  current_mode m' = (if Modes.MODE_COUNT <=? n then 0 else n) /\
  r1_target m' = (if (if Modes.MODE_COUNT <=? n then 0 else n) =? Modes.MODE_RANDOM1
                  then 0 else r1_target m).
Proof.
  unfold mode_dispatcher_select_mode. cbv zeta. intros H.
  match type of H with (?o ≫= _) = _ => destruct o as [[s r1]|] eqn:E end;
    [|discriminate].
  cbn in H. injection H as <-. cbn.
  repeat split; try reflexivity.
  destruct (_ =? Modes.MODE_RANDOM1).
  - injection E as _ <-. reflexivity.
  - destruct (_ =? Modes.MODE_SPLIT).
    + destruct (init_split_mode _ _ _ _ _); [|discriminate]. injection E as _ <-. reflexivity.
    + destruct (init_mode_modules _ _ _ _); [|discriminate]. injection E as _ <-. reflexivity.
Qed.

(** X25. Every call of [mode_dispatcher_select_mode], whatever the mode
    number and the state, returns with both gates off and both DAC
    channels loaded with 1023 and updated (the six bytes 2F FC 1F FC 80
    00 on the SPI bus). A gate stays off through every later
    interleaving of ISR invocations and submissions that does not
    switch it on: the ISRs never write a gate. *)
Theorem mode_change_silences_output (n : Z) (m : Machine) (es : list Pulse.event) :
  exists m',
    mode_dispatcher_select_mode n m = Some m' /\
    Pulse.gate (Pulse.pulse_ch_a (pulse m')) = Pulse.PULSE_OFF /\
    Pulse.gate (Pulse.pulse_ch_b (pulse m')) = Pulse.PULSE_OFF /\
    spi m' = spi m ++ [0x2F; 0xFC; 0x1F; 0xFC; 0x80; 0x00] /\
    (Forall Pulse.gate_stays_off_a es ->
     Pulse.gate (Pulse.pulse_ch_a (Pulse.run es (pulse m'))) = Pulse.PULSE_OFF) /\
    (Forall Pulse.gate_stays_off_b es ->
     Pulse.gate (Pulse.pulse_ch_b (Pulse.run es (pulse m'))) = Pulse.PULSE_OFF).
Proof.
  destruct (DispatcherFacts.select_mode_total n m) as (m' & E & _).
  exists m'. split; [exact E|].
  destruct (select_mode_outputs n m m' E) as (Hp & Hs & _).
  assert (Ga : Pulse.gate (Pulse.pulse_ch_a (pulse m')) = Pulse.PULSE_OFF)
    by (rewrite Hp; reflexivity).
  assert (Gb : Pulse.gate (Pulse.pulse_ch_b (pulse m')) = Pulse.PULSE_OFF)
    by (rewrite Hp; reflexivity).
  split; [exact Ga|]. split; [exact Gb|]. split.
  - rewrite Hs. unfold Dac.dac_update_both_channels, Dac.dac_update, Dac.dac_load_a,
      Dac.dac_load_b, Dac.dac_send_word. rewrite <- !app_assoc. reflexivity.
  - destruct (run_gate_off es (pulse m')) as [Ha Hb]. split; intros H; auto.
Qed.

Lemma mode_change_silences_output_witness :
  exists m',
    mode_dispatcher_select_mode 3 boot_machine = Some m' /\
    Pulse.gate (Pulse.pulse_ch_a (Pulse.run [Pulse.IsrA; Pulse.IsrB; Pulse.IsrA] (pulse m')))
      = Pulse.PULSE_OFF.
Proof.
  destruct (mode_change_silences_output 3 boot_machine [Pulse.IsrA; Pulse.IsrB; Pulse.IsrA])
    as (m' & E & _ & _ & _ & Ha & _).
  exists m'. split; [exact E|]. apply Ha.
  repeat constructor.
Defined.

(** *** Split mode *)

(** X26. In split mode channel A does not depend on the mode chosen for
    channel B: [init_split_mode] leaves in channel A what the channel-A
    mode sets up on reloaded blocks, with the apply-channel byte back
    at 0x03. *)
Theorem split_channel_a_independent (ma mb mb' knob : Z) (cache : list (list Z))
    (s : Interp) :
  exists sp s1 s2,
    (s0 ← execute_module 1 knob (reload_blocks 0x01 s);
     setup_mode_modules ma knob cache s0) = Some sp /\
    init_split_mode ma mb knob cache s = Some s1 /\
    init_split_mode ma mb' knob cache s = Some s2 /\
    channel_a (regs s1) = set_fld o_apply_channel 0x03 (channel_a (regs sp)) /\
    channel_a (regs s1) = channel_a (regs s2).
Proof.
  unfold init_split_mode. cbv zeta.
  destruct (DispatcherFacts.execute_module_total 1 knob (reload_blocks 1 s)) as [a Ea].
  rewrite Ea. cbn [mbind option_bind].
  destruct (DispatcherFacts.setup_mode_modules_total ma knob cache a) as [sp Esp].
  rewrite Esp. cbn [mbind option_bind].
  destruct (DispatcherFacts.execute_module_total 1 knob (reload_blocks 2 sp)) as [b Eb].
  rewrite Eb. cbn [mbind option_bind].
  destruct (DispatcherFacts.setup_mode_modules_total mb knob cache b) as [c Ec].
  destruct (DispatcherFacts.setup_mode_modules_total mb' knob cache b) as [c' Ec'].
  rewrite Ec, Ec'. cbn [mbind option_bind].
  eexists _, _, _. repeat split; reflexivity.
Qed.

(** X27. [mode_dispatcher_set_split_modes] stores each mode, replaced
    by Waves when it is Split or above, in the state and in the EEPROM;
    [mode_dispatcher_init] reads the same pair back after a restart.
    The configuration block and the user-program slots of the EEPROM
    are not touched. *)
Theorem split_modes_persist (mode_a mode_b : Z) (m m0 : Machine) (ee : list Z) :
  0 <= mode_a <= 255 -> 0 <= mode_b <= 255 -> length ee = 512%nat ->
  let m' := fst (mode_dispatcher_set_split_modes mode_a mode_b m ee) in
  let ee' := snd (mode_dispatcher_set_split_modes mode_a mode_b m ee) in
  split_mode_a m' = (if Modes.MODE_SPLIT <=? mode_a then Modes.MODE_WAVES else mode_a) /\
  split_mode_b m' = (if Modes.MODE_SPLIT <=? mode_b then Modes.MODE_WAVES else mode_b) /\
  0 <= split_mode_a m' < Modes.MODE_SPLIT /\ 0 <= split_mode_b m' < Modes.MODE_SPLIT /\
  eeprom_load_split_modes ee' = (split_mode_a m', split_mode_b m') /\
  split_mode_a (mode_dispatcher_init ee' m0) = split_mode_a m' /\
  split_mode_b (mode_dispatcher_init ee' m0) = split_mode_b m' /\
  eeprom_load_config ee' = eeprom_load_config ee /\
  (forall s buf, 0 <= s ->
     eeprom_load_user_prog s buf ee' = eeprom_load_user_prog s buf ee).
Proof.
  intros Ha Hb Hee m' ee'.
  set (a := if Modes.MODE_SPLIT <=? mode_a then Modes.MODE_WAVES else mode_a).
  set (b := if Modes.MODE_SPLIT <=? mode_b then Modes.MODE_WAVES else mode_b).
  assert (Hra : 0 <= a < Modes.MODE_SPLIT).
  { unfold a, Modes.MODE_SPLIT, Modes.MODE_WAVES. destruct (Z.leb_spec 24 mode_a); lia. }
  assert (Hrb : 0 <= b < Modes.MODE_SPLIT).
  { unfold b, Modes.MODE_SPLIT, Modes.MODE_WAVES. destruct (Z.leb_spec 24 mode_b); lia. }
  assert (Eee : ee' = write_bytes EEPROM_SPLIT_A_MODE [a; b] ee) by reflexivity.
  assert (Ema : split_mode_a m' = a) by reflexivity.
  assert (Emb : split_mode_b m' = b) by reflexivity.
  rewrite Ema, Emb. clearbody ee' m'. subst ee'.
  assert (Hload : eeprom_load_split_modes (write_bytes EEPROM_SPLIT_A_MODE [a; b] ee)
                  = (a, b)).
  { unfold eeprom_load_split_modes, mk312bt_eeprom_read_byte, EEPROM_SPLIT_A_MODE,
      EEPROM_SPLIT_B_MODE.
    rewrite !lookup_write_bytes by (cbn [length]; lia).
    change (Z.to_nat 22) with 22%nat. change (Z.to_nat 23) with 23%nat. cbn.
    change ([a; b] !!! 0%nat) with a. change ([b] !!! 0%nat) with b.
    unfold Modes.MODE_SPLIT in *.
    destruct (Z.ltb_spec a 24); [|lia]. destruct (Z.ltb_spec b 24); [|lia]. reflexivity. }
  repeat split; try lia.
  - exact Hload.
  - unfold mode_dispatcher_init. rewrite Hload. reflexivity.
  - unfold mode_dispatcher_init. rewrite Hload. reflexivity.
  - unfold eeprom_load_config, EEPROM_CONFIG_BASE, config_size.
    rewrite read_write_disjoint; [reflexivity| lia | unfold EEPROM_SPLIT_A_MODE; lia
      | cbn [length]; unfold EEPROM_SPLIT_A_MODE; lia | unfold EEPROM_SPLIT_A_MODE; cbn; lia].
  - intros s buf Hs. unfold eeprom_load_user_prog.
    destruct (Z.leb_spec USER_PROG_SLOT_COUNT s); [reflexivity|].
    pose proof (user_prog_addr_value s ltac:(lia)) as Ea. cbv zeta.
    change (Z.to_nat USER_PROG_SLOT_SIZE) with 32%nat.
    rewrite read_write_disjoint; [reflexivity | lia | unfold EEPROM_SPLIT_A_MODE; lia
      | cbn [length]; unfold EEPROM_SPLIT_A_MODE; lia
      | right; cbn [length]; unfold EEPROM_SPLIT_A_MODE; lia].
Qed.

Lemma split_modes_persist_witness :
  eeprom_load_split_modes (snd (mode_dispatcher_set_split_modes 3 200 boot_machine blank_store))
    = (3, 0).
Proof.
  pose proof (split_modes_persist 3 200 boot_machine boot_machine blank_store
                ltac:(lia) ltac:(lia) eq_refl) as H.
  cbv zeta in H. destruct H as (_ & _ & _ & _ & H & _). exact H.
Defined.

(** *** The deferred-command mailbox *)

Lemma select_mode_in_range n m :
  0 <= n <= 255 ->
  exists m', mode_dispatcher_select_mode n m = Some m' /\
             current_mode m' = (if Modes.MODE_COUNT <=? n then 0 else n) /\
             0 <= current_mode m' < Modes.MODE_COUNT.
Proof.
  intros Hn. destruct (DispatcherFacts.select_mode_total n m) as (m' & E & Hc).
  exists m'. split; [exact E|]. split; [exact Hc|]. rewrite Hc.
  unfold Modes.MODE_COUNT. destruct (Z.leb_spec 25 n); lia.
Qed.

(** X28. [mode_dispatcher_poll_deferred] always returns, empties the
    mailbox and keeps the mode number in range, so that a second poll
    returns 0 and changes nothing. It returns 0 on an empty mailbox, 2
    for a pause request, 3 for a ramp request and 1 otherwise; next and
    previous move the mode by one and stop at the ends of the mode
    list. *)
Theorem poll_deferred_mailbox (d : Deferred) (m : Machine) :
  0 <= current_mode m < Modes.MODE_COUNT -> 0 <= deferred_mode d <= 255 ->
  exists res d' m',
    mode_dispatcher_poll_deferred d m = Some (res, d', m') /\
    deferred_cmd d' = DEFERRED_NONE /\
    0 <= current_mode m' < Modes.MODE_COUNT /\
    mode_dispatcher_poll_deferred d' m' = Some (0, d', m') /\
    (deferred_cmd d = DEFERRED_NONE -> res = 0 /\ m' = m /\ d' = d) /\
    (deferred_cmd d = DEFERRED_SET_MODE ->
       res = 1 /\ mode_dispatcher_select_mode (deferred_mode d) m = Some m') /\
    (deferred_cmd d = DEFERRED_PAUSE -> res = 2 /\ m' = mode_dispatcher_pause m) /\
    (deferred_cmd d = DEFERRED_NEXT ->
       res = 1 /\
       if current_mode m <? Modes.MODE_COUNT - 1
       then current_mode m' = current_mode m + 1 else m' = m) /\
    (deferred_cmd d = DEFERRED_PREV ->
       res = 1 /\
       if current_mode m >? 0 then current_mode m' = current_mode m - 1 else m' = m) /\
    (deferred_cmd d = DEFERRED_RELOAD ->
       res = 1 /\ mode_dispatcher_select_mode (current_mode m) m = Some m') /\
    (deferred_cmd d = DEFERRED_START_RAMP -> res = 3 /\ m' = m).
Proof.
  intros Hc Hd. unfold Modes.MODE_COUNT in Hc.
  unfold mode_dispatcher_poll_deferred at 1. cbv zeta.
  unfold DEFERRED_NONE, DEFERRED_SET_MODE, DEFERRED_PAUSE, DEFERRED_NEXT, DEFERRED_PREV,
    DEFERRED_RELOAD, DEFERRED_START_RAMP.
  assert (Hidle : forall d0 m0, deferred_cmd d0 = 0 ->
            mode_dispatcher_poll_deferred d0 m0 = Some (0, d0, m0)).
  { intros d0 m0 E. unfold mode_dispatcher_poll_deferred. rewrite E. reflexivity. }
  destruct (Z.eqb_spec (deferred_cmd d) 0) as [E0|E0].
  { exists 0, d, m. repeat split; auto; try (intros; lia). unfold Modes.MODE_COUNT. lia. }
  destruct (Z.eqb_spec (deferred_cmd d) 1) as [E1|E1].
  { cbn [deferred_mode].
    destruct (select_mode_in_range (deferred_mode d) m Hd) as (m' & E & _ & Hr).
    rewrite E. cbn [mbind option_bind].
    exists 1, (mkDeferred 0 (deferred_mode d)), m'.
    repeat split; auto; try (intros; lia). }
  destruct (Z.eqb_spec (deferred_cmd d) 2) as [E2|E2].
  { exists 2, (mkDeferred 0 (deferred_mode d)), (mode_dispatcher_pause m).
    repeat split; auto; try (intros; lia); cbn; unfold Modes.MODE_COUNT; lia. }
  destruct (Z.eqb_spec (deferred_cmd d) 3) as [E3|E3].
  { unfold Modes.MODE_COUNT. destruct (Z.ltb_spec (current_mode m) (25 - 1)).
    - destruct (select_mode_in_range (u8 (current_mode m + 1)) m ltac:(apply u8_range))
        as (m' & E & Hm & Hr).
      rewrite E. cbn [mbind option_bind].
      exists 1, (mkDeferred 0 (deferred_mode d)), m'.
      rewrite u8_small in Hm by lia. unfold Modes.MODE_COUNT in Hm.
      destruct (Z.leb_spec 25 (current_mode m + 1)); [lia|].
      repeat split; auto; try (intros; lia).
    - cbn [mbind option_bind].
      exists 1, (mkDeferred 0 (deferred_mode d)), m.
      repeat split; auto; try (intros; lia). }
  destruct (Z.eqb_spec (deferred_cmd d) 4) as [E4|E4].
  { destruct (Z.gtb_spec (current_mode m) 0).
    - destruct (select_mode_in_range (u8 (current_mode m - 1)) m ltac:(apply u8_range))
        as (m' & E & Hm & Hr).
      rewrite E. cbn [mbind option_bind].
      exists 1, (mkDeferred 0 (deferred_mode d)), m'.
      rewrite u8_small in Hm by lia. unfold Modes.MODE_COUNT in Hm.
      destruct (Z.leb_spec 25 (current_mode m - 1)); [lia|].
      repeat split; auto; try (intros; lia).
    - cbn [mbind option_bind].
      exists 1, (mkDeferred 0 (deferred_mode d)), m.
      repeat split; auto; try (intros; lia); unfold Modes.MODE_COUNT; lia. }
  destruct (Z.eqb_spec (deferred_cmd d) 5) as [E5|E5].
  { destruct (select_mode_in_range (current_mode m) m ltac:(lia)) as (m' & E & _ & Hr).
    rewrite E. cbn [mbind option_bind].
    exists 1, (mkDeferred 0 (deferred_mode d)), m'.
    repeat split; auto; try (intros; lia). }
  destruct (Z.eqb_spec (deferred_cmd d) 6) as [E6|E6].
  { exists 3, (mkDeferred 0 (deferred_mode d)), m.
    repeat split; auto; try (intros; lia); unfold Modes.MODE_COUNT; lia. }
  exists 1, (mkDeferred 0 (deferred_mode d)), m.
  repeat split; auto; try (intros; lia); unfold Modes.MODE_COUNT; lia.
Qed.

Lemma poll_deferred_mailbox_witness :
  exists res d' m',
    mode_dispatcher_poll_deferred
      (mode_dispatcher_request_pause (mode_dispatcher_request_mode 3 (mkDeferred 0 0)))
      boot_machine = Some (res, d', m') /\
    deferred_cmd d' = DEFERRED_NONE /\ res = 2 /\ m' = mode_dispatcher_pause boot_machine.
Proof.
  destruct (poll_deferred_mailbox
              (mode_dispatcher_request_pause (mode_dispatcher_request_mode 3 (mkDeferred 0 0)))
              boot_machine ltac:(vm_compute; split; [discriminate|reflexivity])
              ltac:(vm_compute; split; discriminate))
    as (res & d' & m' & H1 & H2 & _ & _ & _ & _ & H3 & _).
  exists res, d', m'. destruct (H3 eq_refl) as (Hr & Hm). auto.
Defined.

(** *** Random 1 *)

Lemma run_triggered_total module knob s e :
  exists s' e', run_triggered module knob s e = Some (s', e').
Proof.
  unfold run_triggered. destruct (_ && _); [|eauto].
  destruct (DispatcherFacts.execute_module_total module knob s) as [s' E]. rewrite E.
  cbn. eauto.
Qed.

(** What [mode_dispatcher_update] does after [random1_tick]. *)
Lemma update_tail m m1 :
  dispatcher_paused m = 0 ->
  (if current_mode m =? Modes.MODE_RANDOM1 then random1_tick m else Some m) = Some m1 ->
  exists m',
    mode_dispatcher_update m = Some m' /\
    current_mode m' = current_mode m1 /\ r1_target m' = r1_target m1 /\
    pulse m' = pulse m1 /\ spi m' = spi m1 /\ config m' = config m1 /\
    prog_cache m' = prog_cache m1 /\ dispatcher_paused m' = dispatcher_paused m1 /\
    split_mode_a m' = split_mode_a m1 /\ split_mode_b m' = split_mode_b m1.
Proof.
  intros Hp Ht. unfold mode_dispatcher_update. rewrite Hp. change (nonzero 0) with false.
  cbv iota. rewrite Ht. cbn [mbind option_bind].
  destruct (param_engine_tick (config m1) (regs (interp m1)) (engine m1)) as [r e].
  destruct (param_engine_check_module_trigger_a e) as [mod_a e1].
  destruct (param_engine_check_module_trigger_b e1) as [mod_b e2].
  destruct (run_triggered_total mod_a (Config.multi_adjust (config m1))
              (set_regs r (interp m1)) e2) as (s1 & e3 & E1).
  rewrite E1. cbn [mbind option_bind].
  destruct (run_triggered_total mod_b (Config.multi_adjust (config m1)) s1 e3)
    as (s2 & e4 & E2).
  rewrite E2. cbn [mbind option_bind].
  eexists. repeat split; reflexivity.
Qed.

Lemma prng_next_byte st : 0 <= fst (Prng.prng_next st) <= 255.
Proof.
  unfold Prng.prng_next. destruct (Prng.prng_next16 st) as [v st']. cbn [fst].
  apply u8_range.
Qed.

(** X29. One [mode_dispatcher_update] in Random 1 while the dispatcher
    is not paused: with no target time it stays in Random 1 and sets
    the target 20 to 120 master ticks ahead; before the target time the
    mode and the target stay as they are; at the target time it enters
    one of the modes Waves..Rhythm through the mode selection, so the
    current mode is no longer Random 1, the target is cleared and both
    gates are off. *)
Theorem random1_switches_once (m : Machine) :
  dispatcher_paused m = 0 -> current_mode m = Modes.MODE_RANDOM1 ->
  0 <= r1_target m ->
  let master := master_timer (engine m) in
  exists m',
    mode_dispatcher_update m = Some m' /\
    (r1_target m = 0 ->
       current_mode m' = Modes.MODE_RANDOM1 /\
       exists offset, 0x14 <= offset <= 0x78 /\ r1_target m' = u16 (master + offset)) /\
    (0 < r1_target m -> master < r1_target m ->
       current_mode m' = Modes.MODE_RANDOM1 /\ r1_target m' = r1_target m) /\
    (0 < r1_target m -> r1_target m <= master ->
       0 <= current_mode m' <= Modes.MODE_RHYTHM /\
       current_mode m' <> Modes.MODE_RANDOM1 /\ r1_target m' = 0 /\
       Pulse.gate (Pulse.pulse_ch_a (pulse m')) = Pulse.PULSE_OFF /\
       Pulse.gate (Pulse.pulse_ch_b (pulse m')) = Pulse.PULSE_OFF).
Proof.
  intros Hp Hc Hr master.
  assert (Ht : exists m1,
    (if current_mode m =? Modes.MODE_RANDOM1 then random1_tick m else Some m) = Some m1 /\
    (r1_target m = 0 ->
       current_mode m1 = Modes.MODE_RANDOM1 /\
       exists offset, 0x14 <= offset <= 0x78 /\ r1_target m1 = u16 (master + offset)) /\
    (0 < r1_target m -> master < r1_target m ->
       current_mode m1 = Modes.MODE_RANDOM1 /\ r1_target m1 = r1_target m) /\
    (0 < r1_target m -> r1_target m <= master ->
       0 <= current_mode m1 <= Modes.MODE_RHYTHM /\
       current_mode m1 <> Modes.MODE_RANDOM1 /\ r1_target m1 = 0 /\
       Pulse.gate (Pulse.pulse_ch_a (pulse m1)) = Pulse.PULSE_OFF /\
       Pulse.gate (Pulse.pulse_ch_b (pulse m1)) = Pulse.PULSE_OFF)).
  { rewrite Hc. change (Modes.MODE_RANDOM1 =? Modes.MODE_RANDOM1) with true. cbv iota.
    unfold random1_tick. cbv zeta. unfold param_engine_get_master_timer. fold master.
    destruct (Z.eqb_spec (r1_target m) 0) as [E0|E0].
    - pose proof (prng_next_byte (prng_state (interp m))) as Hx.
      destruct (Prng.prng_next (prng_state (interp m))) as [x prng]. cbn [fst] in Hx.
      eexists. split; [reflexivity|]. cbn [current_mode r1_target with_r1].
      split; [|split; intros; lia].
      intros _. split; [exact Hc|].
      exists (u8 (0x14 + x mod (0x78 - 0x14 + 1))). split; [|reflexivity].
      pose proof (Z.mod_pos_bound x (0x78 - 0x14 + 1) ltac:(lia)).
      rewrite u8_small by lia. lia.
    - destruct (Z.geb_spec master (r1_target m)) as [Hge|Hlt].
      + pose proof (prng_next_byte (prng_state (interp m))) as Hx.
        destruct (Prng.prng_next (prng_state (interp m))) as [x prng]. cbn [fst] in Hx.
        destruct (Prng.prng_next prng) as [x2 prng2].
        set (new_mode := random1_modes !!! Z.to_nat (x mod 6)).
        assert (Hnm : 0 <= new_mode <= 5).
        { unfold new_mode. pose proof (Z.mod_pos_bound x 6 ltac:(lia)) as Hm.
          assert (Hcase : x mod 6 = 0 \/ x mod 6 = 1 \/ x mod 6 = 2 \/ x mod 6 = 3 \/
                          x mod 6 = 4 \/ x mod 6 = 5) by lia.
          destruct Hcase as [-> | [-> | [-> | [-> | [-> | ->]]]]]; vm_compute;
            split; discriminate. }
        match goal with |- context [mode_dispatcher_select_mode new_mode ?mm] =>
          destruct (DispatcherFacts.select_mode_total new_mode mm) as (m1 & E & Hcm);
          pose proof (select_mode_outputs new_mode mm m1 E) as Hout
        end.
        exists m1. split; [exact E|].
        split; [intros; lia|]. split; [intros; lia|].
        intros _ _.
        destruct Hout as (Hpu & _ & _ & _ & _ & _ & _ & _ & Hr1).
        unfold Modes.MODE_COUNT in *.
        destruct (Z.leb_spec 25 new_mode); [lia|].
        rewrite Hcm. unfold Modes.MODE_RHYTHM, Modes.MODE_RANDOM1 in *.
        split; [lia|]. split; [lia|].
        split.
        { rewrite Hr1. destruct (Z.eqb_spec new_mode 9); reflexivity. }
        rewrite Hpu. split; reflexivity.
      + exists m. split; [reflexivity|].
        split; [intros; lia|]. split; [auto|]. intros; lia. }
  destruct Ht as (m1 & Et & H1 & H2 & H3).
  destruct (update_tail m m1 Hp Et) as (m' & Eu & Ec & Er & Epu & _).
  exists m'. split; [exact Eu|]. rewrite Ec, Er, Epu. auto.
Qed.

Lemma random1_switches_once_witness :
  exists m',
    mode_dispatcher_update random1_machine = Some m' /\
    current_mode m' <> Modes.MODE_RANDOM1 /\ r1_target m' = 0.
Proof.
  destruct (random1_switches_once random1_machine eq_refl eq_refl ltac:(cbn; lia))
    as (m' & E & _ & _ & H).
  exists m'. split; [exact E|].
  destruct (H ltac:(cbn; lia) ltac:(cbn; lia)) as (_ & Hm & Ht & _).
  split; [exact Hm | exact Ht].
Defined.

End ModeFacts.

(** ** Pseudo-random generator *)

Module PrngFacts.
Import Prng WordFacts.

Lemma prng_step_value s : snd (prng_next16 s) = (1103515245 * s + 12345) mod 65536.
Proof.
  unfold prng_next16. cbn [snd].
  change 0xFFFF with (Z.ones 16). rewrite Z.land_ones by lia.
  change (2 ^ 32) with (65536 * 65536). change (2 ^ 16) with 65536.
  rewrite Z.rem_mul_r by lia.
  rewrite Z.mul_comm with (n := 65536) at 1.
  rewrite Z.mod_add by lia. rewrite Z.mod_mod by lia. f_equal. lia.
Qed.

Lemma prng_iter_succ n s : prng_iter (N.succ n) s = snd (prng_next16 (prng_iter n s)).
Proof. unfold prng_iter. rewrite N.iter_succ. reflexivity. Qed.

Lemma prng_iter_add a b s : prng_iter (a + b) s = prng_iter a (prng_iter b s).
Proof. unfold prng_iter. apply N.iter_add. Qed.

Lemma prng_iter_pow2 k : forall s,
  prng_iter (2 ^ N.of_nat k) s
    = (fst (affine_pow2 k) * s + snd (affine_pow2 k)) mod 65536.
Proof.
  induction k as [|k IH]; intros s.
  - change (2 ^ N.of_nat 0)%N with 1%N. change (prng_iter 1 s) with (snd (prng_next16 s)).
    rewrite prng_step_value. cbn [affine_pow2 Nat.iter affine_step fst snd].
    rewrite <- (Z.add_mod_idemp_l (1103515245 mod 65536 * s)) by lia.
    rewrite Z.mul_mod_idemp_l by lia. rewrite Z.add_mod_idemp_l by lia. reflexivity.
  - replace (2 ^ N.of_nat (S k))%N with (2 ^ N.of_nat k + 2 ^ N.of_nat k)%N.
    2:{ rewrite Nat2N.inj_succ, N.pow_succ_r'. lia. }
    rewrite prng_iter_add, !IH.
    change (affine_pow2 (S k)) with (affine_double (affine_pow2 k)).
    destruct (affine_pow2 k) as [A C]. cbn [fst snd affine_double].
    rewrite <- (Z.add_mod_idemp_l (A * _)) by lia.
    rewrite Z.mul_mod_idemp_r by lia. rewrite Z.add_mod_idemp_l by lia.
    rewrite Z.add_mod_idemp_r by lia.
    rewrite <- (Z.add_mod_idemp_l (_ mod 65536 * s)) by lia.
    rewrite Z.mul_mod_idemp_l by lia. rewrite Z.add_mod_idemp_l by lia.
    f_equal. ring.
Qed.

Lemma affine_full : affine_pow2 16 = (1, 0).
Proof. vm_compute. reflexivity. Qed.

Lemma affine_half : affine_pow2 15 = (1, 32768).
Proof. vm_compute. reflexivity. Qed.

Lemma prng_iter_range n s : 0 <= s <= 65535 -> 0 <= prng_iter n s <= 65535.
Proof.
  intros Hs. induction n as [|n IH] using N.peano_ind; [exact Hs|].
  rewrite prng_iter_succ, prng_step_value.
  pose proof (Z.mod_pos_bound (1103515245 * prng_iter n s + 12345) 65536 ltac:(lia)). lia.
Qed.

Lemma period_mul k s : prng_iter k s = s -> forall m, prng_iter (m * k) s = s.
Proof.
  intros H m. induction m as [|m IH] using N.peano_ind; [reflexivity|].
  rewrite N.mul_succ_l, prng_iter_add, H. exact IH.
Qed.

Lemma period_gcd s : forall a b,
  prng_iter a s = s -> prng_iter b s = s -> prng_iter (N.gcd a b) s = s.
Proof.
  intros a. induction a as [a IH] using (well_founded_induction N.lt_wf_0).
  intros b Ha Hb.
  destruct (N.eq_dec a 0%N) as [->|Hne].
  - rewrite N.gcd_0_l. exact Hb.
  - rewrite <- (N.Lcm0.gcd_mod b a).
    apply IH.
    + apply N.mod_lt. exact Hne.
    + pose proof (N.div_mod b a Hne) as D.
      rewrite D in Hb. rewrite N.add_comm, prng_iter_add in Hb.
      rewrite (N.mul_comm a), (period_mul a s Ha) in Hb. exact Hb.
    + exact Ha.
Qed.

Lemma divisors_of_65536 :
  all_upto 65536 (fun g => (g =? 0) || negb (65536 mod g =? 0) || (32768 mod g =? 0)) = true.
Proof. vm_compute. reflexivity. Qed.

(** X30. The generator of [prng_next16] has full period: from the state
    [prng_init] leaves (never 0) every step gives a 16-bit state
    different from the one before, [prng_next] gives a byte, and the
    state comes back after 65536 steps and after no smaller number of
    steps. *)
Theorem prng_full_period (seed : Z) :
  0 <= seed <= 65535 ->
  let s := prng_init seed in
  1 <= s <= 65535 /\
  0 <= snd (prng_next16 s) <= 65535 /\
  0 <= fst (prng_next s) <= 255 /\
  snd (prng_next16 s) <> s /\
  prng_iter 65536 s = s /\
  forall k : N, (0 < k < 65536)%N -> prng_iter k s <> s.
Proof.
  intros Hseed s.
  assert (Hs1 : 1 <= s <= 65535).
  { unfold s, prng_init. destruct (Z.eqb_spec seed 0); lia. }
  assert (Hs : 0 <= s <= 65535) by lia.
  clearbody s. split; [exact Hs1|]. clear Hs1 Hseed seed.
  assert (Hfull : prng_iter 65536 s = s).
  { change 65536%N with (2 ^ N.of_nat 16)%N.
    rewrite prng_iter_pow2, affine_full. cbn [fst snd].
    rewrite Z.mod_small by lia. lia. }
  assert (Hhalf : prng_iter 32768 s <> s).
  { change 32768%N with (2 ^ N.of_nat 15)%N.
    rewrite prng_iter_pow2, affine_half. cbn [fst snd].
    destruct (Z.lt_ge_cases s 32768).
    - rewrite Z.mod_small by lia. lia.
    - replace (1 * s + 32768) with (s - 32768 + 1 * 65536) by lia.
      rewrite Z.mod_add by lia. rewrite Z.mod_small by lia. lia. }
  assert (Hmin : forall k : N, (0 < k < 65536)%N -> prng_iter k s <> s).
  { intros k Hk Hper.
    pose proof (period_gcd s k 65536 Hper Hfull) as Hg.
    set (g := N.gcd k 65536%N) in *.
    assert (Hgk : (g | k)%N) by apply N.gcd_divide_l.
    assert (Hg6 : (g | 65536)%N) by apply N.gcd_divide_r.
    assert (Hgpos : (0 < g)%N).
    { destruct (N.eq_dec g 0%N) as [E|E]; [|lia].
      unfold g in E. apply N.gcd_eq_0_l in E. lia. }
    assert (Hgle : (g <= k)%N) by (apply N.divide_pos_le; [lia|exact Hgk]).
    pose proof (all_upto_spec _ _ divisors_of_65536 (Z.of_N g) ltac:(lia)) as H.
    cbv beta in H.
    assert (H6 : 65536 mod Z.of_N g = 0).
    { destruct Hg6 as [q Hq]. replace 65536 with (Z.of_N q * Z.of_N g) by lia.
      apply Z.mod_mul. lia. }
    rewrite H6 in H. destruct (Z.eqb_spec (Z.of_N g) 0); [lia|]. cbn in H.
    apply Z.eqb_eq in H.
    assert (H3 : (32768 = (32768 / g) * g)%N).
    { apply Z.mod_divide in H; [|lia]. destruct H as [q Hq].
      assert (Hq' : (32768 = Z.to_N q * g)%N) by lia.
      rewrite Hq' at 2. rewrite N.div_mul by lia. exact Hq'. }
    apply Hhalf. rewrite H3. apply period_mul. exact Hg. }
  split.
  { rewrite prng_step_value.
    pose proof (Z.mod_pos_bound (1103515245 * s + 12345) 65536 ltac:(lia)). lia. }
  split.
  { unfold prng_next. destruct (prng_next16 s). cbn [fst]. apply u8_range. }
  split.
  { change (snd (prng_next16 s)) with (prng_iter 1 s). apply Hmin. lia. }
  split; [exact Hfull | exact Hmin].
Qed.

Lemma prng_full_period_witness :
  prng_iter 65536 (prng_init 0) = prng_init 0 /\ prng_iter 32768 (prng_init 0) <> prng_init 0.
Proof.
  pose proof (prng_full_period 0 ltac:(lia)) as H. cbv zeta in H.
  destruct H as (_ & _ & _ & _ & H1 & H2). split; [exact H1|]. apply H2. lia.
Defined.

End PrngFacts.
